(** * Invoice_to_Excel: response repair, validation and the parse entry point

    A shallow embedding of [src/invoice_parser.py] ([InvoiceParser]),
    [src/validators.py] ([InvoiceValidator]) and [src/config.py]
    ([Config.validate_file]).

    Text is modelled by its UTF-8 encoding ([String.string]).  The
    operations that depend on code points ([strip], [isdigit], [float()],
    [len]) decode it; the repair engine only inspects ASCII delimiters,
    and since an ASCII byte never occurs inside the encoding of another
    code point, their counts, and positions compared with each other,
    agree with Python's.  Python floats are IEEE binary64 and are
    modelled by Rocq's primitive floats. *)

From Stdlib Require Import Floats ZArith Ascii String List Bool Lia.
From Stdlib Require DecimalNat.
From stdpp Require Import base gmap.
Import ListNotations.

Set Warnings "-register-all".
Local Open Scope Z_scope.

(* ================================================================== *)
(** ** Python string primitives *)
(* ================================================================== *)

Module PyStr.

Definition char (c : ascii) : string := String c EmptyString.

(** The double-quote character. *)
Definition dq : string := char (ascii_of_nat 34).

Notation "a +++ b" := (String.append a b) (at level 60, right associativity).

(** [s.count(c)] for a one-character [c]. *)
Fixpoint count (c : ascii) (s : string) : nat :=
  match s with
  | EmptyString => 0
  | String d s' => (if Ascii.eqb c d then 1 else 0) + count c s'
  end%nat.

(** [c * n] *)
Fixpoint repeat_char (c : ascii) (n : nat) : string :=
  match n with
  | O => EmptyString
  | S n' => String c (repeat_char c n')
  end.

(** [s[i:]] for [i >= 0]. *)
Fixpoint drop (i : nat) (s : string) : string :=
  match i, s with
  | O, _ => s
  | S _, EmptyString => EmptyString
  | S i', String _ s' => drop i' s'
  end.

(** [s[:i]] for [i >= 0]. *)
Fixpoint take (i : nat) (s : string) : string :=
  match i, s with
  | O, _ => EmptyString
  | S _, EmptyString => EmptyString
  | S i', String c s' => String c (take i' s')
  end.

Definition startswith (p s : string) : bool := String.prefix p s.

Definition endswith (p s : string) : bool :=
  (Nat.leb (String.length p) (String.length s)
   && String.eqb (drop (String.length s - String.length p) s) p)%bool.

(** [s.find(sub)]: the lowest index of [sub] in [s], or [-1]. *)
Fixpoint find_from (sub s : string) (i : Z) : Z :=
  match s with
  | EmptyString => if String.prefix sub s then i else -1
  | String _ s' => if String.prefix sub s then i else find_from sub s' (i + 1)
  end.

Definition find (sub s : string) : Z := find_from sub s 0.

(** [s.rfind(sub)]: the highest index of [sub] in [s], or [-1]. *)
Fixpoint rfind_from (sub s : string) (i : Z) : Z :=
  match s with
  | EmptyString => if String.prefix sub s then i else -1
  | String _ s' =>
      let r := rfind_from sub s' (i + 1) in
      if r >=? 0 then r else if String.prefix sub s then i else -1
  end.

Definition rfind (sub s : string) : Z := rfind_from sub s 0.

(** [sub in s] *)
Definition contains (sub s : string) : bool := find sub s >=? 0.

(** *** Code points

    A Python [str] is a sequence of code points; the model stores its
    UTF-8 encoding.  [utf8_segments] reads the bytes back as
    (code point, bytes) pairs.  A byte that does not start a well-formed
    sequence (it never occurs in text produced by the JSON decoder or
    written as a literal) is a segment of its own with code point [-1]. *)

Definition byte_val (c : ascii) : Z := Z.of_nat (nat_of_ascii c).

Definition is_cont (c : ascii) : bool := (128 <=? byte_val c) && (byte_val c <? 192).

Fixpoint utf8_segments (s : string) : list (Z * string) :=
  match s with
  | EmptyString => []
  | String a s1 =>
      let n := byte_val a in
      if n <? 128 then (n, char a) :: utf8_segments s1
      else if n <? 192 then (-1, char a) :: utf8_segments s1
      else
        match s1 with
        | String b s2 =>
            if negb (is_cont b) then (-1, char a) :: utf8_segments s1
            else if n <? 224 then
              ((n - 192) * 64 + (byte_val b - 128), String a (char b)) :: utf8_segments s2
            else
              match s2 with
              | String c s3 =>
                  if negb (is_cont c) then (-1, char a) :: utf8_segments s1
                  else if n <? 240 then
                    (((n - 224) * 64 + (byte_val b - 128)) * 64 + (byte_val c - 128),
                     String a (String b (char c))) :: utf8_segments s3
                  else
                    match s3 with
                    | String d s4 =>
                        if is_cont d && (n <? 248) then
                          ((((n - 240) * 64 + (byte_val b - 128)) * 64
                            + (byte_val c - 128)) * 64 + (byte_val d - 128),
                           String a (String b (String c (char d)))) :: utf8_segments s4
                        else (-1, char a) :: utf8_segments s1
                    | EmptyString => (-1, char a) :: utf8_segments s1
                    end
              | EmptyString => (-1, char a) :: utf8_segments s1
              end
        | EmptyString => (-1, char a) :: utf8_segments s1
        end
  end.

(** The bytes of a sequence of segments. *)
Definition seg_bytes (l : list (Z * string)) : string :=
  fold_right (fun seg acc => snd seg +++ acc) EmptyString l.

Definition in_ranges (rs : list (Z * Z)) (cp : Z) : bool :=
  existsb (fun r => (fst r <=? cp) && (cp <=? snd r)) rs.

(** The code points [str.isspace] accepts (Python 3.11, Unicode 14.0):
    the characters of bidirectional class WS, B or S and the category
    Zs; the same test as [Py_UNICODE_ISSPACE]. *)
Definition space_ranges : list (Z * Z) :=
  [(9, 13); (28, 32); (133, 133); (160, 160); (5760, 5760); (8192, 8202);
   (8232, 8233); (8239, 8239); (8287, 8287); (12288, 12288)].
Definition is_space_cp (cp : Z) : bool := in_ranges space_ranges cp.

(** The code points [str.isdigit] accepts (numeric type Digit or
    Decimal, Unicode 14.0). *)
Definition digit_ranges : list (Z * Z) :=
  [(48, 57); (178, 179); (185, 185); (1632, 1641); (1776, 1785);
   (1984, 1993); (2406, 2415); (2534, 2543); (2662, 2671); (2790, 2799);
   (2918, 2927); (3046, 3055); (3174, 3183); (3302, 3311); (3430, 3439);
   (3558, 3567); (3664, 3673); (3792, 3801); (3872, 3881); (4160, 4169);
   (4240, 4249); (4969, 4977); (6112, 6121); (6160, 6169); (6470, 6479);
   (6608, 6618); (6784, 6793); (6800, 6809); (6992, 7001); (7088, 7097);
   (7232, 7241); (7248, 7257); (8304, 8304); (8308, 8313); (8320, 8329);
   (9312, 9320); (9332, 9340); (9352, 9360); (9450, 9450); (9461, 9469);
   (9471, 9471); (10102, 10110); (10112, 10120); (10122, 10130);
   (42528, 42537); (43216, 43225); (43264, 43273); (43472, 43481);
   (43504, 43513); (43600, 43609); (44016, 44025); (65296, 65305);
   (66720, 66729); (68160, 68163); (68912, 68921); (69216, 69224);
   (69714, 69722); (69734, 69743); (69872, 69881); (69942, 69951);
   (70096, 70105); (70384, 70393); (70736, 70745); (70864, 70873);
   (71248, 71257); (71360, 71369); (71472, 71481); (71904, 71913);
   (72016, 72025); (72784, 72793); (73040, 73049); (73120, 73129);
   (92768, 92777); (92864, 92873); (93008, 93017); (120782, 120831);
   (123200, 123209); (123632, 123641); (125264, 125273); (127232, 127242);
   (130032, 130041)].
Definition is_digit_cp (cp : Z) : bool := in_ranges digit_ranges cp.

(** The code points [str.isdecimal] accepts (numeric type Decimal,
    Unicode 14.0).  Every range starts at a digit zero, so the digit
    value of [cp] is [(cp - lo) mod 10]. *)
Definition decimal_ranges : list (Z * Z) :=
  [(48, 57); (1632, 1641); (1776, 1785); (1984, 1993); (2406, 2415);
   (2534, 2543); (2662, 2671); (2790, 2799); (2918, 2927); (3046, 3055);
   (3174, 3183); (3302, 3311); (3430, 3439); (3558, 3567); (3664, 3673);
   (3792, 3801); (3872, 3881); (4160, 4169); (4240, 4249); (6112, 6121);
   (6160, 6169); (6470, 6479); (6608, 6617); (6784, 6793); (6800, 6809);
   (6992, 7001); (7088, 7097); (7232, 7241); (7248, 7257); (42528, 42537);
   (43216, 43225); (43264, 43273); (43472, 43481); (43504, 43513);
   (43600, 43609); (44016, 44025); (65296, 65305); (66720, 66729);
   (68912, 68921); (69734, 69743); (69872, 69881); (69942, 69951);
   (70096, 70105); (70384, 70393); (70736, 70745); (70864, 70873);
   (71248, 71257); (71360, 71369); (71472, 71481); (71904, 71913);
   (72016, 72025); (72784, 72793); (73040, 73049); (73120, 73129);
   (92768, 92777); (92864, 92873); (93008, 93017); (120782, 120831);
   (123200, 123209); (123632, 123641); (125264, 125273); (130032, 130041)].
(** [unicodedata.decimal(ch)], [None] for a code point without one. *)
Definition decimal_cp (cp : Z) : option Z :=
  match List.find (fun r => (fst r <=? cp) && (cp <=? snd r)) decimal_ranges with
  | Some r => Some ((cp - fst r) mod 10)
  | None => None
  end.

(** [len(s)]: the number of code points. *)
Definition str_len (s : string) : nat := List.length (utf8_segments s).

Fixpoint drop_space_segments (l : list (Z * string)) : list (Z * string) :=
  match l with
  | [] => []
  | seg :: l' => if is_space_cp (fst seg) then drop_space_segments l' else l
  end.

(** [s.strip()]: the whitespace code points at both ends removed. *)
Definition strip (s : string) : string :=
  let l := drop_space_segments (utf8_segments s) in
  seg_bytes (rev (drop_space_segments (rev l))).

Fixpoint rev_str (s : string) (acc : string) : string :=
  match s with
  | EmptyString => acc
  | String c s' => rev_str s' (String c acc)
  end.

(** [s.lstrip(chars)] for a predicate on characters. *)
Fixpoint lstrip_by (p : ascii -> bool) (s : string) : string :=
  match s with
  | EmptyString => EmptyString
  | String c s' => if p c then lstrip_by p s' else s
  end.

(** [s.rstrip(chars)] for a predicate on characters. *)
Definition rstrip_by (p : ascii -> bool) (s : string) : string :=
  let fix go (r : string) : string :=
    match r with
    | EmptyString => EmptyString
    | String c r' => if p c then go r' else r
    end in
  rev_str (go (rev_str s EmptyString)) EmptyString.

(** [s.split(sep)[0]] for a one-character separator. *)
Fixpoint split_head (sep : ascii) (s : string) : string :=
  match s with
  | EmptyString => EmptyString
  | String c s' => if Ascii.eqb c sep then EmptyString else String c (split_head sep s')
  end.

End PyStr.

Import PyStr.

(* ================================================================== *)
(** ** [InvoiceParser._fix_json_response] *)
(* ================================================================== *)

Module Repair.

(** ["items": [], ten characters long. *)
Definition items_key : string := dq +++ "items" +++ dq +++ ": [".

(** "If response is truncated, try to close it properly". *)
Definition close_braces (response : string) : string :=
  let o := count "{" response in
  let c := count "}" response in
  if Nat.ltb c o then response +++ repeat_char "}" (o - c) else response.

(** "Handle truncated strings (common with long barcodes)". *)
Definition close_dangling_field (response : string) : string :=
  if contains dq response then
    let last_comma := rfind "," response in
    if last_comma >? 0 then
      let after_comma := strip (drop (Z.to_nat (last_comma + 1)) response) in
      if (startswith dq after_comma && negb (endswith dq after_comma))%bool then
        if contains ":" after_comma then
          take (Z.to_nat (last_comma + 1)) response
            +++ split_head ":" after_comma +++ ": null"
        else take (Z.to_nat (last_comma + 1)) response +++ "null"
      else response
    else response
  else response.

(** The scan for the bracket closing the items array: [bracket_count]
    starts at 1 and the index [i] of the character that brings it to 0
    is [array_end]; [None] is [array_end = -1]. *)
Fixpoint scan_array_end (s : string) (bracket_count : Z) (i : nat) : option nat :=
  match s with
  | EmptyString => None
  | String ch s' =>
      if Ascii.eqb ch "[" then scan_array_end s' (bracket_count + 1) (S i)
      else if Ascii.eqb ch "]" then
        if bracket_count - 1 =? 0 then Some i
        else scan_array_end s' (bracket_count - 1) (S i)
      else scan_array_end s' bracket_count (S i)
  end.

(** "Handle truncated items array specifically". *)
Definition repair_items_array (response : string) : string :=
  if contains items_key response then
    let items_start := find items_key response in
    if items_start >? 0 then
      let items_content := drop (Z.to_nat (items_start + 10)) response in
      match scan_array_end items_content 1 0 with
      | Some _ => response
      | None =>
          let last_complete_item := rfind "}," items_content in
          if last_complete_item >? 0 then
            take (Z.to_nat (items_start + 10 + last_complete_item + 1)) response +++ "]"
          else
            let last_brace := rfind "}" items_content in
            if last_brace >? 0 then
              let before_brace := take (Z.to_nat (last_brace + 1)) items_content in
              if Nat.eqb (count "{" before_brace) (count "}" before_brace) then
                take (Z.to_nat (items_start + 10 + last_brace + 1)) response +++ "]"
              else take (Z.to_nat (items_start + 10)) response +++ "[]"
            else take (Z.to_nat (items_start + 10)) response +++ "[]"
      end
    else response
  else response.

(** "If response ends with an incomplete array, close it". *)
Definition close_brackets (response : string) : string :=
  let o := count "[" response in
  let c := count "]" response in
  if Nat.ltb c o then response +++ repeat_char "]" (o - c) else response.

(** "Ensure the response ends properly". *)
Definition ensure_object_end (response : string) : string :=
  if endswith "}" response then response
  else rstrip_by (fun ch => Ascii.eqb ch ",") response +++ "}".

Definition _fix_json_response (response : string) : string :=
  ensure_object_end
    (close_brackets (repair_items_array (close_dangling_field (close_braces response)))).

End Repair.

(* ================================================================== *)
(** ** Python floats: correctly rounded decimal-to-binary64 conversion *)
(* ================================================================== *)

Module PyFloat.

Definition prec : Z := 53.
Definition emax : Z := 1024.

Fixpoint digits10_aux (fuel : nat) (z : Z) : Z :=
  match fuel with
  | O => 0
  | S f => if z <? 10 then 1 else 1 + digits10_aux f (z / 10)
  end.

(** The number of decimal digits of [p] (it has at most [Pos.size p]). *)
Definition digits10_pos (p : positive) : Z :=
  digits10_aux (Pos.to_nat (Pos.size p)) (Zpos p).

(** The binary64 value nearest to [(-1)^neg * m * 10^k] (ties to even),
    as Python's [float()] computes it.  Values beyond the range are
    settled before the big powers of ten would be formed. *)
Definition decimal_to_float (neg : bool) (m k : Z) : float :=
  match m with
  | Zpos p =>
      let d := digits10_pos p in
      if 310 <? k + d then (if neg then PrimFloat.neg_infinity else PrimFloat.infinity)
      else if k + d <? -330 then (if neg then PrimFloat.neg_zero else PrimFloat.zero)
      else match k with
           | Zneg k' =>
               SF2Prim (SFdiv prec emax (S754_finite neg p 0)
                                        (S754_finite false (Pos.pow 10 k') 0))
           | _ =>
               SF2Prim (binary_normalize prec emax
                          ((if neg then Z.opp else id) (Zpos p * 10 ^ k)) 0 neg)
           end
  | _ => if neg then PrimFloat.neg_zero else PrimFloat.zero
  end.

(** [float(n)] for a Python [int]: the nearest binary64 value, or
    [None] when it overflows ([OverflowError]). *)
Definition int_to_float (n : Z) : option float :=
  match binary_normalize prec emax n 0 false with
  | S754_infinity _ => None
  | f => Some (SF2Prim f)
  end.

Definition is_digit (c : ascii) : bool :=
  let n := nat_of_ascii c in ((48 <=? n) && (n <=? 57))%nat.

Definition digit_val (c : ascii) : Z := Z.of_nat (nat_of_ascii c) - 48.

Definition lower (c : ascii) : ascii :=
  let n := nat_of_ascii c in
  if ((65 <=? n) && (n <=? 90))%nat then ascii_of_nat (n + 32) else c.

Fixpoint lower_str (s : string) : string :=
  match s with
  | EmptyString => EmptyString
  | String c s' => String (lower c) (lower_str s')
  end.

(** A run of digits in which single underscores may separate two digits
    (PEP 515), as [float()] accepts it: the value, the number of digits
    and the rest.  [None] when the run is empty or an underscore is
    misplaced. *)
Fixpoint digit_run (s : string) (v : Z) (n : nat) : option (Z * nat * string) :=
  match s with
  | String c s' =>
      if is_digit c then digit_run s' (v * 10 + digit_val c) (S n)
      else if Ascii.eqb c "_" then
        match s' with
        | String c' _ => if (is_digit c' && negb (Nat.eqb n 0))%bool
                         then digit_run s' v n else None
        | EmptyString => None
        end
      else if Nat.eqb n 0 then None else Some (v, n, s)
  | EmptyString => if Nat.eqb n 0 then None else Some (v, n, s)
  end.

Definition opt_digit_run (s : string) : option (Z * nat * string) :=
  match s with
  | String c _ => if is_digit c then digit_run s 0 0 else Some (0, 0%nat, s)
  | EmptyString => Some (0, 0%nat, s)
  end.

Definition sign_of (s : string) : bool * string :=
  match s with
  | String "-" s' => (true, s')
  | String "+" s' => (false, s')
  | _ => (false, s)
  end.

(** The unsigned decimal body of [float(s)]: digits with an optional
    fraction (at least one digit overall) and an optional exponent,
    consuming the whole string. *)
Definition parse_decimal_body (neg : bool) (s : string) : option float :=
  match opt_digit_run s with
  | None => None
  | Some (ip, ni, r1) =>
      let '(fp, nf, r2) :=
        match r1 with
        | String "." r1' =>
            match opt_digit_run r1' with
            | Some x => x
            | None => (0, 0%nat, String "!" EmptyString)
            end
        | _ => (0, 0%nat, r1)
        end in
      if Nat.eqb (ni + nf) 0 then None else
      let mant := ip * 10 ^ Z.of_nat nf + fp in
      match r2 with
      | EmptyString => Some (decimal_to_float neg mant (- Z.of_nat nf))
      | String e r3 =>
          if Ascii.eqb (lower e) "e" then
            let '(eneg, r4) := sign_of r3 in
            match r4 with
            | String c _ =>
                if is_digit c then
                  match digit_run r4 0 0 with
                  | Some (ev, _, EmptyString) =>
                      Some (decimal_to_float neg mant
                              ((if eneg then - ev else ev) - Z.of_nat nf))
                  | _ => None
                  end
                else None
            | EmptyString => None
            end
          else None
      end
  end.

(** [_PyUnicode_TransformDecimalAndSpaceToASCII]: a code point below
    127 is kept, other whitespace becomes a space, a decimal digit
    becomes its ASCII digit and anything else becomes ['?']. *)
Definition to_ascii_segment (seg : Z * string) : string :=
  let '(cp, b) := seg in
  if (0 <=? cp) && (cp <? 127) then b
  else if is_space_cp cp then " "
  else match decimal_cp cp with
       | Some d => char (ascii_of_nat (48 + Z.to_nat d))
       | None => "?"
       end.

Definition transform_decimal_and_space (s : string) : string :=
  fold_right (fun seg acc => to_ascii_segment seg +++ acc) EmptyString (utf8_segments s).

(** [Py_ISSPACE]: the ASCII whitespace the number parser strips. *)
Definition c_isspace (c : ascii) : bool :=
  let n := nat_of_ascii c in ((9 <=? n) && (n <=? 13) || (n =? 32))%nat.

(** [float(s)] for a Python [str]; [None] is [ValueError]. *)
Definition float_of_str (s : string) : option float :=
  let t := rstrip_by c_isspace (lstrip_by c_isspace (transform_decimal_and_space s)) in
  let '(neg, body) := sign_of t in
  let b := lower_str body in
  if (String.eqb b "inf" || String.eqb b "infinity")%bool then
    Some (if neg then PrimFloat.neg_infinity else PrimFloat.infinity)
  else if String.eqb b "nan" then Some PrimFloat.nan
  else parse_decimal_body neg body.

End PyFloat.

(* ================================================================== *)
(** ** JSON values and [json.loads] *)
(* ================================================================== *)

Module Json.

(** What [json.loads] returns: [None], [bool], [int], [float], [str],
    [list] and [dict] (an association list in insertion order). *)
Inductive json : Type :=
| JNull
| JBool (b : bool)
| JInt (z : Z)
| JFloat (f : float)
| JStr (s : string)
| JArr (xs : list json)
| JObj (kvs : list (string * json)).

(** [d[k] = v] on a dict: a key already present keeps its position. *)
Fixpoint dict_set {A} (k : string) (v : A) (kvs : list (string * A)) : list (string * A) :=
  match kvs with
  | [] => [(k, v)]
  | (k', v') :: rest =>
      if String.eqb k k' then (k, v) :: rest else (k', v') :: dict_set k v rest
  end.

Definition is_json_ws (c : ascii) : bool :=
  (Ascii.eqb c " " || Ascii.eqb c (ascii_of_nat 9) || Ascii.eqb c (ascii_of_nat 10)
   || Ascii.eqb c (ascii_of_nat 13))%bool.

Fixpoint skip_ws (s : string) : string :=
  match s with
  | String c s' => if is_json_ws c then skip_ws s' else s
  | EmptyString => s
  end.

Definition hex_val (c : ascii) : option Z :=
  let n := Z.of_nat (nat_of_ascii c) in
  if (48 <=? n) && (n <=? 57) then Some (n - 48)
  else if (65 <=? n) && (n <=? 70) then Some (n - 55)
  else if (97 <=? n) && (n <=? 102) then Some (n - 87)
  else None.

Definition byte (n : Z) : ascii := ascii_of_nat (Z.to_nat n).

(** A code point written as UTF-8 bytes. *)
Definition utf8 (cp : Z) : string :=
  if cp <? 128 then char (byte cp)
  else if cp <? 2048 then
    String (byte (192 + cp / 64)) (char (byte (128 + cp mod 64)))
  else String (byte (224 + cp / 4096))
         (String (byte (128 + (cp / 64) mod 64)) (char (byte (128 + cp mod 64)))).

(** The body of a string literal after its opening quote ([py_scanstring],
    strict mode: control characters are refused).  Each [\uXXXX] escape
    is one code point written as UTF-8 (surrogate pairs are not joined). *)
Fixpoint scan_string (s : string) (acc : string) : option (string * string) :=
  match s with
  | EmptyString => None
  | String c s' =>
      if Ascii.eqb c (ascii_of_nat 34) then Some (rev_str acc EmptyString, s')
      else if (nat_of_ascii c <? 32)%nat then None
      else if Ascii.eqb c "\" then
        match s' with
        | String e s'' =>
            let simple r := scan_string s'' (String r acc) in
            if Ascii.eqb e (ascii_of_nat 34) then simple e
            else if Ascii.eqb e "\" then simple e
            else if Ascii.eqb e "/" then simple e
            else if Ascii.eqb e "b" then simple (ascii_of_nat 8)
            else if Ascii.eqb e "f" then simple (ascii_of_nat 12)
            else if Ascii.eqb e "n" then simple (ascii_of_nat 10)
            else if Ascii.eqb e "r" then simple (ascii_of_nat 13)
            else if Ascii.eqb e "t" then simple (ascii_of_nat 9)
            else if Ascii.eqb e "u" then
              match s'' with
              | String a (String b (String c1 (String d rest))) =>
                  match hex_val a, hex_val b, hex_val c1, hex_val d with
                  | Some x1, Some x2, Some x3, Some x4 =>
                      scan_string rest
                        (rev_str (utf8 (((x1 * 16 + x2) * 16 + x3) * 16 + x4)) acc)
                  | _, _, _, _ => None
                  end
              | _ => None
              end
            else None
        | EmptyString => None
        end
      else scan_string s' (String c acc)
  end.

(** [NUMBER_RE]: an optional minus, then [0] or a digit run without a
    leading zero, an optional fraction ([.] and one digit or more) and an
    optional exponent ([e] or [E], a sign, one digit or more).  An integer
    literal becomes an [int], any other a [float]. *)
Fixpoint plain_digits (s : string) (v : Z) (n : nat) : Z * nat * string :=
  match s with
  | String c s' => if PyFloat.is_digit c then plain_digits s' (v * 10 + PyFloat.digit_val c) (S n)
                   else (v, n, s)
  | EmptyString => (v, n, s)
  end.

Definition scan_number (s : string) : option (json * string) :=
  let '(neg, s1) := match s with String "-" s' => (true, s') | _ => (false, s) end in
  let int_part :=
    match s1 with
    | String "0" r => Some (0, r)
    | String c _ => if PyFloat.is_digit c then
                      let '(v, _, r) := plain_digits s1 0 0 in Some (v, r)
                    else None
    | EmptyString => None
    end in
  match int_part with
  | None => None
  | Some (ip, r1) =>
      let '(frac, r2) :=
        match r1 with
        | String "." (String c r) =>
            if PyFloat.is_digit c then
              let '(v, n, r') := plain_digits (String c r) 0 0 in (Some (v, n), r')
            else (None, r1)
        | _ => (None, r1)
        end in
      let '(ex, r3) :=
        match r2 with
        | String e r =>
            if Ascii.eqb (PyFloat.lower e) "e" then
              let '(eneg, r') := match r with
                                 | String "-" r' => (true, r')
                                 | String "+" r' => (false, r')
                                 | _ => (false, r) end in
              match r' with
              | String c _ =>
                  if PyFloat.is_digit c then
                    let '(v, _, r'') := plain_digits r' 0 0 in
                    (Some (if eneg then - v else v), r'')
                  else (None, r2)
              | EmptyString => (None, r2)
              end
            else (None, r2)
        | EmptyString => (None, r2)
        end in
      match frac, ex with
      | None, None => Some (JInt (if neg then - ip else ip), r3)
      | _, _ =>
          let '(fv, fn) := match frac with Some x => x | None => (0, 0%nat) end in
          let e := match ex with Some e => e | None => 0 end in
          Some (JFloat (PyFloat.decimal_to_float neg (ip * 10 ^ Z.of_nat fn + fv)
                          (e - Z.of_nat fn)), r3)
      end
  end.

(** [scan_once], [JSONArray] and [JSONObject] of [json.decoder]; [fuel]
    bounds the nesting and the number of elements. *)
Fixpoint scan_value (fuel : nat) (s : string) : option (json * string) :=
  match fuel with
  | O => None
  | S fuel' =>
      match s with
      | String c s' =>
          if Ascii.eqb c (ascii_of_nat 34) then
            option_map (fun '(v, r) => (JStr v, r)) (scan_string s' EmptyString)
          else if Ascii.eqb c "{" then
            match skip_ws s' with
            | String "}" r => Some (JObj [], r)
            | r => scan_members fuel' r []
            end
          else if Ascii.eqb c "[" then
            match skip_ws s' with
            | String "]" r => Some (JArr [], r)
            | r => scan_elements fuel' r []
            end
          else if String.prefix "null" s then Some (JNull, drop 4 s)
          else if String.prefix "true" s then Some (JBool true, drop 4 s)
          else if String.prefix "false" s then Some (JBool false, drop 5 s)
          else match scan_number s with
               | Some x => Some x
               | None =>
                   if String.prefix "NaN" s then Some (JFloat PrimFloat.nan, drop 3 s)
                   else if String.prefix "Infinity" s then
                     Some (JFloat PrimFloat.infinity, drop 8 s)
                   else if String.prefix "-Infinity" s then
                     Some (JFloat PrimFloat.neg_infinity, drop 9 s)
                   else None
               end
      | EmptyString => None
      end
  end
with scan_elements (fuel : nat) (s : string) (acc : list json) : option (json * string) :=
  match fuel with
  | O => None
  | S fuel' =>
      match scan_value fuel' s with
      | None => None
      | Some (v, r) =>
          match skip_ws r with
          | String "]" r' => Some (JArr (List.rev (v :: acc)), r')
          | String "," r' => scan_elements fuel' (skip_ws r') (v :: acc)
          | _ => None
          end
      end
  end
with scan_members (fuel : nat) (s : string) (acc : list (string * json))
  : option (json * string) :=
  match fuel with
  | O => None
  | S fuel' =>
      match s with
      | String q s' =>
          if Ascii.eqb q (ascii_of_nat 34) then
            match scan_string s' EmptyString with
            | None => None
            | Some (k, r) =>
                match skip_ws r with
                | String ":" r' =>
                    match scan_value fuel' (skip_ws r') with
                    | None => None
                    | Some (v, r'') =>
                        match skip_ws r'' with
                        | String "}" r3 => Some (JObj (dict_set k v acc), r3)
                        | String "," r3 => scan_members fuel' (skip_ws r3) (dict_set k v acc)
                        | _ => None
                        end
                    end
                | _ => None
                end
            end
          else None
      | EmptyString => None
      end
  end.

(** [json.loads(s)]; [None] is [json.JSONDecodeError]. *)
Definition json_loads (s : string) : option json :=
  match scan_value (2 * String.length s + 2) (skip_ws s) with
  | Some (v, r) => match skip_ws r with EmptyString => Some v | _ => None end
  | None => None
  end.

End Json.

Import Json.

(* ================================================================== *)
(** ** [InvoiceParser._parse_json_response] *)
(* ================================================================== *)

Module Response.

(** The two ways the method fails: the [ValueError] raised for a
    [json.JSONDecodeError] ("Invalid JSON response from OpenAI") and the
    [ValueError] "Response is not a valid JSON object". *)
Inductive response_error : Type :=
| InvalidJSONResponse
| NotAJSONObject.

(** "Clean the response - remove any markdown formatting". *)
Definition clean_markdown (raw_response : string) : string :=
  let c0 := strip raw_response in
  let c1 := if startswith "```json" c0 then drop 7 c0 else c0 in
  let c2 := if endswith "```" c1 then take (String.length c1 - 3) c1 else c1 in
  strip c2.

Section WithLoads.

(** The JSON decoder, [json.loads]; [None] is [json.JSONDecodeError]. *)
Variable loads : string -> option json.

(** The before/after dump to [json_before_fix.txt] and
    [json_after_fix.txt] swallows its own errors and is not modelled. *)
Definition _parse_json_response (raw_response : string) : json + response_error :=
  let cleaned_response := clean_markdown raw_response in
  match loads cleaned_response with
  | Some parsed => inl parsed
  | None =>
      match loads (Repair._fix_json_response cleaned_response) with
      | None => inr InvalidJSONResponse
      | Some parsed =>
          match parsed with
          | JObj _ => inl parsed
          | _ => inr NotAJSONObject
          end
      end
  end.

End WithLoads.

End Response.

Import Response.

(* ================================================================== *)
(** ** Python objects on a heap *)
(* ================================================================== *)

Module PyObj.

(** A Python value: a scalar, or a reference to a [dict] or [list] on the
    heap.  A dict or list reached from two places is one heap object, so
    [data.copy()] (shallow) and in-place item updates are modelled as the
    code performs them. *)
Inductive pyval : Type :=
| PyNone
| PyBool (b : bool)
| PyInt (z : Z)
| PyFloat (f : float)
| PyStr (s : string)
| PyRef (l : positive).

Inductive pyobj : Type :=
| PyDict (kvs : list (string * pyval))
| PyList (xs : list pyval).

Abbreviation heap := (gmap positive pyobj).

(** The value stored under [k] in a dict's entries. *)
Fixpoint dict_lookup (k : string) (kvs : list (string * pyval)) : option pyval :=
  match kvs with
  | [] => None
  | (k', v) :: rest => if String.eqb k k' then Some v else dict_lookup k rest
  end.

(** Python's truth value of [v]. *)
Definition truthy (h : heap) (v : pyval) : bool :=
  match v with
  | PyNone => false
  | PyBool b => b
  | PyInt z => negb (z =? 0)
  | PyFloat f => negb (PrimFloat.eqb f PrimFloat.zero)
  | PyStr s => negb (String.eqb s EmptyString)
  | PyRef l =>
      match h !! l with
      | Some (PyDict kvs) => negb (Nat.eqb (List.length kvs) 0)
      | Some (PyList xs) => negb (Nat.eqb (List.length xs) 0)
      | None => true
      end
  end.

(** [x is not None and x != "None"] *)
Definition present (v : pyval) : bool :=
  match v with
  | PyNone => false
  | PyStr s => negb (String.eqb s "None")
  | _ => true
  end.

(** The outcome of [float(x)]: a value, a [ValueError] or [TypeError]
    (caught by the validator), or an [OverflowError] (not caught). *)
Inductive float_outcome : Type :=
| FloatOk (f : float)
| FloatCaught
| FloatOverflow.

Definition py_float (v : pyval) : float_outcome :=
  match v with
  | PyNone => FloatCaught
  | PyBool b => FloatOk (if b then PrimFloat.one else PrimFloat.zero)
  | PyInt z => match PyFloat.int_to_float z with
               | Some f => FloatOk f
               | None => FloatOverflow
               end
  | PyFloat f => FloatOk f
  | PyStr s => match PyFloat.float_of_str s with
               | Some f => FloatOk f
               | None => FloatCaught
               end
  | PyRef _ => FloatCaught
  end.

(** *** [str()] *)

Fixpoint uint_to_string (d : Decimal.uint) : string :=
  match d with
  | Decimal.Nil => EmptyString
  | Decimal.D0 d => String "0" (uint_to_string d)
  | Decimal.D1 d => String "1" (uint_to_string d)
  | Decimal.D2 d => String "2" (uint_to_string d)
  | Decimal.D3 d => String "3" (uint_to_string d)
  | Decimal.D4 d => String "4" (uint_to_string d)
  | Decimal.D5 d => String "5" (uint_to_string d)
  | Decimal.D6 d => String "6" (uint_to_string d)
  | Decimal.D7 d => String "7" (uint_to_string d)
  | Decimal.D8 d => String "8" (uint_to_string d)
  | Decimal.D9 d => String "9" (uint_to_string d)
  end.

(** [str(i)] for a non-negative index. *)
Definition str_nat (n : nat) : string := uint_to_string (Nat.to_uint n).

(** [str(z)] for an [int]. *)
Definition str_Z (z : Z) : string :=
  match z with
  | Z0 => "0"
  | Zpos p => uint_to_string (Pos.to_uint p)
  | Zneg p => "-" +++ uint_to_string (Pos.to_uint p)
  end.

Definition round_half_even (num den : Z) : Z :=
  let q := num / den in
  let r := num mod den in
  if (den <? 2 * r) || ((2 * r =? den) && Z.odd q) then q + 1 else q.

(** The shortest decimal digit string [q * 10^t] that reads back as the
    positive value [N / D] (binary64 [f]); among candidates of one
    length the nearest.  Returns [q] and [t]. *)
Definition shortest_digits (f : float) (N D : Z) : Z * Z :=
  let dN := PyFloat.digits10_aux 2000 N in
  let dD := PyFloat.digits10_aux 2000 D in
  let k0 := dN - dD in
  let ge := if k0 >=? 0 then D * 10 ^ k0 <=? N else D <=? N * 10 ^ (- k0) in
  let k := if ge then k0 + 1 else k0 in
  let attempt (p : Z) : option (Z * Z) :=
    let t := p - k in
    let num := if t >=? 0 then N * 10 ^ t else N in
    let den := if t >=? 0 then D else D * 10 ^ (- t) in
    let q0 := round_half_even num den in
    let ok q := (0 <? q) && PrimFloat.eqb (PyFloat.decimal_to_float false q (- t)) f in
    let dist q := Z.abs (q * den - num) in
    let best := List.fold_left
                  (fun acc q => if ok q then
                                  match acc with
                                  | Some b => if dist q <? dist b then Some q else acc
                                  | None => Some q
                                  end
                                else acc) [q0; q0 - 1; q0 + 1] None in
    option_map (fun q => (q, - t)) best in
  let fix go (ps : list Z) : Z * Z :=
    match ps with
    | [] => (round_half_even (N * 10 ^ (17 - k)) D, k - 17)
    | p :: ps' => match attempt p with Some r => r | None => go ps' end
    end in
  go [1;2;3;4;5;6;7;8;9;10;11;12;13;14;15;16;17].

Fixpoint zeros (n : nat) : string :=
  match n with O => EmptyString | S n' => String "0" (zeros n') end.

Fixpoint strip_trailing_zeros (q : Z) (e : Z) (fuel : nat) : Z * Z :=
  match fuel with
  | O => (q, e)
  | S f => if (q mod 10 =? 0) && (0 <? q) then strip_trailing_zeros (q / 10) (e + 1) f
           else (q, e)
  end.

(** [repr(f)] for a finite positive [f] given by its digits [ds] and the
    decimal point position [decpt] ([f = 0.ds * 10^decpt]), in the
    ['r'] style of [float_repr_style = 'short']. *)
Definition format_short (ds : string) (decpt : Z) : string :=
  let n := Z.of_nat (String.length ds) in
  if (decpt <=? -4) || (16 <? decpt) then
    let ex := decpt - 1 in
    let mant := match ds with
                | String d rest => if 1 <? n then String d ("." +++ rest) else char d
                | EmptyString => EmptyString
                end in
    let ed := str_Z (Z.abs ex) in
    mant +++ "e" +++ (if ex <? 0 then "-" else "+")
         +++ (if Z.abs ex <? 10 then "0" +++ ed else ed)
  else if decpt <=? 0 then "0." +++ zeros (Z.to_nat (- decpt)) +++ ds
  else if n <=? decpt then ds +++ zeros (Z.to_nat (decpt - n)) +++ ".0"
  else take (Z.to_nat decpt) ds +++ "." +++ drop (Z.to_nat decpt) ds.

(** [repr(f)], which is also [str(f)]. *)
Definition float_repr (f : float) : string :=
  match Prim2SF f with
  | S754_nan => "nan"
  | S754_infinity s => if s then "-inf" else "inf"
  | S754_zero s => if s then "-0.0" else "0.0"
  | S754_finite s m e =>
      let '(N, D) := if e >=? 0 then (Zpos m * 2 ^ e, 1) else (Zpos m, 2 ^ (- e)) in
      let '(q0, t0) := shortest_digits (PrimFloat.abs f) N D in
      let '(q, t) := strip_trailing_zeros q0 t0 20 in
      let ds := str_Z q in
      (if s then "-" else EmptyString) +++ format_short ds (Z.of_nat (String.length ds) + t)
  end.

Definition hex_digit (n : nat) : ascii :=
  if (n <? 10)%nat then ascii_of_nat (48 + n) else ascii_of_nat (87 + n).

(** [repr(s)] for a [str]: single quotes unless the text holds a single
    quote and no double quote; backslash, the quote, tab, newline and
    carriage return escaped, other control characters as [\xNN]. *)
Definition repr_str (s : string) : string :=
  let q := if (contains "'" s && negb (contains dq s))%bool then ascii_of_nat 34 else "'"%char in
  let fix esc (s : string) : string :=
    match s with
    | EmptyString => EmptyString
    | String c s' =>
        let n := nat_of_ascii c in
        (if Ascii.eqb c "\" then "\\"
         else if Ascii.eqb c q then String "\" (char q)
         else if Nat.eqb n 9 then "\t"
         else if Nat.eqb n 10 then "\n"
         else if Nat.eqb n 13 then "\r"
         else if (n <? 32)%nat || Nat.eqb n 127 then
           String "\" (String "x" (String (hex_digit (n / 16)) (char (hex_digit (n mod 16)))))
         else char c) +++ esc s'
    end in
  String q (esc s +++ char q).

Fixpoint join (sep : string) (xs : list string) : string :=
  match xs with
  | [] => EmptyString
  | [x] => x
  | x :: xs' => x +++ sep +++ join sep xs'
  end.

(** [repr(v)]; [path] holds the containers being printed, which a
    recursive container prints as [{...}] or [[...]]. *)
Fixpoint repr_val (fuel : nat) (h : heap) (path : list positive) (v : pyval) : string :=
  match v with
  | PyNone => "None"
  | PyBool b => if b then "True" else "False"
  | PyInt z => str_Z z
  | PyFloat f => float_repr f
  | PyStr s => repr_str s
  | PyRef l =>
      match fuel with
      | O => EmptyString
      | S fuel' =>
          let inner := if existsb (Pos.eqb l) path then None else Some (l :: path) in
          match h !! l, inner with
          | Some (PyDict _), None => "{...}"
          | Some (PyList _), None => "[...]"
          | Some (PyDict kvs), Some p =>
              "{" +++ join ", " (map (fun '(k, x) => repr_str k +++ ": " +++ repr_val fuel' h p x) kvs)
                  +++ "}"
          | Some (PyList xs), Some p =>
              "[" +++ join ", " (map (repr_val fuel' h p) xs) +++ "]"
          | None, _ => EmptyString
          end
      end
  end.

(** [str(v)]: the text itself for a [str], [repr] otherwise. *)
Definition py_str (h : heap) (v : pyval) : string :=
  match v with
  | PyStr s => s
  | _ => repr_val (S (size h)) h [] v
  end.

End PyObj.

Import PyObj.

(* ================================================================== *)
(** ** [InvoiceValidator] ([src/validators.py]) *)
(* ================================================================== *)

Module Validator.

Local Open Scope string_scope.

(** The heap and the instance's [validation_flags] list. *)
Record vstate : Type := mkState {
  heap_of : heap;
  validation_flags : list string
}.

(** The exceptions the validator can raise, each with the text [str(e)]
    gives: [AttributeError] ([.get] on a value that is not a dict),
    [TypeError] (iterating, indexing or testing membership on a value
    that does not allow it), [KeyError], and the [OverflowError] of
    [float(n)] on a huge [int], which the [except (ValueError, TypeError)]
    clauses do not catch. *)
Inductive pyexc : Type :=
| AttributeError (msg : string)
| TypeError (msg : string)
| KeyError (msg : string)
| OverflowError (msg : string).

(** [str(e)] *)
Definition exc_str (e : pyexc) : string :=
  match e with
  | AttributeError msg | TypeError msg | KeyError msg | OverflowError msg => msg
  end.

(** [type(v).__name__] *)
Definition type_name (h : heap) (v : pyval) : string :=
  match v with
  | PyNone => "NoneType"
  | PyBool _ => "bool"
  | PyInt _ => "int"
  | PyFloat _ => "float"
  | PyStr _ => "str"
  | PyRef l => match h !! l with
               | Some (PyDict _) => "dict"
               | Some (PyList _) => "list"
               | None => "object"
               end
  end.

(** The messages of the exceptions raised below. *)
Definition no_attribute (h : heap) (v : pyval) (attr : string) : string :=
  "'" +++ type_name h v +++ "' object has no attribute '" +++ attr +++ "'".

Definition not_iterable (h : heap) (v : pyval) : string :=
  "'" +++ type_name h v +++ "' object is not iterable".

Definition overflow_msg : string := "int too large to convert to float".

(** A state and exception monad: an exception keeps the effects made
    before it was raised. *)
Definition M (A : Type) : Type := vstate -> (A + pyexc) * vstate.

Definition ret {A} (x : A) : M A := fun st => (inl x, st).

Definition bind {A B} (m : M A) (k : A -> M B) : M B :=
  fun st => match m st with
            | (inl x, st') => k x st'
            | (inr e, st') => (inr e, st')
            end.

Definition raise {A} (e : pyexc) : M A := fun st => (inr e, st).

Notation "x <- m ;; k" := (bind m (fun x => k))
  (at level 100, m at next level, right associativity).
Notation "m ;;; k" := (bind m (fun _ : unit => k))
  (at level 100, right associativity).

Definition read_heap : M heap := fun st => (inl (heap_of st), st).

(** [self.validation_flags.append(s)] *)
Definition append_flag (s : string) : M unit :=
  fun st => (inl tt, mkState (heap_of st) (validation_flags st ++ [s])).

(** A new object at a location not in use. *)
Definition alloc (o : pyobj) : M pyval :=
  fun st => let l := fresh (dom (heap_of st)) in
            (inl (PyRef l), mkState (<[l := o]> (heap_of st)) (validation_flags st)).

(** [d.get(k)] *)
Definition dict_get (d : pyval) (k : string) : M pyval :=
  h <- read_heap ;;
  match d with
  | PyRef l => match h !! l with
               | Some (PyDict kvs) => ret (match dict_lookup k kvs with
                                           | Some v => v
                                           | None => PyNone
                                           end)
               | _ => raise (AttributeError (no_attribute h d "get"))
               end
  | _ => raise (AttributeError (no_attribute h d "get"))
  end.

(** [d.get(k, [])]: [None] stands for the fresh empty list returned when
    the key is missing (it is only tested and iterated, both empty). *)
Definition dict_get_opt (d : pyval) (k : string) : M (option pyval) :=
  h <- read_heap ;;
  match d with
  | PyRef l => match h !! l with
               | Some (PyDict kvs) => ret (dict_lookup k kvs)
               | _ => raise (AttributeError (no_attribute h d "get"))
               end
  | _ => raise (AttributeError (no_attribute h d "get"))
  end.

(** [k in c] for a [str] key [k]. *)
Definition py_contains (k : string) (c : pyval) : M bool :=
  h <- read_heap ;;
  match c with
  | PyStr s => ret (contains k s)
  | PyRef l => match h !! l with
               | Some (PyDict kvs) => ret (match dict_lookup k kvs with Some _ => true | None => false end)
               | Some (PyList xs) =>
                   ret (existsb (fun x => match x with PyStr s => String.eqb s k | _ => false end) xs)
               | None => raise (TypeError ("argument of type '" +++ type_name h c +++ "' is not iterable"))
               end
  | _ => raise (TypeError ("argument of type '" +++ type_name h c +++ "' is not iterable"))
  end.

(** The [TypeError] of [c[k]] with a [str] key on a value that is not a
    dict. *)
Definition subscript_error (h : heap) (c : pyval) : string :=
  let t := type_name h c in
  if String.eqb t "list" then "list indices must be integers or slices, not str"
  else if String.eqb t "str" then "string indices must be integers, not 'str'"
  else "'" +++ t +++ "' object is not subscriptable".

(** The [TypeError] of [c[k] = v] with a [str] key on a value that is not
    a dict. *)
Definition assignment_error (h : heap) (c : pyval) : string :=
  let t := type_name h c in
  if String.eqb t "list" then "list indices must be integers or slices, not str"
  else "'" +++ t +++ "' object does not support item assignment".

(** [c[k]] for a [str] key [k]; a missing key's [KeyError] reads as the
    key's [repr], written here for keys without quotes or backslashes. *)
Definition getitem (c : pyval) (k : string) : M pyval :=
  h <- read_heap ;;
  match c with
  | PyRef l => match h !! l with
               | Some (PyDict kvs) => match dict_lookup k kvs with
                                      | Some v => ret v
                                      | None => raise (KeyError ("'" +++ k +++ "'"))
                                      end
               | _ => raise (TypeError (subscript_error h c))
               end
  | _ => raise (TypeError (subscript_error h c))
  end.

(** [c[k] = v] for a [str] key [k]: only a dict accepts it. *)
Definition setitem (c : pyval) (k : string) (v : pyval) : M unit :=
  fun st =>
    match c with
    | PyRef l => match heap_of st !! l with
                 | Some (PyDict kvs) =>
                     (inl tt, mkState (<[l := PyDict (dict_set k v kvs)]> (heap_of st))
                                      (validation_flags st))
                 | _ => (inr (TypeError (assignment_error (heap_of st) c)), st)
                 end
    | _ => (inr (TypeError (assignment_error (heap_of st) c)), st)
    end.

(** [c.copy()] (shallow). *)
Definition py_copy (c : pyval) : M pyval :=
  h <- read_heap ;;
  match c with
  | PyRef l => match h !! l with
               | Some o => alloc o
               | None => raise (AttributeError (no_attribute h c "copy"))
               end
  | _ => raise (AttributeError (no_attribute h c "copy"))
  end.

(** The elements a [for] loop visits: a list's items, a dict's keys, a
    string's characters. *)
Definition py_iter (c : pyval) : M (list pyval) :=
  h <- read_heap ;;
  match c with
  | PyStr s => ret (map (fun seg => PyStr (snd seg)) (utf8_segments s))
  | PyRef l => match h !! l with
               | Some (PyList xs) => ret xs
               | Some (PyDict kvs) => ret (map (fun kv => PyStr (fst kv)) kvs)
               | None => raise (TypeError (not_iterable h c))
               end
  | _ => raise (TypeError (not_iterable h c))
  end.

(** [isinstance(v, list)] *)
Definition is_list (h : heap) (v : pyval) : bool :=
  match v with
  | PyRef l => match h !! l with Some (PyList _) => true | _ => false end
  | _ => false
  end.

(** [a or b]: [b] is evaluated only when [a] is falsy. *)
Definition py_or (a b : M pyval) : M pyval :=
  x <- a ;; h <- read_heap ;; if truthy h x then ret x else b.

Fixpoint for_each {A} (xs : list A) (body : A -> M unit) : M unit :=
  match xs with
  | [] => ret tt
  | x :: xs' => body x ;;; for_each xs' body
  end.

(** [for i, x in enumerate(xs)] from index [i]. *)
Fixpoint for_each_i {A} (i : nat) (xs : list A) (body : nat -> A -> M unit) : M unit :=
  match xs with
  | [] => ret tt
  | x :: xs' => body i x ;;; for_each_i (S i) xs' body
  end.

Fixpoint fold_m {A B} (xs : list A) (body : B -> A -> M B) (acc : B) : M B :=
  match xs with
  | [] => ret acc
  | x :: xs' => acc' <- body acc x ;; fold_m xs' body acc'
  end.

(** [try: m except Exception as e: handler(e); raise] *)
Definition try_reraise {A} (m : M A) (handler : pyexc -> M unit) : M A :=
  fun st => match m st with
            | (inl x, st') => (inl x, st')
            | (inr e, st') => (handler e ;;; raise e) st'
            end.

(** *** The validation stages *)

Definition required_sections : list string := ["vendor"; "invoice"; "account"; "items"].

Definition _validate_basic_structure (data : pyval) : M unit :=
  for_each required_sections (fun section =>
    present_ <- py_contains section data ;;
    if present_ then ret tt
    else append_flag ("missing_section: " +++ section) ;;;
         d <- alloc (PyDict []) ;;
         setitem data section d) ;;;
  items <- dict_get data "items" ;;
  h <- read_heap ;;
  if is_list h items then ret tt
  else append_flag "items_not_list" ;;;
       l <- alloc (PyList []) ;;
       setitem data "items" l.

Definition check_required_fields (required_fields : list string) (data : pyval) : M unit :=
  for_each required_fields (fun field =>
    v <- dict_get data field ;;
    h <- read_heap ;;
    if truthy h v then ret tt
    else append_flag ("missing_required_field: " +++ field)).

Definition _validate_lakeshore : pyval -> M unit :=
  check_required_fields ["vendor_name"; "invoice_number"; "invoice_date"].

Definition _validate_breakthru : pyval -> M unit :=
  check_required_fields ["vendor_name"; "invoice_number"; "customer_number"].

Definition _validate_southern_glazers : pyval -> M unit :=
  check_required_fields ["vendor_name"; "invoice_number"; "account_number"].

(** [''.join(filter(str.isdigit, s))] *)
Definition digits_only (s : string) : string :=
  seg_bytes (List.filter (fun seg => is_digit_cp (fst seg)) (utf8_segments s)).

Definition _is_valid_upc (upc : pyval) : M bool :=
  h <- read_heap ;;
  if negb (truthy h upc) then ret false
  else
    let digits := digits_only (py_str h upc) in
    let n := str_len digits in
    ret (Nat.eqb n 8 || Nat.eqb n 12)%bool.

Definition _clean_upc (upc : pyval) : M string :=
  h <- read_heap ;;
  if negb (truthy h upc) then ret EmptyString
  else ret (digits_only (py_str h upc)).

(** The body of the item loop of [_validate_business_rules]. *)
Definition check_item (i : nat) (item : pyval) : M unit :=
  upc <- dict_get item "upc" ;;
  h <- read_heap ;;
  (if truthy h upc then
     valid <- _is_valid_upc upc ;;
     if valid then ret tt
     else append_flag ("invalid_upc_format: item_" +++ str_nat i)
   else ret tt) ;;;
  qty <- py_or (py_or (dict_get item "qty") (dict_get item "bottles")) (dict_get item "cases") ;;
  if present qty then
    match py_float qty with
    | FloatOk qty_num =>
        if PrimFloat.ltb qty_num PrimFloat.zero
        then append_flag ("negative_quantity: item_" +++ str_nat i)
        else ret tt
    | FloatCaught => ret tt
    | FloatOverflow => raise (OverflowError overflow_msg)
    end
  else ret tt.

(** [tolerance = 0.01] *)
Definition tolerance : float := 0.01%float.

(** The body of the summing loop of [_validate_totals]. *)
Definition add_item_amount (calculated_total : float) (item : pyval) : M float :=
  extended_amount <- py_or (dict_get item "extended_amount") (dict_get item "net_amount") ;;
  if present extended_amount then
    match py_float extended_amount with
    | FloatOk a => ret (PrimFloat.add calculated_total a)
    | FloatCaught => ret calculated_total
    | FloatOverflow => raise (OverflowError overflow_msg)
    end
  else ret calculated_total.

(** [calculated_total] starts as the [int] [0]; [0 + x] and [0 - x]
    compute as [0.0 + x] and [0.0 - x] on floats. *)
Definition _validate_totals (data : pyval) : M unit :=
  items <- dict_get_opt data "items" ;;
  h <- read_heap ;;
  match items with
  | None => ret tt
  | Some items =>
      if negb (truthy h items) then ret tt
      else
        xs <- py_iter items ;;
        calculated_total <- fold_m xs add_item_amount PrimFloat.zero ;;
        invoice_total <- py_or (dict_get data "total_sales") (dict_get data "gross_total") ;;
        if present invoice_total then
          match py_float invoice_total with
          | FloatOk t =>
              if PrimFloat.ltb tolerance (PrimFloat.abs (PrimFloat.sub calculated_total t))
              then append_flag "totals_mismatch"
              else ret tt
          | FloatCaught => append_flag "invalid_invoice_total"
          | FloatOverflow => raise (OverflowError overflow_msg)
          end
        else ret tt
  end.

Definition _validate_business_rules (data : pyval) : M unit :=
  items <- dict_get_opt data "items" ;;
  h <- read_heap ;;
  match items with
  | None => ret tt
  | Some items =>
      if negb (truthy h items) then ret tt
      else
        xs <- py_iter items ;;
        for_each_i 0 xs check_item ;;;
        _validate_totals data
  end.

Definition numeric_fields : list string :=
  ["total_sales"; "total_discount"; "gross_total"; "net_amount";
   "pay_this_amount"; "total_bottles"; "total_liquor_gallons"; "total_beer_gallons"].

Definition numeric_item_fields : list string :=
  ["qty"; "bottles"; "cases"; "unit_price"; "discount";
   "extended_amount"; "net_amount"; "deposit"].

(** [if field in obj and obj[field] is not None and obj[field] != "None":
    try: obj[field] = float(obj[field]) except (ValueError, TypeError): ...]
    where the handler records a finding only for top-level fields. *)
Definition coerce_field (record_finding : bool) (obj : pyval) (field : string) : M unit :=
  has <- py_contains field obj ;;
  if has then
    v <- getitem obj field ;;
    if present v then
      match py_float v with
      | FloatOk f => setitem obj field (PyFloat f)
      | FloatCaught =>
          (if record_finding then append_flag ("invalid_numeric_field: " +++ field)
           else ret tt) ;;;
          setitem obj field PyNone
      | FloatOverflow => raise (OverflowError overflow_msg)
      end
    else ret tt
  else ret tt.

(** "Convert UPC to digits only" *)
Definition clean_item_upc (item : pyval) : M unit :=
  has <- py_contains "upc" item ;;
  if has then
    upc <- getitem item "upc" ;;
    h <- read_heap ;;
    if truthy h upc then
      cleaned <- _clean_upc upc ;;
      setitem item "upc" (PyStr cleaned)
    else ret tt
  else ret tt.

Definition _validate_data_types (data : pyval) : M pyval :=
  validated_data <- py_copy data ;;
  for_each numeric_fields (coerce_field true validated_data) ;;;
  items <- dict_get_opt validated_data "items" ;;
  (match items with
   | None => ret tt
   | Some items =>
       xs <- py_iter items ;;
       for_each xs (fun item =>
         clean_item_upc item ;;;
         for_each numeric_item_fields (coerce_field false item))
   end) ;;;
  ret validated_data.

(** [validate_invoice]: the flags are reset, the stages run in order, and
    an exception [e] is recorded as ["validation_error: " + str(e)] and
    re-raised. *)
Definition validate_invoice (data : pyval) (vendor : string) : M pyval :=
  fun st =>
    try_reraise
      (_validate_basic_structure data ;;;
       (if String.eqb vendor "lakeshore" then _validate_lakeshore data
        else if String.eqb vendor "breakthru" then _validate_breakthru data
        else if String.eqb vendor "southern_glazers" then _validate_southern_glazers data
        else ret tt) ;;;
       _validate_business_rules data ;;;
       _validate_data_types data)
      (fun e => append_flag ("validation_error: " +++ exc_str e))
      (mkState (heap_of st) []).

End Validator.

Import Validator.

(* ================================================================== *)
(** ** [Config.validate_file] and [InvoiceParser.parse_invoice] *)
(* ================================================================== *)

Module Parser.

Local Open Scope string_scope.

Record config : Type := mkConfig {
  supported_formats : list string;
  max_file_size_mb : Z
}.

(** [Config.__init__] with [MAX_FILE_SIZE_MB] unset. *)
Definition default_config : config :=
  mkConfig [".pdf"; ".png"; ".jpg"; ".jpeg"] 20%Z.

(** The file system as the code sees it: the [st_size] of each existing
    path, looked up by the text [str(Path(file_path))]. *)
Definition file_system : Type := string -> option Z.

Inductive file_error : Type :=
| FileNotFoundError
| UnsupportedFileFormat
| FileTooLarge.

(** [s.split('/')] *)
Fixpoint split_slash (s : string) : list string :=
  match s with
  | EmptyString => [EmptyString]
  | String c s' =>
      let rest := split_slash s' in
      if Ascii.eqb c "/" then EmptyString :: rest
      else match rest with
           | r :: rs => String c r :: rs
           | [] => [char c]
           end
  end.

(** The parts [PurePosixPath] keeps after its root: the pieces between
    slashes, without the empty ones and the ['.'] ones. *)
Definition path_parts (p : string) : list string :=
  List.filter (fun x => negb (String.eqb x EmptyString) && negb (String.eqb x "."))%bool
              (split_slash p).

(** The root: ['//'] for exactly two leading slashes, ['/'] for one or
    more than two, nothing for a relative path. *)
Definition path_root (p : string) : string :=
  if (startswith "//" p && negb (startswith "///" p))%bool then "//"
  else if startswith "/" p then "/"
  else EmptyString.

(** [str(Path(p))]: the root followed by the parts joined with ['/'],
    or ['.'] when both are empty. *)
Definition path_str (p : string) : string :=
  let r := path_root p in
  let parts := path_parts p in
  if (String.eqb r EmptyString && match parts with [] => true | _ => false end)%bool then "."
  else r +++ String.concat "/" parts.

(** [PurePath.name]: the last part, or [''] when there is none. *)
Definition path_name (p : string) : string := List.last (path_parts p) EmptyString.

(** [PurePath.suffix]: from the last dot of the name, unless the dot
    starts or ends the name. *)
Definition path_suffix (p : string) : string :=
  let name := path_name p in
  let i := rfind "." name in
  if (0 <? i)%Z && (i <? Z.of_nat (String.length name) - 1)%Z then drop (Z.to_nat i) name
  else EmptyString.

(** [validate_file]; [None] is [return True].  [path.exists()] and
    [path.stat()] look up [str(path)].  The size test
    [st_size / (1024 * 1024) > max_file_size_mb] is exact for sizes below
    2^53 bytes and is written on integers.  [.lower()] is applied to the
    bytes of the suffix: the only non-ASCII code point whose lower case
    is ASCII is the Kelvin sign, lowered to ['k'], which none of the
    supported formats contains. *)
Definition validate_file (cfg : config) (fs : file_system) (file_path : string)
  : option file_error :=
  match fs (path_str file_path) with
  | None => Some FileNotFoundError
  | Some size =>
      if negb (existsb (String.eqb (PyFloat.lower_str (path_suffix file_path)))
                       (supported_formats cfg))
      then Some UnsupportedFileFormat
      else if (max_file_size_mb cfg * 1048576 <? size)%Z then Some FileTooLarge
      else None
  end.

Definition supported_vendors : list string := ["lakeshore"; "breakthru"; "southern_glazers"].

(** The calls [parse_invoice] makes to its collaborators, in order. *)
Inductive event : Type :=
| EvProcessFile (file_path : string)
| EvModelCall (prompt : string).

Inductive parse_error : Type :=
| FileError (e : file_error)
| UnsupportedVendor (vendor : string)
| CollaboratorError
| ResponseError (e : response_error)
| ValidatorError (e : pyexc)
| PipelineError (e : pyexc).

(** The structure [json.loads] returns, built on the heap. *)
Fixpoint alloc_json (j : json) : M pyval :=
  match j with
  | JNull => ret PyNone
  | JBool b => ret (PyBool b)
  | JInt z => ret (PyInt z)
  | JFloat f => ret (PyFloat f)
  | JStr s => ret (PyStr s)
  | JArr xs =>
      vs <- (fix go (xs : list json) : M (list pyval) :=
               match xs with
               | [] => ret []
               | x :: xs' => v <- alloc_json x ;; vs <- go xs' ;; ret (v :: vs)
               end) xs ;;
      alloc (PyList vs)
  | JObj kvs =>
      vs <- (fix go (kvs : list (string * json)) : M (list (string * pyval)) :=
               match kvs with
               | [] => ret []
               | (k, x) :: kvs' => v <- alloc_json x ;; vs <- go kvs' ;; ret ((k, v) :: vs)
               end) kvs ;;
      alloc (PyDict vs)
  end.

(** [len(v)] *)
Definition py_len (v : pyval) : M nat :=
  h <- read_heap ;;
  match v with
  | PyStr s => ret (str_len s)
  | PyRef l => match h !! l with
               | Some (PyList xs) => ret (List.length xs)
               | Some (PyDict kvs) => ret (List.length kvs)
               | None => raise (TypeError ("object of type '" +++ type_name h v +++ "' has no len()"))
               end
  | _ => raise (TypeError ("object of type '" +++ type_name h v +++ "' has no len()"))
  end.

(** [lst.append(v)] *)
Definition list_append (lst : pyval) (v : pyval) : M unit :=
  fun st =>
    match lst with
    | PyRef l => match heap_of st !! l with
                 | Some (PyList xs) =>
                     (inl tt, mkState (<[l := PyList (xs ++ [v])]> (heap_of st))
                                      (validation_flags st))
                 | _ => (inr (AttributeError (no_attribute (heap_of st) lst "append")), st)
                 end
    | _ => (inr (AttributeError (no_attribute (heap_of st) lst "append")), st)
    end.

Definition get_flags : M (list string) := fun st => (inl (validation_flags st), st).

Section Pipeline.

(** The collaborators: [FileProcessor.process_file] and
    [OpenAIClient.parse_invoice] ([None] when they raise), the prompt
    texts of [Config.vendor_prompts], and the JSON decoder. *)
Variable image : Type.
Variable process_file : string -> option (list image).
Variable call_model : list image -> string -> option string.
Variable prompt_text : string -> string.
Variable loads : string -> option json.
Variable cfg : config.
Variable fs : file_system.

(** [Config.get_vendor_prompt]: [vendor_prompts] has the three keys. *)
Definition get_vendor_prompt (vendor : string) : option string :=
  if existsb (String.eqb vendor) supported_vendors then Some (prompt_text vendor) else None.

(** [parsed_data["meta"] = {...}]: the parsed response on the heap with
    its metadata block; a response that is not an object raises the
    [TypeError] of the assignment. *)
Definition attach_meta (file_path vendor : string) (parsed : json) : M pyval :=
  parsed_data <- alloc_json parsed ;;
  no_flags <- alloc (PyList []) ;;
  meta <- alloc (PyDict [("source_file", PyStr file_path); ("vendor_detected", PyStr vendor);
                         ("parse_confidence", PyFloat 0.95%float);
                         ("validation_flags", no_flags)]) ;;
  setitem parsed_data "meta" meta ;;;
  ret parsed_data.

(** [v is w] for a list stored by the flags step. *)
Definition same_ref (shared : option pyval) (v : pyval) : bool :=
  match shared, v with
  | Some (PyRef a), PyRef b => Pos.eqb a b
  | _, _ => false
  end.

(** Everything after the validator: the flags stored in the metadata and
    the barcode count check.  The code stores the validator's own list
    [self.validator.validation_flags] in the metadata.  That list is the
    state's [validation_flags] and, from the flags step on, also the heap
    list [shared]; the only later change to either, the append of the
    barcode warning, is made to both. *)
Definition after_validation (validated_data : pyval) : M pyval :=
  flags <- get_flags ;;
  shared <- (match flags with
             | [] => ret None
             | _ => m <- getitem validated_data "meta" ;;
                    fl <- alloc (PyList (map PyStr flags)) ;;
                    setitem m "validation_flags" fl ;;;
                    ret (Some fl)
             end) ;;
  items <- dict_get_opt validated_data "items" ;;
  items_count <- (match items with None => ret 0%nat | Some v => py_len v end) ;;
  barcodes <- dict_get_opt validated_data "barcode" ;;
  h <- read_heap ;;
  (match barcodes with
   | Some b =>
       if is_list h b then
         barcode_count <- py_len b ;;
         if (0 <? barcode_count)%nat && (items_count <? barcode_count)%nat then
           let warning_msg := "WARNING: Found " +++ str_nat barcode_count
                              +++ " barcodes but only " +++ str_nat items_count
                              +++ " items extracted. Possible missing items!" in
           m <- getitem validated_data "meta" ;;
           has <- py_contains "validation_flags" m ;;
           (if has then ret tt
            else e <- alloc (PyList []) ;; setitem m "validation_flags" e) ;;;
           fl <- getitem m "validation_flags" ;;
           list_append fl (PyStr warning_msg) ;;;
           (if same_ref shared fl then append_flag warning_msg else ret tt)
         else ret tt
       else ret tt
   | None => ret tt
   end) ;;;
  ret validated_data.

(** The three steps after the parsed response, as one computation. *)
Definition finish_parse (file_path vendor : string) (parsed : json) : M pyval :=
  parsed_data <- attach_meta file_path vendor parsed ;;
  validated_data <- validate_invoice parsed_data vendor ;;
  after_validation validated_data.

(** [InvoiceParser.parse_invoice]: the collaborator calls made, and the
    parsed record or the error raised. *)
Definition parse_invoice (file_path vendor : string) (st : vstate)
  : list event * (pyval + parse_error) * vstate :=
  match validate_file cfg fs file_path with
  | Some e => ([], inr (FileError e), st)
  | None =>
      if negb (existsb (String.eqb vendor) supported_vendors)
      then ([], inr (UnsupportedVendor vendor), st)
      else
        match process_file file_path with
        | None => ([EvProcessFile file_path], inr CollaboratorError, st)
        | Some images =>
            match get_vendor_prompt vendor with
            | None => ([EvProcessFile file_path], inr (UnsupportedVendor vendor), st)
            | Some prompt =>
                let trace := [EvProcessFile file_path; EvModelCall prompt] in
                match call_model images prompt with
                | None => (trace, inr CollaboratorError, st)
                | Some raw_response =>
                    match _parse_json_response loads raw_response with
                    | inr e => (trace, inr (ResponseError e), st)
                    | inl parsed =>
                        match attach_meta file_path vendor parsed st with
                        | (inr e, st1) => (trace, inr (PipelineError e), st1)
                        | (inl parsed_data, st1) =>
                            match validate_invoice parsed_data vendor st1 with
                            | (inr e, st2) => (trace, inr (ValidatorError e), st2)
                            | (inl validated_data, st2) =>
                                match after_validation validated_data st2 with
                                | (inr e, st3) => (trace, inr (PipelineError e), st3)
                                | (inl v, st3) => (trace, inl v, st3)
                                end
                            end
                        end
                    end
                end
            end
        end
  end.

End Pipeline.

End Parser.

Import Parser.

(* ================================================================== *)
(** ** The validator's findings read item by item *)
(* ================================================================== *)

(** Closed forms of what the validation loops compute, used to state
    the theorems below. *)
Module Reading.

Local Open Scope string_scope.

(** [d.get(k)] on a dict's entries. *)
Definition field (kvs : list (string * pyval)) (k : string) : pyval :=
  match dict_lookup k kvs with Some v => v | None => PyNone end.

(** [v1 or v2 or ... or vn]: the first truthy value, else the last. *)
Fixpoint first_truthy (h : heap) (vs : list pyval) : pyval :=
  match vs with
  | [] => PyNone
  | [v] => v
  | v :: rest => if truthy h v then v else first_truthy h rest
  end.

Definition upc_msg (i : nat) : string := "invalid_upc_format: item_" +++ str_nat i.

Definition neg_msg (i : nat) : string := "negative_quantity: item_" +++ str_nat i.

(** The UPC of an item is truthy and its digits number neither 8 nor 12. *)
Definition upc_invalid (h : heap) (kvs : list (string * pyval)) : bool :=
  let upc := field kvs "upc" in
  truthy h upc &&
  negb (let n := str_len (digits_only (py_str h upc)) in
        Nat.eqb n 8 || Nat.eqb n 12).

Definition item_qty (h : heap) (kvs : list (string * pyval)) : pyval :=
  first_truthy h [field kvs "qty"; field kvs "bottles"; field kvs "cases"].

(** The quantity is present and [float()] of it is negative. *)
Definition negative_qty (h : heap) (kvs : list (string * pyval)) : Prop :=
  present (item_qty h kvs) = true /\
  exists f, py_float (item_qty h kvs) = FloatOk f /\ PrimFloat.ltb f PrimFloat.zero = true.

Definition item_amount (h : heap) (kvs : list (string * pyval)) : pyval :=
  first_truthy h [field kvs "extended_amount"; field kvs "net_amount"].

(** The running total after one item: its amount is added when it is
    present and converts. *)
Definition add_amount (h : heap) (acc : float) (kvs : list (string * pyval)) : float :=
  let a := item_amount h kvs in
  if present a then
    match py_float a with
    | FloatOk x => PrimFloat.add acc x
    | _ => acc
    end
  else acc.

(** The binary64 sum of the item amounts, in item order from [0.0]. *)
Definition sum_amounts (h : heap) (items : list (list (string * pyval))) : float :=
  fold_left (add_amount h) items PrimFloat.zero.

Definition invoice_total (h : heap) (kvs : list (string * pyval)) : pyval :=
  first_truthy h [field kvs "total_sales"; field kvs "gross_total"].

(** The findings of the totals check on a non-empty item list. *)
Definition totals_findings (h : heap) (kvs : list (string * pyval))
    (items : list (list (string * pyval))) : list string :=
  let t := invoice_total h kvs in
  if present t then
    match py_float t with
    | FloatOk x =>
        if PrimFloat.ltb tolerance (PrimFloat.abs (PrimFloat.sub (sum_amounts h items) x))
        then ["totals_mismatch"] else []
    | FloatCaught => ["invalid_invoice_total"]
    | FloatOverflow => []
    end
  else [].

(** [it] is a reference to the dict with entries [kvs]. *)
Definition dict_at (h : heap) (it : pyval) (kvs : list (string * pyval)) : Prop :=
  exists l, it = PyRef l /\ h !! l = Some (PyDict kvs).

(** An item finding: item [k] of [xs] is the dict [kvs] and [s] is its
    UPC or quantity finding. *)
Definition item_finding (h : heap) (xs : list pyval) (s : string) : Prop :=
  exists k l kvs, nth_error xs k = Some (PyRef l) /\ h !! l = Some (PyDict kvs) /\
    ((s = upc_msg k /\ upc_invalid h kvs = true) \/ (s = neg_msg k /\ negative_qty h kvs)).

(** How the heap may change across the validator: objects are never
    removed, a list is never changed, and a dict keeps the value of every
    key outside [K]. *)
Definition obj_frame (K : list string) (o o' : pyobj) : Prop :=
  match o, o' with
  | PyList xs, PyList xs' => xs' = xs
  | PyDict kvs, PyDict kvs' => forall k, ~ In k K -> dict_lookup k kvs' = dict_lookup k kvs
  | _, _ => False
  end.

Definition frame (K : list string) (h h' : heap) : Prop :=
  forall l o, h !! l = Some o -> exists o', h' !! l = Some o' /\ obj_frame K o o'.

(** One run of a validator step: the heap changes within [frame K] and
    findings are only appended. *)
Definition step_ok (K : list string) (st st' : vstate) : Prop :=
  frame K (heap_of st) (heap_of st') /\
  exists ext, validation_flags st' = (validation_flags st ++ ext)%list.

Definition preserves (K : list string) {A} (m : M A) : Prop :=
  forall st y st', m st = (y, st') -> step_ok K st st'.

(** The finding the structure check records for one section. *)
Definition section_findings (kvs : list (string * pyval)) (sec : string) : list string :=
  match dict_lookup sec kvs with Some _ => [] | None => ["missing_section: " +++ sec] end.

(** The keys the validator writes after the structure check. *)
Definition coerced_keys : list string := "upc" :: numeric_fields ++ numeric_item_fields.

End Reading.

Import Reading.

(* ================================================================== *)
(** ** Example records *)
(* ================================================================== *)

(** Records as [json.loads] builds them, at fixed heap locations:
    location [1] is the invoice, [2] its item list, [3] onwards the items. *)
Module Examples.

Local Open Scope string_scope.

Definition invoice (kvs : list (string * pyval)) (items : list (list (string * pyval))) : heap :=
  let fix place (n : positive) (items : list (list (string * pyval))) : heap :=
    match items with
    | [] => empty
    | it :: rest => <[n := PyDict it]> (place (Pos.succ n) rest)
    end in
  let locs := map (fun n => PyRef (Pos.of_nat (3 + n))) (seq 0 (List.length items)) in
  <[1%positive := PyDict (("items", PyRef 2) :: kvs)]>
    (<[2%positive := PyList locs]> (place 3%positive items)).

(** One item with a dash-separated UPC, a quantity written as text and
    an amount of 100.00; the invoice total is 100.01. *)
Definition lakeshore_heap : heap :=
  invoice [("total_sales", PyFloat 100.01)]
          [[("upc", PyStr "1234-5678-9012"); ("qty", PyStr "2");
            ("extended_amount", PyFloat 100.0)]].

(** An invoice total of [100.01] against one item amount of [100.00]. *)
Definition cent_total_heap : heap :=
  invoice [("total_sales", PyFloat 100.01)] [[("extended_amount", PyFloat 100.0)]].

(** The same amounts written as text: a total of ["100.01"] against one
    item amount of ["100.00"]. *)
Definition cent_text_heap : heap :=
  invoice [("total_sales", PyStr "100.01")] [[("extended_amount", PyStr "100.00")]].

(** One item with [qty] 0 and [bottles] -5. *)
Definition zero_qty_heap : heap :=
  invoice [] [[("qty", PyInt 0); ("bottles", PyInt (-5))]].

(** Three items with the UPCs of the spec's boundary examples. *)
Definition upc_heap : heap :=
  invoice [] [[("upc", PyStr "123456789012")]; [("upc", PyStr "1234-5678-9012")];
              [("upc", PyStr "12345")]].

(** A record with no ["items"] key. *)
Definition no_items_heap : heap :=
  <[1%positive := PyDict [("vendor_name", PyStr "Lakeshore Beverage")]]> empty.

End Examples.

(* ================================================================== *)
(** ** [FileProcessor.process_file] and [InvoiceParser.batch_parse] *)
(* ================================================================== *)

Module FileProcessing.

Local Open Scope string_scope.

(** The two loaders [process_file] dispatches to. *)
Inductive file_route : Type :=
| RoutePdf
| RouteImage.

(** The dispatch of [FileProcessor.process_file] on
    [Path(file_path).suffix.lower()]; [None] is its
    [ValueError("Unsupported file format ...")]. *)
Definition process_file_route (file_path : string) : option file_route :=
  let suffix := PyFloat.lower_str (path_suffix file_path) in
  if String.eqb suffix ".pdf" then Some RoutePdf
  else if existsb (String.eqb suffix) [".png"; ".jpg"; ".jpeg"] then Some RouteImage
  else None.

Section Loaders.

(** [_process_pdf] (one image per page) and [Image.open] with its RGB
    conversion; [None] when they raise. *)
Variable image : Type.
Variable _process_pdf : string -> option (list image).
Variable open_image : string -> option image.

(** [FileProcessor.process_file]: [_process_image] returns [[img]]. *)
Definition process_file (file_path : string) : option (list image) :=
  match process_file_route file_path with
  | Some RoutePdf => _process_pdf (path_str file_path)
  | Some RouteImage => match open_image (path_str file_path) with
                       | Some img => Some [img]
                       | None => None
                       end
  | None => None
  end.

End Loaders.

End FileProcessing.

Import FileProcessing.

Module Batch.

Section BatchParse.

Variable image : Type.
Variable process_file : string -> option (list image).
Variable call_model : list image -> string -> option string.
Variable prompt_text : string -> string.
Variable loads : string -> option json.
Variable cfg : config.
Variable fs : file_system.

(** [InvoiceParser.batch_parse]: each file is parsed in turn on the state
    the previous one left; a file whose [parse_invoice] raises is logged
    and skipped.  The collaborator calls of all files are collected. *)
Fixpoint batch_parse (file_paths : list string) (vendor : string) (st : vstate)
  : list event * list pyval * vstate :=
  match file_paths with
  | [] => ([], [], st)
  | file_path :: rest =>
      let '(t1, r, st1) :=
        parse_invoice image process_file call_model prompt_text loads cfg fs file_path vendor st in
      let '(t2, results, st2) := batch_parse rest vendor st1 in
      ((t1 ++ t2)%list, match r with inl result => result :: results | inr _ => results end, st2)
  end.

End BatchParse.

End Batch.

Import Batch.

(* ================================================================== *)
(** ** What the validator records *)
(* ================================================================== *)

Module Findings.

Local Open Scope string_scope.

(** The required fields of the vendor checks [_validate_lakeshore],
    [_validate_breakthru] and [_validate_southern_glazers]; no check runs
    for any other vendor. *)
Definition vendor_required_fields (vendor : string) : list string :=
  if String.eqb vendor "lakeshore" then ["vendor_name"; "invoice_number"; "invoice_date"]
  else if String.eqb vendor "breakthru" then ["vendor_name"; "invoice_number"; "customer_number"]
  else if String.eqb vendor "southern_glazers" then ["vendor_name"; "invoice_number"; "account_number"]
  else [].

(** The findings a validation stage can append for [vendor]. *)
Definition validator_flag (vendor : string) (s : string) : Prop :=
  (exists sec, In sec required_sections /\ s = "missing_section: " +++ sec) \/
  s = "items_not_list" \/
  (exists f, In f (vendor_required_fields vendor) /\ s = "missing_required_field: " +++ f) \/
  (exists i, s = upc_msg i) \/
  (exists i, s = neg_msg i) \/
  s = "totals_mismatch" \/
  s = "invalid_invoice_total" \/
  (exists f, In f numeric_fields /\ s = "invalid_numeric_field: " +++ f).

(** A computation appends findings satisfying [P] and removes none. *)
Definition emits (P : string -> Prop) {A} (m : M A) : Prop :=
  forall st y st', m st = (y, st') ->
    exists ext, validation_flags st' = (validation_flags st ++ ext)%list /\ Forall P ext.

(** [missing_required_field] findings of [check_required_fields]. *)
Definition missing_fields (h : heap) (kvs : list (string * pyval)) (fields : list string)
  : list string :=
  map (fun f => "missing_required_field: " +++ f)
      (List.filter (fun f => negb (truthy h (field kvs f))) fields).

End Findings.

Import Findings.

(* ================================================================== *)
(** ** What the end of [parse_invoice] keeps *)
(* ================================================================== *)

Module DictFrames.

(** Every dict stays a dict and keeps its entries outside [K]; lists and
    new objects are unconstrained. *)
Definition dict_frame (K : list string) (h h' : heap) : Prop :=
  forall l kvs, h !! l = Some (PyDict kvs) ->
    exists kvs', h' !! l = Some (PyDict kvs') /\
      forall k, ~ In k K -> dict_lookup k kvs' = dict_lookup k kvs.

Definition keeps_dicts (K : list string) {A} (m : M A) : Prop :=
  forall st y st', m st = (y, st') -> dict_frame K (heap_of st) (heap_of st').

(** Every normal return of [m] satisfies [Q]. *)
Definition returns {A} (Q : A -> Prop) (m : M A) : Prop :=
  forall st z st', m st = (inl z, st') -> Q z.

(** [m] changes neither the heap nor the findings. *)
Definition readonly {A} (m : M A) : Prop :=
  forall st y st', m st = (y, st') -> st' = st.

(** A top-level numeric field after [_validate_data_types]: absent,
    [None], the string ["None"] or a float. *)
Definition numeric_ok (v : option pyval) : bool :=
  match v with
  | None => true
  | Some PyNone => true
  | Some (PyStr s) => String.eqb s "None"
  | Some (PyFloat _) => true
  | Some _ => false
  end.

(** Whatever [m] does, a dict whose entry [f] is [numeric_ok] stays a
    dict whose entry [f] is [numeric_ok]. *)
Definition keeps_numeric (f : string) {A} (m : M A) : Prop :=
  forall st y st' l kvs, m st = (y, st') ->
    heap_of st !! l = Some (PyDict kvs) -> numeric_ok (dict_lookup f kvs) = true ->
    exists kvs', heap_of st' !! l = Some (PyDict kvs') /\ numeric_ok (dict_lookup f kvs') = true.

End DictFrames.

Import DictFrames.

(** Predicates on UTF-8 text used by the proofs: text that is empty or
    starts with an ASCII byte, and a well-formed segment, one the decoder
    reads back alone and so also in front of any text. *)
Definition ascii_start (t : string) : Prop :=
  match t with EmptyString => True | String b _ => byte_val b < 128 end.

Definition seg_wf (seg : Z * string) : Prop :=
  0 <= fst seg /\ utf8_segments (snd seg) = [seg].

(* ================================================================== *)
(** * Theorems *)
(* ================================================================== *)

(** ** Lemmas on the string primitives *)

(** *** Code points *)

Lemma string_append_cons d a b : String d a +++ b = String d (a +++ b).
Proof. reflexivity. Qed.

Lemma string_append_nil_l b : EmptyString +++ b = b.
Proof. reflexivity. Qed.

Lemma ascii_start_not_cont b t : ascii_start (String b t) -> is_cont b = false.
Proof. simpl. unfold is_cont. intros H. apply andb_false_iff. left. apply Z.leb_gt. exact H. Qed.

Ltac u8_app_tail IH' s' :=
  cbn [app]; f_equal; rewrite <- (IH' s') by (cbn [String.length]; lia); reflexivity.

Lemma utf8_segments_app s t :
  ascii_start t -> utf8_segments (s +++ t) = (utf8_segments s ++ utf8_segments t)%list.
Proof.
  intros Ht. remember (String.length s) as n eqn:En. revert s En.
  induction n as [n IH] using (well_founded_induction lt_wf). intros s En.
  assert (IH' : forall s', (String.length s' < n)%nat -> utf8_segments (s' +++ t) = (utf8_segments s' ++ utf8_segments t)%list)
    by (intros s' Hs'; exact (IH _ Hs' s' eq_refl)). clear IH.
  destruct s as [|a s1]; [reflexivity|].
  rewrite string_append_cons. subst n. cbn [String.length] in IH'.
  cbn [utf8_segments]. cbv zeta.
  destruct (byte_val a <? 128); [u8_app_tail IH' s1|].
  destruct (byte_val a <? 192); [u8_app_tail IH' s1|].
  destruct s1 as [|b s2].
  { rewrite string_append_nil_l. destruct t as [|b t']; [cbn [app]; rewrite app_nil_r; reflexivity|].
    rewrite (ascii_start_not_cont _ _ Ht). reflexivity. }
  rewrite string_append_cons.
  destruct (is_cont b) eqn:Eb; cbn [negb]; [|u8_app_tail IH' (String b s2)].
  destruct (byte_val a <? 224); [u8_app_tail IH' s2|].
  destruct s2 as [|c s3].
  { rewrite string_append_nil_l. destruct t as [|c t']; [cbn [app]; rewrite app_nil_r; reflexivity|].
    rewrite (ascii_start_not_cont _ _ Ht). u8_app_tail IH' (String b EmptyString). }
  rewrite string_append_cons.
  destruct (is_cont c) eqn:Ec; cbn [negb]; [|u8_app_tail IH' (String b (String c s3))].
  destruct (byte_val a <? 240); [u8_app_tail IH' s3|].
  destruct s3 as [|d s4].
  { rewrite string_append_nil_l. destruct t as [|d t']; [cbn [app]; rewrite app_nil_r; reflexivity|].
    rewrite (ascii_start_not_cont _ _ Ht). u8_app_tail IH' (String b (String c EmptyString)). }
  rewrite string_append_cons.
  destruct (is_cont d && (byte_val a <? 248))%bool; [u8_app_tail IH' s4|].
  u8_app_tail IH' (String b (String c (String d s4))).
Qed.

Lemma utf8_segments_ascii a s :
  byte_val a < 128 -> utf8_segments (String a s) = (byte_val a, char a) :: utf8_segments s.
Proof. intros H. cbn [utf8_segments]. cbv zeta. rewrite (proj2 (Z.ltb_lt _ _) H). reflexivity. Qed.

Lemma seg_bytes_app l1 l2 : seg_bytes (l1 ++ l2) = seg_bytes l1 +++ seg_bytes l2.
Proof.
  induction l1 as [|[cp b] l1 IH]; [reflexivity|].
  cbn [app seg_bytes fold_right snd]. unfold seg_bytes in *. rewrite IH.
  induction b as [|c b IHb]; [reflexivity|]. rewrite !string_append_cons, IHb. reflexivity.
Qed.

Ltac u8_bytes_tail IH' s' :=
  cbn [seg_bytes fold_right snd]; unfold seg_bytes in IH';
  rewrite (IH' s') by (cbn [String.length]; lia); reflexivity.

Lemma seg_bytes_utf8_segments s : seg_bytes (utf8_segments s) = s.
Proof.
  remember (String.length s) as n eqn:En. revert s En.
  induction n as [n IH] using (well_founded_induction lt_wf). intros s En.
  assert (IH' : forall s', (String.length s' < n)%nat -> seg_bytes (utf8_segments s') = s')
    by (intros s' Hs'; exact (IH _ Hs' s' eq_refl)). clear IH.
  destruct s as [|a s1]; [reflexivity|]. subst n. cbn [String.length] in IH'.
  cbn [utf8_segments]. cbv zeta.
  destruct (byte_val a <? 128); [u8_bytes_tail IH' s1|].
  destruct (byte_val a <? 192); [u8_bytes_tail IH' s1|].
  destruct s1 as [|b s2]; [reflexivity|].
  destruct (is_cont b); cbn [negb]; [|u8_bytes_tail IH' (String b s2)].
  destruct (byte_val a <? 224); [u8_bytes_tail IH' s2|].
  destruct s2 as [|c s3]; [u8_bytes_tail IH' (String b EmptyString)|].
  destruct (is_cont c); cbn [negb]; [|u8_bytes_tail IH' (String b (String c s3))].
  destruct (byte_val a <? 240); [u8_bytes_tail IH' s3|].
  destruct s3 as [|d s4]; [u8_bytes_tail IH' (String b (String c EmptyString))|].
  destruct (is_cont d && (byte_val a <? 248))%bool; [u8_bytes_tail IH' s4|].
  u8_bytes_tail IH' (String b (String c (String d s4))).
Qed.

Lemma is_cont_ge b : is_cont b = true -> 128 <= byte_val b.
Proof. unfold is_cont. intros H. apply andb_prop in H as [H _]. apply Z.leb_le, H. Qed.

Lemma byte_val_nonneg b : 0 <= byte_val b.
Proof. unfold byte_val. lia. Qed.

Ltac byte_facts :=
  repeat match goal with
  | H : (_ <? _) = true |- _ => apply Z.ltb_lt in H
  | H : (_ <? _) = false |- _ => apply Z.ltb_ge in H
  | H : is_cont ?b = true |- _ => apply is_cont_ge in H
  end;
  repeat match goal with
  | b : ascii |- _ => lazymatch goal with
                     | _ : 0 <= byte_val b |- _ => fail
                     | _ => pose proof (byte_val_nonneg b)
                     end
  end.

Ltac u8_wf_tail IH' s' := constructor; [|apply IH'; cbn [String.length]; lia].

Ltac u8_wf_invalid := left; cbn; lia.

Ltac u8_wf_valid := right; split;
  [cbn [fst]; byte_facts; lia
  |cbn [snd]; unfold char; cbn [utf8_segments]; cbv zeta;
   repeat match goal with H : ?c = _ |- context [?c] => rewrite H end; reflexivity].

Lemma utf8_segments_wf s : Forall (fun seg => fst seg < 0 \/ seg_wf seg) (utf8_segments s).
Proof.
  remember (String.length s) as n eqn:En. revert s En.
  induction n as [n IH] using (well_founded_induction lt_wf). intros s En.
  assert (IH' : forall s', (String.length s' < n)%nat ->
            Forall (fun seg => fst seg < 0 \/ seg_wf seg) (utf8_segments s'))
    by (intros s' Hs'; exact (IH _ Hs' s' eq_refl)). clear IH.
  destruct s as [|a s1]; [constructor|]. subst n. cbn [String.length] in IH'.
  cbn [utf8_segments]. cbv zeta.
  destruct (byte_val a <? 128) eqn:E1; [u8_wf_tail IH' s1; u8_wf_valid|].
  destruct (byte_val a <? 192) eqn:E2; [u8_wf_tail IH' s1; u8_wf_invalid|].
  destruct s1 as [|b s2]; [u8_wf_tail IH' (@EmptyString); u8_wf_invalid|].
  destruct (is_cont b) eqn:Eb; cbn [negb]; [|u8_wf_tail IH' (String b s2); u8_wf_invalid].
  destruct (byte_val a <? 224) eqn:E3; [u8_wf_tail IH' s2; u8_wf_valid|].
  destruct s2 as [|c s3]; [u8_wf_tail IH' (String b EmptyString); u8_wf_invalid|].
  destruct (is_cont c) eqn:Ec; cbn [negb]; [|u8_wf_tail IH' (String b (String c s3)); u8_wf_invalid].
  destruct (byte_val a <? 240) eqn:E4; [u8_wf_tail IH' s3; u8_wf_valid|].
  destruct s3 as [|d s4]; [u8_wf_tail IH' (String b (String c EmptyString)); u8_wf_invalid|].
  destruct (is_cont d && (byte_val a <? 248))%bool eqn:E5;
    [u8_wf_tail IH' s4|u8_wf_tail IH' (String b (String c (String d s4))); u8_wf_invalid].
  apply andb_prop in E5 as [Ed E5]. u8_wf_valid.
Qed.

Ltac u8_seg_case := intros H; inversion H; subst; (lia || reflexivity).

Lemma utf8_segments_wf_app seg r :
  seg_wf seg -> utf8_segments (snd seg +++ r) = seg :: utf8_segments r.
Proof.
  destruct seg as [cp b]. unfold seg_wf. cbn [fst snd]. intros [Hcp H].
  destruct b as [|a b1]; [discriminate H|]. rewrite string_append_cons. revert H.
  cbn [utf8_segments]. cbv zeta.
  destruct (byte_val a <? 128); [u8_seg_case|].
  destruct (byte_val a <? 192); [u8_seg_case|].
  destruct b1 as [|b s2]; [u8_seg_case|]. rewrite string_append_cons.
  destruct (is_cont b); cbn [negb]; [|u8_seg_case].
  destruct (byte_val a <? 224); [u8_seg_case|].
  destruct s2 as [|c s3]; [u8_seg_case|]. rewrite string_append_cons.
  destruct (is_cont c); cbn [negb]; [|u8_seg_case].
  destruct (byte_val a <? 240); [u8_seg_case|].
  destruct s3 as [|d s4]; [u8_seg_case|]. rewrite string_append_cons.
  destruct (is_cont d && (byte_val a <? 248))%bool; u8_seg_case.
Qed.

Lemma utf8_segments_seg_bytes l :
  Forall seg_wf l -> utf8_segments (seg_bytes l) = l.
Proof.
  induction 1 as [|seg l Hs Hl IH]; [reflexivity|].
  cbn [seg_bytes fold_right]. change (fold_right _ _ l) with (seg_bytes l).
  rewrite (utf8_segments_wf_app _ _ Hs), IH. reflexivity.
Qed.

Lemma in_ranges_ge rs lo cp :
  Forall (fun r => lo <= fst r) rs -> in_ranges rs cp = true -> lo <= cp.
Proof.
  unfold in_ranges. intros Hall H. apply existsb_exists in H as [r [Hr Hc]].
  rewrite List.Forall_forall in Hall. specialize (Hall r Hr).
  apply andb_prop in Hc as [Hc _]. apply Z.leb_le in Hc. lia.
Qed.

Lemma is_digit_cp_ge cp : is_digit_cp cp = true -> 48 <= cp.
Proof. apply in_ranges_ge. unfold digit_ranges. repeat constructor; cbn; lia. Qed.

Lemma digits_only_segments s :
  utf8_segments (digits_only s) = List.filter (fun seg => is_digit_cp (fst seg)) (utf8_segments s).
Proof.
  unfold digits_only. apply utf8_segments_seg_bytes.
  apply List.Forall_forall. intros seg Hin. apply filter_In in Hin as [Hin Hd].
  pose proof (proj1 (List.Forall_forall _ _) (utf8_segments_wf s) seg Hin) as [Hn|Hw]; [|exact Hw].
  apply is_digit_cp_ge in Hd. lia.
Qed.

Lemma filter_filter_idem {A} (f : A -> bool) (l : list A) :
  List.filter f (List.filter f l) = List.filter f l.
Proof.
  induction l as [|x l IH]; [reflexivity|]. cbn.
  destruct (f x) eqn:E; cbn; [rewrite E, IH|exact IH]; reflexivity.
Qed.

(** [s.strip()] keeps a text whose first and last characters are ASCII
    and not whitespace. *)
Lemma strip_keep_ends a m z :
  byte_val a < 128 -> is_space_cp (byte_val a) = false ->
  byte_val z < 128 -> is_space_cp (byte_val z) = false ->
  strip (String a (m +++ char z)) = String a (m +++ char z).
Proof.
  intros Ha Has Hz Hzs. unfold strip.
  assert (Hs : utf8_segments (String a (m +++ char z)) =
               (byte_val a, char a) :: (utf8_segments m ++ [(byte_val z, char z)])).
  { rewrite utf8_segments_ascii by exact Ha. f_equal.
    rewrite utf8_segments_app by exact Hz. unfold char at 1.
    rewrite (utf8_segments_ascii z EmptyString Hz). reflexivity. }
  rewrite Hs. cbn [drop_space_segments fst]. rewrite Has.
  rewrite app_comm_cons, rev_app_distr. cbn [rev app drop_space_segments fst]. rewrite Hzs.
  replace (rev ((byte_val z, char z) :: rev (utf8_segments m) ++ [(byte_val a, char a)]))
    with (utf8_segments (String a (m +++ char z))); [apply seg_bytes_utf8_segments|].
  rewrite Hs. cbn [rev]. rewrite rev_app_distr, rev_involutive. reflexivity.
Qed.

(** *** Counting and slicing *)

Lemma count_append c a b : count c (a +++ b) = (count c a + count c b)%nat.
Proof. induction a as [|d a IH]; simpl; [reflexivity|]. rewrite IH. lia. Qed.

Lemma count_repeat_char c d n :
  count c (repeat_char d n) = if Ascii.eqb c d then n else 0%nat.
Proof.
  induction n as [|n IH]; simpl; [destruct (Ascii.eqb c d); reflexivity|].
  rewrite IH. destruct (Ascii.eqb c d); lia.
Qed.

Lemma count_rev_str c s acc : count c (rev_str s acc) = (count c s + count c acc)%nat.
Proof.
  revert acc. induction s as [|d s IH]; intros acc; simpl; [reflexivity|].
  rewrite IH. simpl. lia.
Qed.

Lemma count_rstrip_by c p s :
  p c = false -> count c (rstrip_by p s) = count c s.
Proof.
  intros Hc. unfold rstrip_by.
  assert (Hgo : forall r, count c ((fix go (r : string) : string :=
            match r with
            | EmptyString => EmptyString
            | String c r' => if p c then go r' else r
            end) r) = count c r).
  { induction r as [|d r IH]; simpl; [reflexivity|].
    destruct (p d) eqn:Hd; [|reflexivity].
    rewrite IH. destruct (Ascii.eqb c d) eqn:E; [|reflexivity].
    apply Ascii.eqb_eq in E. subst. congruence. }
  rewrite count_rev_str, Hgo, count_rev_str. simpl. lia.
Qed.

Lemma length_append a b : String.length (a +++ b) = (String.length a + String.length b)%nat.
Proof. induction a as [|d a IH]; simpl; [reflexivity|]. rewrite IH. reflexivity. Qed.

Lemma drop_append_length a b : drop (String.length a) (a +++ b) = b.
Proof. induction a as [|d a IH]; simpl; [destruct b; reflexivity | exact IH]. Qed.

Lemma endswith_append_char a c : endswith (char c) (a +++ char c) = true.
Proof.
  unfold endswith. rewrite length_append. simpl.
  replace (String.length a + 1 - 1)%nat with (String.length a) by lia.
  rewrite drop_append_length, String.eqb_refl, andb_true_r.
  rewrite Nat.add_1_r. reflexivity.
Qed.

(** ** The response repair engine *)

(** The repaired path checks the top-level shape: whatever it returns
    after a failed direct parse is an object. *)
Lemma parse_json_response_repaired_is_object (loads : string -> option json) raw v :
  loads (clean_markdown raw) = None ->
  _parse_json_response loads raw = inl v ->
  exists kvs, v = JObj kvs.
Proof.
  unfold _parse_json_response. intros Hd. rewrite Hd.
  destruct (loads (Repair._fix_json_response (clean_markdown raw))) as [p|]; [|discriminate].
  destruct p; try discriminate. intros H. injection H as <-. eauto.
Qed.

(** C1: when the markdown-stripped text parses, [_parse_json_response]
    returns the parsed structure itself; [_fix_json_response] is never
    consulted.  The decoder [loads] is arbitrary. *)
Theorem parse_json_response_valid_no_repair
    (loads : string -> option json) (raw : string) (v : json) :
  loads (clean_markdown raw) = Some v ->
  _parse_json_response loads raw = inl v.
Proof. intros H. unfold _parse_json_response. rewrite H. reflexivity. Qed.

Lemma parse_json_response_valid_no_repair_witness :
  let raw := "```json" +++ char (ascii_of_nat 10) +++ "{" +++ dq +++ "note" +++ dq
             +++ ": " +++ dq +++ "a {b" +++ dq +++ "}" +++ char (ascii_of_nat 10) +++ "```" in
  Repair._fix_json_response (clean_markdown raw) <> clean_markdown raw /\
  json_loads (clean_markdown raw) = Some (JObj [("note"%string, JStr "a {b")]) /\
  _parse_json_response json_loads raw = inl (JObj [("note"%string, JStr "a {b")]).
Proof.
  intros raw. split; [vm_compute; discriminate|]. split; [vm_compute; reflexivity|].
  apply parse_json_response_valid_no_repair. vm_compute. reflexivity.
Defined.

(** C2: the truncated text [{"items": [{"a":1},{"b":2},{"c":] is
    repaired to an object whose items are exactly the first two objects. *)
Theorem parse_json_response_truncated_items :
  _parse_json_response json_loads
    ("{" +++ Repair.items_key +++ "{" +++ dq +++ "a" +++ dq +++ ":1},{" +++ dq +++ "b"
     +++ dq +++ ":2},{" +++ dq +++ "c" +++ dq +++ ":")
  = inl (JObj [("items"%string,
                JArr [JObj [("a"%string, JInt 1)]; JObj [("b"%string, JInt 2)]])]).
Proof. vm_compute. reflexivity. Qed.

(** C3, as stated: the text handed to the second parse is not balanced
    in general.  For the input [}], which does not parse, nothing is
    appended and the text keeps its surplus closing brace. *)
Lemma fix_json_response_unbalanced :
  ~ (forall raw, json_loads (clean_markdown raw) = None ->
       let r := Repair._fix_json_response (clean_markdown raw) in
       count "{" r = count "}" r /\ count "[" r = count "]" r).
Proof.
  intros H. specialize (H "}"%string ltac:(vm_compute; reflexivity)).
  vm_compute in H. destruct H as [H _]. discriminate H.
Qed.

Lemma close_brackets_le s :
  (count "[" (Repair.close_brackets s) <= count "]" (Repair.close_brackets s))%nat.
Proof.
  unfold Repair.close_brackets.
  destruct (Nat.ltb (count "]" s) (count "[" s)) eqn:E.
  - apply Nat.ltb_lt in E.
    rewrite !count_append, !count_repeat_char. simpl. lia.
  - apply Nat.ltb_ge in E. exact E.
Qed.

(** C3, amended: the repaired text never has more ['['] than [']'], and it
    ends with ['}']. *)
Theorem fix_json_response_closes_arrays (response : string) :
  let r := Repair._fix_json_response response in
  (count "[" r <= count "]" r)%nat /\ endswith "}" r = true.
Proof.
  cbv zeta. unfold Repair._fix_json_response, Repair.ensure_object_end.
  set (x := Repair.close_brackets _).
  assert (Hx : (count "[" x <= count "]" x)%nat) by apply close_brackets_le.
  destruct (endswith "}" x) eqn:E; [split; [exact Hx | exact E]|].
  split.
  - rewrite !count_append, !count_rstrip_by by reflexivity. simpl. lia.
  - apply (endswith_append_char _ "}").
Qed.

(** C4: a top-level JSON array that parses directly is returned as it is;
    the object check guards only the repaired path. *)
Theorem parse_json_response_top_level_array :
  _parse_json_response json_loads "[1, 2]" = inl (JArr [JInt 1; JInt 2]).
Proof. vm_compute. reflexivity. Qed.

(** ** Lemmas on the validator monad *)

Section MonadLemmas.

Local Open Scope string_scope.

Lemma bind_ok {A B} (m : M A) (k : A -> M B) st x st' :
  m st = (inl x, st') -> bind m k st = k x st'.
Proof. intros H. unfold bind. rewrite H. reflexivity. Qed.

Lemma bind_err {A B} (m : M A) (k : A -> M B) st e st' :
  m st = (inr e, st') -> bind m k st = (inr e, st').
Proof. intros H. unfold bind. rewrite H. reflexivity. Qed.

Lemma bind_inv {A B} (m : M A) (k : A -> M B) st y st'' :
  bind m k st = (y, st'') ->
  (exists x st', m st = (inl x, st') /\ k x st' = (y, st'')) \/
  (exists e, m st = (inr e, st'') /\ y = inr e).
Proof.
  unfold bind. destruct (m st) as [[x|e] st'] eqn:E; intros H.
  - left. eauto.
  - right. injection H as <- <-. eauto.
Qed.

Lemma dict_get_dict st l kvs k :
  heap_of st !! l = Some (PyDict kvs) ->
  dict_get (PyRef l) k st = (inl (field kvs k), st).
Proof. intros H. unfold dict_get, bind, read_heap. simpl. rewrite H. reflexivity. Qed.

Lemma dict_get_opt_dict st l kvs k :
  heap_of st !! l = Some (PyDict kvs) ->
  dict_get_opt (PyRef l) k st = (inl (dict_lookup k kvs), st).
Proof. intros H. unfold dict_get_opt, bind, read_heap. simpl. rewrite H. reflexivity. Qed.

Lemma dict_get_not_dict st v k :
  (forall kvs, ~ dict_at (heap_of st) v kvs) ->
  dict_get v k st = (inr (AttributeError (no_attribute (heap_of st) v "get")), st).
Proof.
  intros H. unfold dict_get, bind, read_heap. simpl.
  destruct v as [| | | | |l]; try reflexivity.
  destruct (heap_of st !! l) as [[kvs|xs]|] eqn:E; try reflexivity.
  exfalso. apply (H kvs). exists l. auto.
Qed.

Lemma py_or_ok (a b : M pyval) st x :
  a st = (inl x, st) ->
  py_or a b st = if truthy (heap_of st) x then (inl x, st) else b st.
Proof.
  intros H. unfold py_or. rewrite (bind_ok _ _ _ _ _ H).
  unfold bind, read_heap. simpl. destruct (truthy (heap_of st) x); reflexivity.
Qed.

Lemma item_qty_get st l kvs :
  heap_of st !! l = Some (PyDict kvs) ->
  py_or (py_or (dict_get (PyRef l) "qty") (dict_get (PyRef l) "bottles"))
        (dict_get (PyRef l) "cases") st
  = (inl (item_qty (heap_of st) kvs), st).
Proof.
  intros H. unfold item_qty. simpl.
  rewrite (py_or_ok _ _ st (if truthy (heap_of st) (field kvs "qty") then field kvs "qty"
                            else field kvs "bottles")).
  - rewrite (dict_get_dict _ _ _ _ H).
    destruct (truthy (heap_of st) (field kvs "qty")) eqn:Eq; [rewrite Eq; reflexivity|].
    destruct (truthy (heap_of st) (field kvs "bottles")); reflexivity.
  - rewrite (py_or_ok _ _ st (field kvs "qty")) by apply (dict_get_dict _ _ _ _ H).
    destruct (truthy (heap_of st) (field kvs "qty")); [reflexivity|].
    apply (dict_get_dict _ _ _ _ H).
Qed.

Lemma item_amount_get st l kvs :
  heap_of st !! l = Some (PyDict kvs) ->
  py_or (dict_get (PyRef l) "extended_amount") (dict_get (PyRef l) "net_amount") st
  = (inl (item_amount (heap_of st) kvs), st).
Proof.
  intros H. unfold item_amount. simpl.
  rewrite (py_or_ok _ _ st (field kvs "extended_amount")) by apply (dict_get_dict _ _ _ _ H).
  destruct (truthy (heap_of st) (field kvs "extended_amount")); [reflexivity|].
  apply (dict_get_dict _ _ _ _ H).
Qed.

Lemma invoice_total_get st l kvs :
  heap_of st !! l = Some (PyDict kvs) ->
  py_or (dict_get (PyRef l) "total_sales") (dict_get (PyRef l) "gross_total") st
  = (inl (invoice_total (heap_of st) kvs), st).
Proof.
  intros H. unfold invoice_total. simpl.
  rewrite (py_or_ok _ _ st (field kvs "total_sales")) by apply (dict_get_dict _ _ _ _ H).
  destruct (truthy (heap_of st) (field kvs "total_sales")); [reflexivity|].
  apply (dict_get_dict _ _ _ _ H).
Qed.

End MonadLemmas.

Section CheckItem.

Lemma is_valid_upc_truthy st upc :
  truthy (heap_of st) upc = true ->
  _is_valid_upc upc st =
    (inl (let n := str_len (digits_only (py_str (heap_of st) upc)) in
          Nat.eqb n 8 || Nat.eqb n 12), st).
Proof. intros H. unfold _is_valid_upc, bind, read_heap. simpl. rewrite H. reflexivity. Qed.

Lemma check_item_eq i st l kvs :
  heap_of st !! l = Some (PyDict kvs) ->
  check_item i (PyRef l) st =
    (let h := heap_of st in
     let fl1 := validation_flags st ++ (if upc_invalid h kvs then [upc_msg i] else []) in
     let q := item_qty h kvs in
     if present q then
       match py_float q with
       | FloatOk f =>
           (inl tt, mkState h (fl1 ++ if PrimFloat.ltb f PrimFloat.zero then [neg_msg i] else []))
       | FloatCaught => (inl tt, mkState h fl1)
       | FloatOverflow => (inr (OverflowError overflow_msg), mkState h fl1)
       end
     else (inl tt, mkState h fl1)).
Proof.
  intros H. unfold check_item.
  rewrite (bind_ok _ _ _ _ _ (dict_get_dict _ _ _ "upc"%string H)). cbv beta.
  rewrite (bind_ok _ _ st (heap_of st) st) by reflexivity. cbv beta.
  set (upc := field kvs "upc"%string).
  set (rest := fun _ : unit => qty <- _ ;; _).
  assert (Hupc : (if truthy (heap_of st) upc then
                    valid <- _is_valid_upc upc ;;
                    (if valid then ret tt else append_flag (upc_msg i))
                  else ret tt) st
                 = (inl tt, mkState (heap_of st)
                      (validation_flags st ++ (if upc_invalid (heap_of st) kvs then [upc_msg i] else [])))).
  { unfold upc_invalid. fold upc.
    destruct (truthy (heap_of st) upc) eqn:Et; simpl.
    - rewrite (bind_ok _ _ _ _ _ (is_valid_upc_truthy _ _ Et)). cbv beta.
      destruct (_ || _)%bool; simpl; [|reflexivity].
      unfold ret. rewrite app_nil_r. destruct st; reflexivity.
    - unfold ret. rewrite app_nil_r. destruct st; reflexivity. }
  unfold upc_msg in Hupc. rewrite (bind_ok _ _ _ _ _ Hupc). unfold rest. cbv beta.
  set (st1 := mkState _ _).
  assert (H1 : heap_of st1 !! l = Some (PyDict kvs)) by exact H.
  rewrite (bind_ok _ _ _ _ _ (item_qty_get _ _ _ H1)). cbv beta.
  change (heap_of st1) with (heap_of st). cbv zeta.
  destruct (present (item_qty (heap_of st) kvs)); [|reflexivity].
  destruct (py_float (item_qty (heap_of st) kvs)) as [f| |]; try reflexivity.
  destruct (PrimFloat.ltb f PrimFloat.zero); [reflexivity|].
  unfold ret. rewrite app_nil_r. reflexivity.
Qed.

End CheckItem.

Section ItemLoop.

Lemma check_item_not_dict i st it :
  (forall kvs, ~ dict_at (heap_of st) it kvs) ->
  check_item i it st = (inr (AttributeError (no_attribute (heap_of st) it "get")), st).
Proof.
  intros H. unfold check_item. apply (bind_err _ _ _ _ _ (dict_get_not_dict _ _ _ H)).
Qed.

(** An item that the loop gets past is a dict. *)
Lemma check_item_ok_dict i st it u st1 :
  check_item i it st = (inl u, st1) -> exists kvs, dict_at (heap_of st) it kvs.
Proof.
  intros H.
  destruct it as [| | | | |l];
    try (rewrite check_item_not_dict in H; [discriminate|intros kvs [l' [E _]]; discriminate]).
  destruct (heap_of st !! l) as [[kvs|ys]|] eqn:E; [exists kvs, l; auto| |];
    (rewrite check_item_not_dict in H; [discriminate|]);
    intros kvs [l' [E1 E2]]; injection E1 as <-; congruence.
Qed.

Lemma check_item_ok i st l kvs u st1 :
  heap_of st !! l = Some (PyDict kvs) ->
  check_item i (PyRef l) st = (inl u, st1) ->
  heap_of st1 = heap_of st /\
  forall s, In s (validation_flags st1) <->
    In s (validation_flags st) \/
    (s = upc_msg i /\ upc_invalid (heap_of st) kvs = true) \/
    (s = neg_msg i /\ negative_qty (heap_of st) kvs).
Proof.
  intros Hl H. rewrite (check_item_eq _ _ _ _ Hl) in H. cbv zeta in H.
  set (q := item_qty (heap_of st) kvs) in H |- *.
  assert (Hn : negative_qty (heap_of st) kvs <->
               present q = true /\
               match py_float q with
               | FloatOk f => PrimFloat.ltb f PrimFloat.zero = true
               | _ => False
               end).
  { unfold negative_qty. fold q. split.
    - intros [Hp [f [Ef Hf]]]. rewrite Ef. auto.
    - intros [Hp Hm]. split; [exact Hp|].
      destruct (py_float q); [eauto|contradiction|contradiction]. }
  set (U := if upc_invalid (heap_of st) kvs then [upc_msg i] else []) in H.
  assert (HU : forall s, In s U <-> s = upc_msg i /\ upc_invalid (heap_of st) kvs = true).
  { intros s. unfold U. destruct (upc_invalid (heap_of st) kvs); simpl; intuition congruence. }
  destruct (present q) eqn:Ep.
  - destruct (py_float q) as [f| |] eqn:Ef; [| |discriminate];
      injection H as <- <-; simpl; split; try reflexivity; intros s;
      rewrite Hn, !in_app_iff, HU.
    + destruct (PrimFloat.ltb f PrimFloat.zero); simpl; intuition congruence.
    + intuition congruence.
  - injection H as <- <-. simpl. split; [reflexivity|]. intros s.
    rewrite Hn, in_app_iff, HU. intuition congruence.
Qed.

Lemma for_each_i_check_item j xs st st' :
  for_each_i j xs check_item st = (inl tt, st') ->
  heap_of st' = heap_of st /\
  (forall k it, nth_error xs k = Some it -> exists kvs, dict_at (heap_of st) it kvs) /\
  forall s, In s (validation_flags st') <->
    In s (validation_flags st) \/
    exists k l kvs, nth_error xs k = Some (PyRef l) /\ heap_of st !! l = Some (PyDict kvs) /\
      ((s = upc_msg (j + k) /\ upc_invalid (heap_of st) kvs = true) \/
       (s = neg_msg (j + k) /\ negative_qty (heap_of st) kvs)).
Proof.
  revert j st. induction xs as [|x xs IH]; intros j st H.
  - simpl in H. injection H as <-. split; [reflexivity|]. split.
    + intros [|k] it Hk; discriminate.
    + intros s. split; [auto|]. intros [Hs|[k [l [kvs [Hk _]]]]]; [exact Hs|].
      destruct k; discriminate.
  - simpl in H. apply bind_inv in H as [[u [st1 [H1 H2]]]|[e [_ He]]]; [|discriminate].
    destruct (check_item_ok_dict _ _ _ _ _ H1) as [kvs [l [-> Hl]]].
    destruct (check_item_ok _ _ _ _ _ _ Hl H1) as [Hh1 Hf1].
    destruct (IH _ _ H2) as [Hh2 [Hd2 Hf2]]. rewrite Hh1 in Hh2, Hd2, Hf2.
    split; [exact Hh2|]. split.
    + intros [|k] it Hk; simpl in Hk.
      * injection Hk as <-. exists kvs, l. auto.
      * exact (Hd2 _ _ Hk).
    + intros s. rewrite Hf2, Hf1. split.
      * intros [[Hs|[Hs|Hs]]|[k [l' [kvs' [Hk [Hl' Hs]]]]]].
        -- left. exact Hs.
        -- right. exists 0%nat, l, kvs. rewrite Nat.add_0_r. auto.
        -- right. exists 0%nat, l, kvs. rewrite Nat.add_0_r. auto.
        -- right. exists (S k), l', kvs'. rewrite Nat.add_succ_r. auto.
      * intros [Hs|[[|k] [l' [kvs' [Hk [Hl' Hs]]]]]].
        -- left. left. exact Hs.
        -- simpl in Hk. injection Hk as <-. rewrite Hl in Hl'. injection Hl' as <-.
           rewrite Nat.add_0_r in Hs. left. right. exact Hs.
        -- right. exists k, l', kvs'. rewrite Nat.add_succ_r in Hs. auto.
Qed.

End ItemLoop.

Section Totals.

Lemma add_item_amount_eq acc st l kvs :
  heap_of st !! l = Some (PyDict kvs) ->
  add_item_amount acc (PyRef l) st =
    (let a := item_amount (heap_of st) kvs in
     if present a then
       match py_float a with
       | FloatOk x => (inl (PrimFloat.add acc x), st)
       | FloatCaught => (inl acc, st)
       | FloatOverflow => (inr (OverflowError overflow_msg), st)
       end
     else (inl acc, st)).
Proof.
  intros H. unfold add_item_amount.
  rewrite (bind_ok _ _ _ _ _ (item_amount_get _ _ _ H)). cbv beta zeta.
  destruct (present _); [|reflexivity]. destruct (py_float _); reflexivity.
Qed.

Lemma add_item_amount_not_dict acc st it :
  (forall kvs, ~ dict_at (heap_of st) it kvs) ->
  add_item_amount acc it st = (inr (AttributeError (no_attribute (heap_of st) it "get")), st).
Proof.
  intros H. unfold add_item_amount, py_or.
  apply (bind_err _ _ _ _ _ (bind_err _ _ _ _ _ (dict_get_not_dict _ _ _ H))).
Qed.

Lemma fold_m_add_item_amount xs acc st r st' :
  fold_m xs add_item_amount acc st = (inl r, st') ->
  st' = st /\
  exists kvss, Forall2 (dict_at (heap_of st)) xs kvss /\
               r = fold_left (add_amount (heap_of st)) kvss acc.
Proof.
  revert acc. induction xs as [|x xs IH]; intros acc H.
  - simpl in H. injection H as <- <-. split; [reflexivity|]. exists []. auto.
  - simpl in H. apply bind_inv in H as [[acc1 [st1 [H1 H2]]]|[e [_ He]]]; [|discriminate].
    assert (Hd : exists kvs, dict_at (heap_of st) x kvs).
    { destruct x as [| | | | |l];
        try (rewrite add_item_amount_not_dict in H1;
             [discriminate|intros kvs [l' [E _]]; discriminate]).
      destruct (heap_of st !! l) as [[kvs|ys]|] eqn:E; [exists kvs, l; auto| |];
        (rewrite add_item_amount_not_dict in H1; [discriminate|]);
        intros kvs [l' [E1 E2]]; injection E1 as <-; congruence. }
    destruct Hd as [kvs [l [-> Hl]]].
    rewrite (add_item_amount_eq _ _ _ _ Hl) in H1. cbv zeta in H1.
    assert (Hst : st1 = st /\ acc1 = add_amount (heap_of st) acc kvs).
    { unfold add_amount. cbv zeta.
      destruct (present (item_amount (heap_of st) kvs)); [|injection H1 as <- <-; auto].
      destruct (py_float (item_amount (heap_of st) kvs)); try discriminate;
        injection H1 as <- <-; auto. }
    destruct Hst as [-> ->].
    destruct (IH _ H2) as [-> [kvss [Hf Hr]]]. split; [reflexivity|].
    exists (kvs :: kvss). split; [constructor; [exists l; auto|exact Hf]|exact Hr].
Qed.

End Totals.

Section TotalsResult.

Lemma validate_totals_ok st d dkvs st' :
  heap_of st !! d = Some (PyDict dkvs) ->
  _validate_totals (PyRef d) st = (inl tt, st') ->
  heap_of st' = heap_of st /\
  ((match dict_lookup "items" dkvs with
    | None => True
    | Some v => truthy (heap_of st) v = false
    end) -> validation_flags st' = validation_flags st) /\
  (forall li xs, dict_lookup "items" dkvs = Some (PyRef li) ->
     heap_of st !! li = Some (PyList xs) -> xs <> [] ->
     exists kvss, Forall2 (dict_at (heap_of st)) xs kvss /\
       validation_flags st' = validation_flags st ++ totals_findings (heap_of st) dkvs kvss).
Proof.
  intros Hd H. unfold _validate_totals in H.
  rewrite (bind_ok _ _ _ _ _ (dict_get_opt_dict _ _ _ "items" Hd)) in H. cbv beta in H.
  rewrite (bind_ok _ _ st (heap_of st) st) in H by reflexivity. cbv beta in H.
  destruct (dict_lookup "items" dkvs) as [items|] eqn:Ei.
  2:{ injection H as <-. split; [reflexivity|]. split; [auto|]. intros; discriminate. }
  destruct (truthy (heap_of st) items) eqn:Et; simpl in H.
  2:{ injection H as <-. split; [reflexivity|]. split; [auto|].
      intros li xs E Hli Hne. injection E as ->. simpl in Et. rewrite Hli in Et.
      destruct xs; [contradiction|discriminate]. }
  assert (Hfin : forall xs,
    py_iter items st = (inl xs, st) ->
    heap_of st' = heap_of st /\
    exists kvss, Forall2 (dict_at (heap_of st)) xs kvss /\
      validation_flags st' = validation_flags st ++ totals_findings (heap_of st) dkvs kvss).
  { intros xs Hit. rewrite (bind_ok _ _ _ _ _ Hit) in H. cbv beta in H.
    apply bind_inv in H as [[total [st1 [H1 H2]]]|[e [_ He]]]; [|discriminate].
    destruct (fold_m_add_item_amount _ _ _ _ _ H1) as [-> [kvss [Hf Hr]]].
    subst total.
    rewrite (bind_ok _ _ _ _ _ (invoice_total_get _ _ _ Hd)) in H2. cbv beta in H2.
    unfold totals_findings, sum_amounts. cbv zeta.
    set (t := invoice_total (heap_of st) dkvs) in *.
    split; [destruct (present t); [|injection H2 as <-; reflexivity];
            destruct (py_float t) as [x| |];
            [destruct (PrimFloat.ltb _ _)| |]; try discriminate; injection H2 as <-; reflexivity|].
    exists kvss. split; [exact Hf|].
    destruct (present t); [|injection H2 as <-; rewrite app_nil_r; reflexivity].
    destruct (py_float t) as [x| |];
      [destruct (PrimFloat.ltb _ _)| |]; try discriminate; injection H2 as <-;
      simpl; try rewrite app_nil_r; reflexivity. }
  split; [|split].
  - destruct items as [| | | | |li]; try (simpl in H; discriminate).
    + simpl in H. unfold bind in H. simpl in H.
      destruct (fold_m _ _ _ _) as [[r|e] st1] eqn:Ef in H; [|discriminate H].
      apply fold_m_add_item_amount in Ef as [-> _].
      apply bind_inv in H as [[total [st2 [H1 H2]]]|[e [_ He]]]; [|discriminate].
      rewrite (invoice_total_get _ _ _ Hd) in H1. injection H1 as <- <-.
      destruct (present _); [|injection H2 as <-; reflexivity].
      destruct (py_float _) as [t| |];
        [destruct (PrimFloat.ltb _ _)| |]; try discriminate; injection H2 as <-; reflexivity.
    + destruct (heap_of st !! li) as [[kvs|xs]|] eqn:Eli.
      * apply (Hfin (map (fun kv => PyStr (fst kv)) kvs)).
        unfold py_iter, bind, read_heap. simpl. rewrite Eli. reflexivity.
      * apply (Hfin xs). unfold py_iter, bind, read_heap. simpl. rewrite Eli. reflexivity.
      * unfold py_iter, bind, read_heap in H. simpl in H. rewrite Eli in H. discriminate.
  - intros Hf. cbn in Hf. congruence.
  - intros li xs E Hli _. injection E as ->.
    apply Hfin. unfold py_iter, bind, read_heap. simpl. rewrite Hli. reflexivity.
Qed.

End TotalsResult.

Section BusinessRules.

Lemma totals_findings_cases h dkvs kvss t :
  In t (totals_findings h dkvs kvss) ->
  t = "totals_mismatch"%string \/ t = "invalid_invoice_total"%string.
Proof.
  unfold totals_findings. destruct (present _); [|intros []].
  destruct (py_float _) as [x| |]; [destruct (PrimFloat.ltb _ _)| |]; simpl; intuition.
Qed.

Lemma business_rules_ok st st' d dkvs li xs :
  heap_of st !! d = Some (PyDict dkvs) ->
  dict_lookup "items" dkvs = Some (PyRef li) ->
  heap_of st !! li = Some (PyList xs) ->
  _validate_business_rules (PyRef d) st = (inl tt, st') ->
  heap_of st' = heap_of st /\
  exists T, (forall t, In t T -> t = "totals_mismatch"%string \/ t = "invalid_invoice_total"%string) /\
    forall s, In s (validation_flags st') <->
      In s (validation_flags st) \/ item_finding (heap_of st) xs s \/ In s T.
Proof.
  intros Hd Hi Hli H. unfold _validate_business_rules in H.
  rewrite (bind_ok _ _ _ _ _ (dict_get_opt_dict _ _ _ "items" Hd)) in H. cbv beta in H.
  rewrite (bind_ok _ _ st (heap_of st) st) in H by reflexivity. cbv beta in H.
  rewrite Hi in H. cbv beta iota in H.
  assert (Ht : truthy (heap_of st) (PyRef li) = negb (Nat.eqb (List.length xs) 0))
    by (simpl; rewrite Hli; reflexivity).
  rewrite Ht in H.
  destruct xs as [|x0 xs0] eqn:Exs.
  { simpl in H. injection H as <-. split; [reflexivity|]. exists []. split; [intros t []|].
    intros s. split; [auto|]. intros [Hs|[[k [l [kvs [Hk _]]]]|[]]]; [exact Hs|].
    destruct k; discriminate. }
  cbn [negb Nat.eqb List.length] in H. rewrite <- Exs in Hli |- *.
  assert (Hit : py_iter (PyRef li) st = (inl xs, st)).
  { unfold py_iter, bind, read_heap. simpl. rewrite Hli. reflexivity. }
  rewrite (bind_ok _ _ _ _ _ Hit) in H. cbv beta in H.
  apply bind_inv in H as [[u [st1 [H1 H2]]]|[e [_ He]]]; [|discriminate].
  destruct u.
  destruct (for_each_i_check_item _ _ _ _ H1) as [Hh1 [_ Hf1]].
  assert (Hd1 : heap_of st1 !! d = Some (PyDict dkvs)) by (rewrite Hh1; exact Hd).
  destruct (validate_totals_ok _ _ _ _ Hd1 H2) as [Hh2 [_ Htot]].
  rewrite Hh1 in Hh2, Htot. split; [exact Hh2|].
  destruct (Htot li xs Hi Hli ltac:(rewrite Exs; discriminate)) as [kvss [_ Hfl]].
  exists (totals_findings (heap_of st) dkvs kvss).
  split; [apply totals_findings_cases|].
  intros s. rewrite Hfl, in_app_iff, Hf1. unfold item_finding. simpl. tauto.
Qed.

Lemma append_cancel_l p a b : p +++ a = p +++ b -> a = b.
Proof. induction p as [|c p IH]; simpl; [auto|]. intros H. injection H. exact IH. Qed.

Lemma uint_to_string_inj d1 d2 : uint_to_string d1 = uint_to_string d2 -> d1 = d2.
Proof.
  revert d2. induction d1; intros [] H; simpl in H; try discriminate;
    try reflexivity; injection H as H; f_equal; auto.
Qed.

Lemma str_nat_inj i j : str_nat i = str_nat j -> i = j.
Proof.
  unfold str_nat. intros H. apply DecimalNat.Unsigned.to_uint_inj.
  apply uint_to_string_inj. exact H.
Qed.

Lemma neg_msg_inj i j : neg_msg i = neg_msg j -> i = j.
Proof. unfold neg_msg. intros H. apply str_nat_inj. exact (append_cancel_l _ _ _ H). Qed.

Lemma upc_msg_inj i j : upc_msg i = upc_msg j -> i = j.
Proof. unfold upc_msg. intros H. apply str_nat_inj. exact (append_cancel_l _ _ _ H). Qed.

Lemma neg_msg_upc_msg i j : neg_msg i <> upc_msg j.
Proof. discriminate. Qed.

Lemma neg_msg_totals i : neg_msg i <> "totals_mismatch"%string /\ neg_msg i <> "invalid_invoice_total"%string.
Proof. split; discriminate. Qed.

Lemma upc_msg_totals i : upc_msg i <> "totals_mismatch"%string /\ upc_msg i <> "invalid_invoice_total"%string.
Proof. split; discriminate. Qed.

End BusinessRules.

(** ** Frame lemmas: what the validator may write *)

Section Frames.

Variable K : list string.

Lemma obj_frame_refl o : obj_frame K o o.
Proof. destruct o; simpl; auto. Qed.

Lemma obj_frame_trans o1 o2 o3 : obj_frame K o1 o2 -> obj_frame K o2 o3 -> obj_frame K o1 o3.
Proof.
  destruct o1, o2, o3; simpl; try tauto.
  - intros H1 H2 k Hk. rewrite H2, H1 by exact Hk. reflexivity.
  - intros -> ->. reflexivity.
Qed.

Lemma frame_refl h : frame K h h.
Proof. intros l o H. exists o. split; [exact H|apply obj_frame_refl]. Qed.

Lemma frame_trans h1 h2 h3 : frame K h1 h2 -> frame K h2 h3 -> frame K h1 h3.
Proof.
  intros F1 F2 l o H. destruct (F1 _ _ H) as [o2 [H2 G2]].
  destruct (F2 _ _ H2) as [o3 [H3 G3]]. exists o3. split; [exact H3|].
  exact (obj_frame_trans _ _ _ G2 G3).
Qed.

Lemma frame_dom h h' l : frame K h h' -> h' !! l = None -> h !! l = None.
Proof.
  intros F H. destruct (h !! l) as [o|] eqn:E; [|reflexivity].
  destruct (F _ _ E) as [o' [H' _]]. congruence.
Qed.

Lemma step_ok_refl st : step_ok K st st.
Proof. split; [apply frame_refl|]. exists []. rewrite app_nil_r. reflexivity. Qed.

Lemma step_ok_trans st1 st2 st3 : step_ok K st1 st2 -> step_ok K st2 st3 -> step_ok K st1 st3.
Proof.
  intros [F1 [e1 E1]] [F2 [e2 E2]]. split; [exact (frame_trans _ _ _ F1 F2)|].
  exists (e1 ++ e2). rewrite E2, E1, app_assoc. reflexivity.
Qed.

Lemma preserves_ret {A} (x : A) : preserves K (ret x).
Proof. intros st y st' H. injection H as _ <-. apply step_ok_refl. Qed.

Lemma preserves_raise {A} e : preserves K (@raise A e).
Proof. intros st y st' H. injection H as _ <-. apply step_ok_refl. Qed.

Lemma preserves_read_heap : preserves K read_heap.
Proof. intros st y st' H. injection H as _ <-. apply step_ok_refl. Qed.

Lemma preserves_bind {A B} (m : M A) (k : A -> M B) :
  preserves K m -> (forall x, preserves K (k x)) -> preserves K (bind m k).
Proof.
  intros Hm Hk st y st'' H. apply bind_inv in H as [[x [st' [H1 H2]]]|[e [H1 _]]].
  - exact (step_ok_trans _ _ _ (Hm _ _ _ H1) (Hk _ _ _ _ H2)).
  - exact (Hm _ _ _ H1).
Qed.

Lemma preserves_append_flag s : preserves K (append_flag s).
Proof.
  intros st y st' H. injection H as _ <-. split; [apply frame_refl|].
  exists [s]. reflexivity.
Qed.

Lemma alloc_fresh (h : heap) : h !! fresh (dom h) = None.
Proof. apply not_elem_of_dom. apply is_fresh. Qed.

Lemma frame_insert_fresh h l o : h !! l = None -> frame K h (<[l := o]> h).
Proof.
  intros Hl l' o' H. exists o'. split; [|apply obj_frame_refl].
  rewrite lookup_insert_ne; [exact H|]. intros ->. congruence.
Qed.

Lemma preserves_alloc o : preserves K (alloc o).
Proof.
  intros st y st' H. injection H as _ <-. split; [|exists []; simpl; rewrite app_nil_r; reflexivity].
  apply frame_insert_fresh. apply alloc_fresh.
Qed.

Lemma dict_lookup_set_ne k k' v kvs :
  k' <> k -> dict_lookup k' (dict_set k v kvs) = dict_lookup k' kvs.
Proof.
  intros Hne. induction kvs as [|[k0 v0] rest IH]; simpl.
  - destruct (String.eqb k' k) eqn:E; [apply String.eqb_eq in E; congruence|reflexivity].
  - destruct (String.eqb k k0) eqn:E0; simpl.
    + apply String.eqb_eq in E0. subst k0.
      destruct (String.eqb k' k) eqn:E; [apply String.eqb_eq in E; congruence|reflexivity].
    + rewrite IH. reflexivity.
Qed.

Lemma dict_lookup_set_eq k v kvs : dict_lookup k (dict_set k v kvs) = Some v.
Proof.
  induction kvs as [|[k0 v0] rest IH]; simpl.
  - rewrite String.eqb_refl. reflexivity.
  - destruct (String.eqb k k0) eqn:E0; simpl.
    + rewrite String.eqb_refl. reflexivity.
    + rewrite E0. exact IH.
Qed.

Lemma preserves_setitem c k v : In k K -> preserves K (setitem c k v).
Proof.
  intros Hk st y st' H. unfold setitem in H.
  destruct c as [| | | | |l]; try (injection H as _ <-; apply step_ok_refl).
  destruct (heap_of st !! l) as [[kvs|xs]|] eqn:E; try (injection H as _ <-; apply step_ok_refl).
  injection H as _ <-. split; [|exists []; simpl; rewrite app_nil_r; reflexivity].
  simpl. intros l' o' H'.
  destruct (decide (l' = l)) as [->|Hne].
  - rewrite E in H'. injection H' as <-. rewrite lookup_insert_eq. eexists; split; [reflexivity|].
    simpl. intros k' Hk'. apply dict_lookup_set_ne. intros ->. contradiction.
  - rewrite lookup_insert_ne by congruence. exists o'. split; [exact H'|apply obj_frame_refl].
Qed.

End Frames.

Ltac pres_step :=
  match goal with
  | |- preserves _ (bind _ _) => apply preserves_bind; [|intros ?]
  | |- preserves _ (ret _) => apply preserves_ret
  | |- preserves _ (raise _) => apply preserves_raise
  | |- preserves _ read_heap => apply preserves_read_heap
  | |- preserves _ (append_flag _) => apply preserves_append_flag
  | |- preserves _ (alloc _) => apply preserves_alloc
  | |- preserves _ (if ?b then _ else _) => destruct b
  | |- preserves _ ?m => lazymatch m with context [match ?x with _ => _ end] => destruct x end
  end.

Section Preserve.

Variable K : list string.

Lemma preserves_dict_get v k : preserves K (dict_get v k).
Proof. unfold dict_get. repeat pres_step. Qed.

Lemma preserves_dict_get_opt v k : preserves K (dict_get_opt v k).
Proof. unfold dict_get_opt. repeat pres_step. Qed.

Lemma preserves_py_contains k c : preserves K (py_contains k c).
Proof. unfold py_contains. repeat pres_step. Qed.

Lemma preserves_getitem c k : preserves K (getitem c k).
Proof. unfold getitem. repeat pres_step. Qed.

Lemma preserves_py_iter c : preserves K (py_iter c).
Proof. unfold py_iter. repeat pres_step. Qed.

Lemma preserves_py_copy c : preserves K (py_copy c).
Proof. unfold py_copy. repeat pres_step. Qed.

Lemma preserves_is_valid_upc v : preserves K (_is_valid_upc v).
Proof. unfold _is_valid_upc. repeat pres_step. Qed.

Lemma preserves_clean_upc v : preserves K (_clean_upc v).
Proof. unfold _clean_upc. repeat pres_step. Qed.

Lemma preserves_py_or a b : preserves K a -> preserves K b -> preserves K (py_or a b).
Proof. intros Ha Hb. unfold py_or. repeat pres_step; assumption. Qed.

Lemma preserves_for_each {A} (xs : list A) body :
  (forall x, In x xs -> preserves K (body x)) -> preserves K (for_each xs body).
Proof.
  intros Hb. induction xs as [|a xs IH]; simpl; repeat pres_step.
  - apply Hb. left. reflexivity.
  - apply IH. intros y Hy. apply Hb. right. exact Hy.
Qed.

Lemma preserves_for_each_i {A} i (xs : list A) body :
  (forall i x, preserves K (body i x)) -> preserves K (for_each_i i xs body).
Proof. intros Hb. revert i. induction xs; intros i; simpl; repeat pres_step; auto. Qed.

Lemma preserves_fold_m {A B} (xs : list A) (body : B -> A -> M B) acc :
  (forall acc x, preserves K (body acc x)) -> preserves K (fold_m xs body acc).
Proof. intros Hb. revert acc. induction xs; intros acc; simpl; repeat pres_step; auto. Qed.

Lemma preserves_check_item i it : preserves K (check_item i it).
Proof.
  unfold check_item. repeat (pres_step || apply preserves_dict_get || apply preserves_is_valid_upc
                             || apply preserves_py_or).
Qed.

Lemma preserves_add_item_amount acc it : preserves K (add_item_amount acc it).
Proof. unfold add_item_amount. repeat (pres_step || apply preserves_dict_get || apply preserves_py_or). Qed.

Lemma preserves_validate_totals data : preserves K (_validate_totals data).
Proof.
  unfold _validate_totals.
  repeat (pres_step || apply preserves_dict_get || apply preserves_dict_get_opt
          || apply preserves_py_or || apply preserves_py_iter).
  apply preserves_fold_m. apply preserves_add_item_amount.
Qed.

Lemma preserves_business_rules data : preserves K (_validate_business_rules data).
Proof.
  unfold _validate_business_rules.
  repeat (pres_step || apply preserves_dict_get_opt || apply preserves_py_iter
          || apply preserves_validate_totals).
  apply preserves_for_each_i. apply preserves_check_item.
Qed.

Lemma preserves_check_required_fields fs data : preserves K (check_required_fields fs data).
Proof.
  unfold check_required_fields. apply preserves_for_each. intros x _.
  repeat (pres_step || apply preserves_dict_get).
Qed.

Lemma frame_mono K' h h' : (forall k, In k K -> In k K') -> frame K h h' -> frame K' h h'.
Proof.
  intros Hin F l o H. destruct (F _ _ H) as [o' [H' G]]. exists o'. split; [exact H'|].
  destruct o as [kvs|xs], o' as [kvs'|xs']; simpl in *; try contradiction; try exact G.
  intros k Hk. apply G. intros Hk'. apply Hk, Hin, Hk'.
Qed.

End Preserve.

Lemma preserves_coerce_field rf obj f :
  In f coerced_keys -> preserves coerced_keys (coerce_field rf obj f).
Proof.
  intros Hf. unfold coerce_field.
  repeat (pres_step || apply preserves_py_contains || apply preserves_getitem
          || (apply preserves_setitem; exact Hf)).
Qed.

Lemma preserves_clean_item_upc item : preserves coerced_keys (clean_item_upc item).
Proof.
  unfold clean_item_upc.
  repeat (pres_step || apply preserves_py_contains || apply preserves_getitem
          || apply preserves_clean_upc || (apply preserves_setitem; left; reflexivity)).
Qed.

Lemma preserves_validate_data_types data : preserves coerced_keys (_validate_data_types data).
Proof.
  unfold _validate_data_types.
  repeat (pres_step || apply preserves_py_copy || apply preserves_dict_get_opt
          || apply preserves_py_iter).
  - apply preserves_for_each. intros f Hf. apply preserves_coerce_field.
    unfold coerced_keys. right. apply in_app_iff. left. exact Hf.
  - apply preserves_for_each. intros it _. repeat pres_step.
    + apply preserves_clean_item_upc.
    + apply preserves_for_each. intros f Hf. apply preserves_coerce_field.
      unfold coerced_keys. right. apply in_app_iff. right. exact Hf.
Qed.

Lemma preserves_basic_structure data : preserves required_sections (_validate_basic_structure data).
Proof.
  unfold _validate_basic_structure.
  repeat (pres_step || apply preserves_py_contains || apply preserves_dict_get).
  - apply preserves_for_each. intros sec Hsec. repeat (pres_step || apply preserves_py_contains).
    apply preserves_setitem. exact Hsec.
  - apply preserves_setitem. simpl. tauto.
Qed.

Section BasicStructure.

Local Open Scope string_scope.

Lemma py_contains_dict st l kvs k :
  heap_of st !! l = Some (PyDict kvs) ->
  py_contains k (PyRef l) st = (inl (match dict_lookup k kvs with Some _ => true | None => false end), st).
Proof. intros H. unfold py_contains, bind, read_heap. simpl. rewrite H. reflexivity. Qed.

Lemma alloc_eq st o :
  alloc o st = (inl (PyRef (fresh (dom (heap_of st)))),
                mkState (<[fresh (dom (heap_of st)) := o]> (heap_of st)) (validation_flags st)).
Proof. reflexivity. Qed.

Lemma setitem_dict st l kvs k v :
  heap_of st !! l = Some (PyDict kvs) ->
  setitem (PyRef l) k v st =
    (inl tt, mkState (<[l := PyDict (dict_set k v kvs)]> (heap_of st)) (validation_flags st)).
Proof. intros H. unfold setitem. rewrite H. reflexivity. Qed.

Lemma append_flag_eq st s :
  append_flag s st = (inl tt, mkState (heap_of st) (validation_flags st ++ [s])%list).
Proof. reflexivity. Qed.

(** One round of the section loop. *)
Lemma section_step sec st d kvs y st' :
  heap_of st !! d = Some (PyDict kvs) ->
  (present_ <- py_contains sec (PyRef d) ;;
   if present_ then ret tt
   else append_flag ("missing_section: " +++ sec) ;;;
        d0 <- alloc (PyDict []) ;;
        setitem (PyRef d) sec d0) st = (y, st') ->
  y = inl tt /\
  exists kvs', heap_of st' !! d = Some (PyDict kvs') /\
    (forall k, k <> sec -> dict_lookup k kvs' = dict_lookup k kvs) /\
    dict_lookup sec kvs' <> None /\
    frame [sec] (heap_of st) (heap_of st') /\
    match dict_lookup sec kvs with
    | Some _ => validation_flags st' = validation_flags st /\ kvs' = kvs
    | None => validation_flags st' = (validation_flags st ++ ["missing_section: " +++ sec])%list /\
              exists l0, dict_lookup sec kvs' = Some (PyRef l0) /\
                         heap_of st' !! l0 = Some (PyDict [])
    end.
Proof.
  intros Hd H. rewrite (bind_ok _ _ _ _ _ (py_contains_dict _ _ _ sec Hd)) in H. cbv beta in H.
  destruct (dict_lookup sec kvs) as [v|] eqn:Es.
  - injection H as <- <-. split; [reflexivity|]. exists kvs. split; [exact Hd|].
    split; [auto|]. split; [congruence|]. split; [apply frame_refl|]. auto.
  - rewrite (bind_ok _ _ _ _ _ (append_flag_eq _ _)) in H. cbv beta in H.
    rewrite (bind_ok _ _ _ _ _ (alloc_eq _ _)) in H. cbv beta in H.
    cbn [heap_of validation_flags] in H.
    set (h := heap_of st) in *. set (l0 := fresh (dom h)) in *.
    assert (Hl0 : h !! l0 = None) by apply alloc_fresh.
    assert (Hne : l0 <> d) by (intros ->; congruence).
    rewrite setitem_dict with (kvs := kvs) in H
      by (simpl; rewrite lookup_insert_ne by exact Hne; exact Hd).
    injection H as <- <-. split; [reflexivity|]. simpl.
    exists (dict_set sec (PyRef l0) kvs). rewrite lookup_insert_eq. split; [reflexivity|].
    split; [intros k Hk; apply dict_lookup_set_ne; exact Hk|].
    rewrite dict_lookup_set_eq. split; [discriminate|]. split.
    + apply (frame_trans _ _ (<[l0 := PyDict []]> h)); [apply frame_insert_fresh; exact Hl0|].
      intros l o Ho. destruct (decide (l = d)) as [->|Hld].
      * rewrite lookup_insert_ne in Ho by exact Hne. rewrite Hd in Ho. injection Ho as <-.
        rewrite lookup_insert_eq. eexists; split; [reflexivity|]. simpl.
        intros k Hk. apply dict_lookup_set_ne. intros ->. apply Hk. left. reflexivity.
      * rewrite lookup_insert_ne by congruence. exists o. split; [exact Ho|apply obj_frame_refl].
    + split; [reflexivity|]. exists l0. split; [reflexivity|].
      rewrite lookup_insert_ne by congruence. apply lookup_insert_eq.
Qed.

End BasicStructure.

Section BasicStructure2.

Local Open Scope string_scope.

Lemma sections_loop secs st d kvs y st' :
  List.NoDup secs ->
  heap_of st !! d = Some (PyDict kvs) ->
  for_each secs (fun section =>
    present_ <- py_contains section (PyRef d) ;;
    if present_ then ret tt
    else append_flag ("missing_section: " +++ section) ;;;
         d0 <- alloc (PyDict []) ;;
         setitem (PyRef d) section d0) st = (y, st') ->
  y = inl tt /\
  exists kvs', heap_of st' !! d = Some (PyDict kvs') /\
    (forall sec, In sec secs -> dict_lookup sec kvs' <> None) /\
    (forall k, ~ In k secs -> dict_lookup k kvs' = dict_lookup k kvs) /\
    frame secs (heap_of st) (heap_of st') /\
    validation_flags st' = (validation_flags st ++ concat (map (section_findings kvs) secs))%list /\
    (forall sec, In sec secs -> dict_lookup sec kvs = None ->
       exists l0 kvs0, dict_lookup sec kvs' = Some (PyRef l0) /\
                       heap_of st' !! l0 = Some (PyDict kvs0)).
Proof.
  revert st kvs. induction secs as [|sec rest IH]; intros st kvs Hnd Hd H.
  - simpl in H. injection H as <- <-. split; [reflexivity|]. exists kvs.
    split; [exact Hd|]. split; [intros ? []|]. split; [auto|]. split; [apply frame_refl|].
    split; [simpl; rewrite app_nil_r; reflexivity|]. intros ? [].
  - inversion Hnd as [|? ? Hnin Hnd']. subst.
    simpl in H. apply bind_inv in H as [[u [st1 [H1 H2]]]|[e [H1 He]]].
    2:{ apply section_step with (kvs := kvs) in H1 as [He' _]; [discriminate|exact Hd]. }
    apply section_step with (kvs := kvs) in H1 as [_ [kvs1 [Hd1 [Hk1 [Hs1 [F1 Hc1]]]]]];
      [|exact Hd].
    destruct (IH _ _ Hnd' Hd1 H2) as [-> [kvs' [Hd' [Hin' [Hout' [F' [Hfl' Hnew']]]]]]].
    split; [reflexivity|]. exists kvs'. split; [exact Hd'|].
    assert (Hsec : dict_lookup sec kvs' = dict_lookup sec kvs1) by (apply Hout'; exact Hnin).
    split; [|split; [|split; [|split]]].
    + intros s [<-|Hs]; [rewrite Hsec; exact Hs1|exact (Hin' _ Hs)].
    + intros k Hk. rewrite Hout' by (intros Hk'; apply Hk; right; exact Hk').
      apply Hk1. intros ->. apply Hk. left. reflexivity.
    + apply (frame_trans _ _ (heap_of st1)).
      * apply (frame_mono [sec]); [intros k [<-|[]]; left; reflexivity|exact F1].
      * apply (frame_mono rest); [intros k Hk; right; exact Hk|exact F'].
    + rewrite Hfl'.
      assert (Hmap : map (section_findings kvs1) rest = map (section_findings kvs) rest).
      { apply map_ext_in. intros s Hs. unfold section_findings. rewrite Hk1; [reflexivity|].
        intros ->. contradiction. }
      rewrite Hmap. simpl. unfold section_findings at 2.
      destruct (dict_lookup sec kvs) eqn:Es; destruct Hc1 as [Hc1 _]; rewrite Hc1;
        [reflexivity|rewrite app_assoc; reflexivity].
    + intros s [<-|Hs] Hnone.
      * rewrite Hnone in Hc1. destruct Hc1 as [_ [l0 [Hl0 Hh0]]].
        destruct (F' _ _ Hh0) as [o' [Ho' Go]]. destruct o' as [kvs0|xs0]; [|contradiction].
        exists l0, kvs0. rewrite Hsec. auto.
      * apply Hnew'; [exact Hs|]. rewrite Hk1; [exact Hnone|]. intros ->. contradiction.
Qed.

Lemma required_sections_nodup : List.NoDup required_sections.
Proof.
  unfold required_sections.
  repeat constructor; simpl; intros Hs; repeat destruct Hs as [Hs|Hs]; try discriminate; exact Hs.
Qed.

Lemma basic_structure_ok st d kvs y st1 :
  heap_of st !! d = Some (PyDict kvs) ->
  _validate_basic_structure (PyRef d) st = (y, st1) ->
  y = inl tt /\ step_ok required_sections st st1 /\
  exists kvs1 li xs, heap_of st1 !! d = Some (PyDict kvs1) /\
    (forall sec, In sec required_sections -> dict_lookup sec kvs1 <> None) /\
    dict_lookup "items" kvs1 = Some (PyRef li) /\
    heap_of st1 !! li = Some (PyList xs) /\
    (dict_lookup "items" kvs = None ->
       xs = [] /\ exists pre, validation_flags st1 =
         (validation_flags st ++ pre ++ ["missing_section: items"; "items_not_list"])%list).
Proof.
  intros Hd H.
  pose proof (preserves_basic_structure _ _ _ _ H) as Hstep.
  unfold _validate_basic_structure in H.
  apply bind_inv in H as [[u [st0 [H0 H1]]]|[e [H0 He]]].
  2:{ apply sections_loop with (kvs := kvs) in H0 as [He' _];
      [discriminate|apply required_sections_nodup|exact Hd]. }
  apply sections_loop with (kvs := kvs) in H0
    as [_ [kvs0 [Hd0 [Hin0 [Hout0 [F0 [Hfl0 Hnew0]]]]]]];
    [|apply required_sections_nodup|exact Hd].
  rewrite (bind_ok _ _ _ _ _ (dict_get_dict _ _ _ "items" Hd0)) in H1. cbv beta in H1.
  rewrite (bind_ok _ _ st0 (heap_of st0) st0) in H1 by reflexivity. cbv beta in H1.
  assert (Hitems0 : dict_lookup "items" kvs0 <> None) by (apply Hin0; simpl; tauto).
  destruct (dict_lookup "items" kvs0) as [v|] eqn:Ev; [|contradiction].
  unfold field in H1. rewrite Ev in H1.
  destruct (is_list (heap_of st0) v) eqn:El.
  - injection H1 as <- <-. split; [reflexivity|]. split; [exact Hstep|].
    destruct v as [| | | | |li]; try discriminate.
    simpl in El. destruct (heap_of st0 !! li) as [[kvsx|xs]|] eqn:Eli; try discriminate.
    exists kvs0, li, xs. split; [exact Hd0|]. split; [exact Hin0|]. split; [exact Ev|].
    split; [exact Eli|]. intros Hnone.
    destruct (Hnew0 "items" ltac:(simpl; tauto) Hnone) as [l0 [kvsz [Hl0 Hh0]]].
    rewrite Ev in Hl0. injection Hl0 as ->. congruence.
  - rewrite (bind_ok _ _ _ _ _ (append_flag_eq _ _)) in H1. cbv beta in H1.
    rewrite (bind_ok _ _ _ _ _ (alloc_eq _ _)) in H1. cbv beta in H1.
    cbn [heap_of validation_flags] in H1.
    set (h0 := heap_of st0) in *. set (li := fresh (dom h0)) in *.
    assert (Hli : h0 !! li = None) by apply alloc_fresh.
    assert (Hne : li <> d) by (intros ->; congruence).
    rewrite setitem_dict with (kvs := kvs0) in H1
      by (simpl; rewrite lookup_insert_ne by exact Hne; exact Hd0).
    injection H1 as <- <-. split; [reflexivity|]. split; [exact Hstep|].
    exists (dict_set "items" (PyRef li) kvs0), li, []. simpl.
    split; [apply lookup_insert_eq|]. split.
    { intros sec Hsec. destruct (String.eqb_spec sec "items") as [->|Hsi].
      - rewrite dict_lookup_set_eq. discriminate.
      - rewrite dict_lookup_set_ne by exact Hsi. apply Hin0. exact Hsec. }
    split; [apply dict_lookup_set_eq|].
    split; [rewrite lookup_insert_ne by congruence; apply lookup_insert_eq|].
    intros Hnone. split; [reflexivity|].
    exists (section_findings kvs "vendor" ++ section_findings kvs "invoice"
            ++ section_findings kvs "account")%list.
    rewrite Hfl0. unfold required_sections. simpl.
    unfold section_findings at 4. rewrite Hnone.
    rewrite !app_nil_r, <- !app_assoc. reflexivity.
Qed.

End BasicStructure2.

Section ValidateInvoice.

Local Open Scope string_scope.

Lemma py_copy_dict st l o :
  heap_of st !! l = Some o -> py_copy (PyRef l) st = alloc o st.
Proof. intros H. unfold py_copy, bind, read_heap. simpl. rewrite H. reflexivity. Qed.

Lemma data_types_ok st d dkvs r st' :
  heap_of st !! d = Some (PyDict dkvs) ->
  _validate_data_types (PyRef d) st = (inl r, st') ->
  step_ok coerced_keys st st' /\
  exists lr rkvs, r = PyRef lr /\ heap_of st !! lr = None /\
    heap_of st' !! lr = Some (PyDict rkvs) /\
    forall k, ~ In k coerced_keys -> dict_lookup k rkvs = dict_lookup k dkvs.
Proof.
  intros Hd H. split; [exact (preserves_validate_data_types _ _ _ _ H)|].
  unfold _validate_data_types in H.
  rewrite (bind_ok _ _ _ _ _ (eq_trans (py_copy_dict _ _ _ Hd) (alloc_eq _ _))) in H.
  cbv beta in H. cbn [heap_of validation_flags] in H.
  set (lr := fresh (dom (heap_of st))) in *.
  set (st1 := mkState (<[lr := PyDict dkvs]> (heap_of st)) (validation_flags st)) in H.
  match type of H with ?m _ = _ =>
    assert (P : preserves coerced_keys m) end.
  { repeat (pres_step || apply preserves_dict_get_opt || apply preserves_py_iter).
    - apply preserves_for_each. intros f Hf. apply preserves_coerce_field.
      unfold coerced_keys. right. apply in_app_iff. left. exact Hf.
    - apply preserves_for_each. intros it _. repeat pres_step.
      + apply preserves_clean_item_upc.
      + apply preserves_for_each. intros f Hf. apply preserves_coerce_field.
        unfold coerced_keys. right. apply in_app_iff. right. exact Hf. }
  destruct (P _ _ _ H) as [F _].
  assert (Hlr : heap_of st1 !! lr = Some (PyDict dkvs)) by apply lookup_insert_eq.
  destruct (F _ _ Hlr) as [o' [Ho' Go]]. destruct o' as [rkvs|xs]; [|contradiction].
  apply bind_inv in H as [[u1 [s1 [_ Hb]]]|[e [_ He]]]; [|discriminate].
  apply bind_inv in Hb as [[items [s2 [_ Hc]]]|[e [_ He]]]; [|discriminate].
  apply bind_inv in Hc as [[u2 [s3 [_ Hf]]]|[e [_ He]]]; [|discriminate].
  injection Hf as <- <-.
  exists lr, rkvs. split; [reflexivity|]. split; [apply alloc_fresh|].
  split; [exact Ho'|]. exact Go.
Qed.

Lemma try_reraise_ok {A} (m : M A) handler st x st' :
  try_reraise m handler st = (inl x, st') -> m st = (inl x, st').
Proof.
  unfold try_reraise. destruct (m st) as [[y|e] s]; [auto|].
  intros H. apply bind_inv in H as [[u [s1 [_ H2]]]|[e' [_ He]]]; discriminate.
Qed.

Lemma preserves_vendor_stage K (data : pyval) (vendor : string) :
  preserves K (if String.eqb vendor "lakeshore" then _validate_lakeshore data
               else if String.eqb vendor "breakthru" then _validate_breakthru data
               else if String.eqb vendor "southern_glazers" then _validate_southern_glazers data
               else ret tt).
Proof.
  unfold _validate_lakeshore, _validate_breakthru, _validate_southern_glazers.
  repeat (pres_step || apply preserves_check_required_fields).
Qed.

Lemma validate_invoice_ok st d kvs vendor r st' :
  heap_of st !! d = Some (PyDict kvs) ->
  validate_invoice (PyRef d) vendor st = (inl r, st') ->
  exists st1 kvs1 li xs,
    heap_of st1 !! d = Some (PyDict kvs1) /\
    (forall sec, In sec required_sections -> dict_lookup sec kvs1 <> None) /\
    dict_lookup "items" kvs1 = Some (PyRef li) /\
    heap_of st1 !! li = Some (PyList xs) /\
    (dict_lookup "items" kvs = None -> xs = []) /\
    frame required_sections (heap_of st) (heap_of st1) /\
    step_ok coerced_keys st1 st' /\
    exists lr rkvs, r = PyRef lr /\ heap_of st1 !! lr = None /\
      heap_of st' !! lr = Some (PyDict rkvs) /\
      forall k, ~ In k coerced_keys -> dict_lookup k rkvs = dict_lookup k kvs1.
Proof.
  intros Hd H. unfold validate_invoice in H. apply try_reraise_ok in H.
  set (st0 := mkState (heap_of st) []) in H.
  assert (Hd0 : heap_of st0 !! d = Some (PyDict kvs)) by exact Hd.
  apply bind_inv in H as [[u [st1 [H1 H2]]]|[e [H1 He]]].
  2:{ destruct (basic_structure_ok _ _ _ _ _ Hd0 H1) as [He' _]. discriminate. }
  destruct (basic_structure_ok _ _ _ _ _ Hd0 H1)
    as [_ [[F1 _] [kvs1 [li [xs [Hd1 [Hsec1 [Hi1 [Hli1 Hnone1]]]]]]]]].
  apply bind_inv in H2 as [[u2 [st2 [H3 H4]]]|[e [_ He]]]; [|discriminate].
  pose proof (preserves_vendor_stage coerced_keys _ _ _ _ _ H3) as S2.
  apply bind_inv in H4 as [[u3 [st3 [H5 H6]]]|[e [_ He]]]; [|discriminate].
  pose proof (preserves_business_rules coerced_keys _ _ _ _ H5) as S3.
  pose proof (step_ok_trans _ _ _ _ S2 S3) as S13.
  destruct S13 as [F13 _].
  destruct (F13 _ _ Hd1) as [o3 [Ho3 G3]]. destruct o3 as [kvs3|xs3]; [|contradiction].
  destruct (data_types_ok _ _ _ _ _ Ho3 H6) as [S4 [lr [rkvs [-> [Hlr3 [Hlr' Hr]]]]]].
  exists st1, kvs1, li, xs. split; [exact Hd1|]. split; [exact Hsec1|].
  split; [exact Hi1|]. split; [exact Hli1|].
  split; [intros Hn; exact (proj1 (Hnone1 Hn))|]. split; [exact F1|].
  split; [exact (step_ok_trans _ _ _ _ (step_ok_trans _ _ _ _ S2 S3) S4)|].
  exists lr, rkvs. split; [reflexivity|]. split; [exact (frame_dom _ _ _ _ F13 Hlr3)|].
  split; [exact Hlr'|]. intros k Hk. rewrite Hr by exact Hk. apply G3. exact Hk.
Qed.

(** Whatever [validate_invoice] ends with, the findings of the structure
    check stay at the front of the list. *)
Lemma validate_invoice_flags st d kvs vendor y st' :
  heap_of st !! d = Some (PyDict kvs) ->
  validate_invoice (PyRef d) vendor st = (y, st') ->
  exists st1, _validate_basic_structure (PyRef d) (mkState (heap_of st) []) = (inl tt, st1) /\
    exists post, validation_flags st' = (validation_flags st1 ++ post)%list.
Proof.
  intros Hd H. unfold validate_invoice, try_reraise in H.
  set (st0 := mkState (heap_of st) []) in H |- *.
  assert (Hd0 : heap_of st0 !! d = Some (PyDict kvs)) by exact Hd.
  destruct (_validate_basic_structure (PyRef d) st0) as [y1 st1] eqn:E1.
  destruct (basic_structure_ok _ _ _ _ _ Hd0 E1) as [-> _].
  exists st1. split; [reflexivity|].
  unfold bind at 1 in H. rewrite E1 in H.
  match type of H with
  | match ?m st1 with _ => _ end = _ =>
      assert (P : preserves coerced_keys m);
      [|destruct (m st1) as [[x|e] s] eqn:Em]
  end.
  - apply preserves_bind; [apply preserves_vendor_stage|intros _].
    apply preserves_bind; [apply preserves_business_rules|intros _].
    apply preserves_validate_data_types.
  - destruct (P _ _ _ Em) as [_ [ext Hext]]. injection H as _ <-. eauto.
  - destruct (P _ _ _ Em) as [_ [ext Hext]].
    rewrite (bind_ok _ _ _ _ _ (append_flag_eq _ _)) in H. injection H as _ <-.
    simpl. exists (ext ++ ["validation_error: " +++ exc_str e])%list.
    rewrite Hext, app_assoc. reflexivity.
Qed.

End ValidateInvoice.

Ltac not_in_keys :=
  let H := fresh in
  intros H; cbn [coerced_keys numeric_fields numeric_item_fields required_sections In app] in H;
  repeat (destruct H as [H|H]; [discriminate H|]); exact H.

Lemma sections_not_coerced sec : In sec required_sections -> ~ In sec coerced_keys.
Proof.
  intros Hs. cbn [required_sections In] in Hs.
  repeat (destruct Hs as [<-|Hs]; [not_in_keys|]). contradiction.
Qed.

Lemma existsb_eqb_In v l : existsb (String.eqb v) l = true <-> In v l.
Proof.
  rewrite existsb_exists. split.
  - intros [x [Hx E]]. apply String.eqb_eq in E. subst x. exact Hx.
  - intros Hv. exists v. split; [exact Hv|]. apply String.eqb_refl.
Qed.

Lemma item_finding_neg h xs i l kvs :
  nth_error xs i = Some (PyRef l) -> h !! l = Some (PyDict kvs) ->
  (item_finding h xs (neg_msg i) <-> negative_qty h kvs).
Proof.
  intros Hi Hl. split.
  - intros [k [l' [kvs' [Hk [Hl' [[E _]|[E Hn]]]]]]].
    + exfalso. exact (neg_msg_upc_msg _ _ E).
    + apply neg_msg_inj in E. subst k. rewrite Hi in Hk. injection Hk as <-.
      rewrite Hl in Hl'. injection Hl' as <-. exact Hn.
  - intros Hn. exists i, l, kvs. split; [exact Hi|]. split; [exact Hl|]. right. auto.
Qed.

Lemma item_finding_upc h xs i l kvs :
  nth_error xs i = Some (PyRef l) -> h !! l = Some (PyDict kvs) ->
  (item_finding h xs (upc_msg i) <-> upc_invalid h kvs = true).
Proof.
  intros Hi Hl. split.
  - intros [k [l' [kvs' [Hk [Hl' [[E Hu]|[E _]]]]]]].
    + apply upc_msg_inj in E. subst k. rewrite Hi in Hk. injection Hk as <-.
      rewrite Hl in Hl'. injection Hl' as <-. exact Hu.
    + exfalso. exact (neg_msg_upc_msg _ _ (eq_sym E)).
  - intros Hu. exists i, l, kvs. split; [exact Hi|]. split; [exact Hl|]. left. auto.
Qed.

Import Examples.

Local Open Scope string_scope.


(** C6 (code bug): the code means a tolerance of one cent ("$0.01
    tolerance for rounding differences"), but it compares the binary64
    difference with the binary64 [0.01].  Items summing to [100.00]
    against an invoice total of [100.01], one cent apart, record
    ["totals_mismatch"], whether the amounts are numbers or text:
    [abs(100.0 - 100.01)] is [0.010000000000005116], above [0.01]. *)
Theorem validate_totals_cent_mismatch :
  _validate_totals (PyRef 1) (mkState cent_total_heap []) =
    (inl tt, mkState cent_total_heap ["totals_mismatch"]) /\
  _validate_totals (PyRef 1) (mkState cent_text_heap []) =
    (inl tt, mkState cent_text_heap ["totals_mismatch"]) /\
  PrimFloat.ltb tolerance (PrimFloat.abs (PrimFloat.sub 100.0%float 100.01%float)) = true.
Proof. split; [|split]; vm_compute; reflexivity. Qed.

(** The totals check: on a normal return the heap is unchanged; nothing is
    recorded when ["items"] is absent or falsy; for a non-empty item list
    every item is a dict and the findings appended are exactly
    [totals_findings]: the first truthy of total_sales/gross_total, when
    present ([not None] and [!= "None"]), is converted by [float()];
    ["invalid_invoice_total"] when that raises [ValueError]/[TypeError],
    else ["totals_mismatch"] when the binary64 difference from the
    binary64 sum of the items' first truthy extended_amount/net_amount
    (present and convertible ones, in order, from [0.0]) exceeds [0.01]. *)
Theorem validate_totals_findings st d dkvs st' :
  heap_of st !! d = Some (PyDict dkvs) ->
  _validate_totals (PyRef d) st = (inl tt, st') ->
  heap_of st' = heap_of st /\
  ((match dict_lookup "items" dkvs with
    | None => True
    | Some v => truthy (heap_of st) v = false
    end) -> validation_flags st' = validation_flags st) /\
  (forall li xs, dict_lookup "items" dkvs = Some (PyRef li) ->
     heap_of st !! li = Some (PyList xs) -> xs <> [] ->
     exists kvss, Forall2 (dict_at (heap_of st)) xs kvss /\
       validation_flags st' = (validation_flags st ++ totals_findings (heap_of st) dkvs kvss)%list).
Proof. exact (validate_totals_ok st d dkvs st'). Qed.

Lemma validate_totals_findings_witness :
  cent_total_heap !! 1%positive =
    Some (PyDict [("items", PyRef 2); ("total_sales", PyFloat 100.01)]) /\
  _validate_totals (PyRef 1) (mkState cent_total_heap []) =
    (inl tt, mkState cent_total_heap ["totals_mismatch"]) /\
  exists kvss, Forall2 (dict_at cent_total_heap) [PyRef 3] kvss /\
    ["totals_mismatch"] = totals_findings cent_total_heap
      [("items", PyRef 2); ("total_sales", PyFloat 100.01)] kvss.
Proof.
  assert (Hd : heap_of (mkState cent_total_heap []) !! 1%positive =
    Some (PyDict [("items", PyRef 2); ("total_sales", PyFloat 100.01)])) by reflexivity.
  assert (E : _validate_totals (PyRef 1) (mkState cent_total_heap []) =
    (inl tt, mkState cent_total_heap ["totals_mismatch"])) by (vm_compute; reflexivity).
  split; [exact Hd|]. split; [exact E|].
  destruct (validate_totals_findings _ _ _ _ Hd E) as [_ [_ H]].
  exact (H 2%positive [PyRef 3] eq_refl eq_refl ltac:(discriminate)).
Defined.

(** C7 (counterexample): the quantity is the first truthy of
    qty/bottles/cases, so an item with [qty] 0 and [bottles] -5 is
    reported although its first present quantity, 0, is not negative. *)
Lemma business_rules_zero_qty :
  _validate_business_rules (PyRef 1) (mkState zero_qty_heap []) =
    (inl tt, mkState zero_qty_heap ["negative_quantity: item_0"]).
Proof. vm_compute. reflexivity. Qed.

(** C7 (amended): after a normal return of the business rules on a dict
    whose ["items"] is a list, ["negative_quantity: item_i"] has been
    recorded for the dict at position [i] exactly when the first truthy
    of its qty/bottles/cases is present and [float()] of it is negative
    (a [ValueError] or [TypeError] of the conversion skips the item). *)
Theorem business_rules_negative_quantity st st' d dkvs li xs i l kvs :
  heap_of st !! d = Some (PyDict dkvs) ->
  dict_lookup "items" dkvs = Some (PyRef li) ->
  heap_of st !! li = Some (PyList xs) ->
  _validate_business_rules (PyRef d) st = (inl tt, st') ->
  nth_error xs i = Some (PyRef l) ->
  heap_of st !! l = Some (PyDict kvs) ->
  (In (neg_msg i) (validation_flags st') <->
   In (neg_msg i) (validation_flags st) \/ negative_qty (heap_of st) kvs).
Proof.
  intros Hd Hi Hli H Hx Hl.
  destruct (business_rules_ok _ _ _ _ _ _ Hd Hi Hli H) as [_ [T [HT Hin]]].
  rewrite Hin, (item_finding_neg _ _ _ _ _ Hx Hl).
  split; [|intros [A|A]; auto].
  intros [A|[A|A]]; auto.
  exfalso. destruct (HT _ A) as [E|E];
    [exact (proj1 (neg_msg_totals i) E)|exact (proj2 (neg_msg_totals i) E)].
Qed.

Lemma business_rules_negative_quantity_witness :
  (In (neg_msg 0) ["negative_quantity: item_0"] <->
   In (neg_msg 0) [] \/ negative_qty zero_qty_heap
     [("qty", PyInt 0); ("bottles", PyInt (-5))]).
Proof.
  apply (business_rules_negative_quantity (mkState zero_qty_heap [])
           (mkState zero_qty_heap ["negative_quantity: item_0"]) 1 [("items", PyRef 2)]
           2 [PyRef 3] 0 3); reflexivity || (vm_compute; reflexivity).
Defined.

(** C8: after a normal return of the business rules on a dict whose
    ["items"] is a list, ["invalid_upc_format: item_i"] has been recorded
    for the dict at position [i] exactly when its UPC is truthy and the
    digits of [str(upc)] number neither 8 nor 12. *)
Theorem business_rules_invalid_upc st st' d dkvs li xs i l kvs :
  heap_of st !! d = Some (PyDict dkvs) ->
  dict_lookup "items" dkvs = Some (PyRef li) ->
  heap_of st !! li = Some (PyList xs) ->
  _validate_business_rules (PyRef d) st = (inl tt, st') ->
  nth_error xs i = Some (PyRef l) ->
  heap_of st !! l = Some (PyDict kvs) ->
  (In (upc_msg i) (validation_flags st') <->
   In (upc_msg i) (validation_flags st) \/ upc_invalid (heap_of st) kvs = true).
Proof.
  intros Hd Hi Hli H Hx Hl.
  destruct (business_rules_ok _ _ _ _ _ _ Hd Hi Hli H) as [_ [T [HT Hin]]].
  rewrite Hin, (item_finding_upc _ _ _ _ _ Hx Hl).
  split; [|intros [A|A]; auto].
  intros [A|[A|A]]; auto.
  exfalso. destruct (HT _ A) as [E|E];
    [exact (proj1 (upc_msg_totals i) E)|exact (proj2 (upc_msg_totals i) E)].
Qed.

(** On the spec's three boundary UPCs the 12-digit and the dash-separated
    ones are valid and the 5-digit one is reported. *)
Lemma business_rules_invalid_upc_witness :
  (In (upc_msg 0) ["invalid_upc_format: item_2"] <->
   In (upc_msg 0) [] \/ upc_invalid upc_heap [("upc", PyStr "123456789012")] = true) /\
  (In (upc_msg 1) ["invalid_upc_format: item_2"] <->
   In (upc_msg 1) [] \/ upc_invalid upc_heap [("upc", PyStr "1234-5678-9012")] = true) /\
  (In (upc_msg 2) ["invalid_upc_format: item_2"] <->
   In (upc_msg 2) [] \/ upc_invalid upc_heap [("upc", PyStr "12345")] = true) /\
  upc_invalid upc_heap [("upc", PyStr "123456789012")] = false /\
  upc_invalid upc_heap [("upc", PyStr "1234-5678-9012")] = false /\
  upc_invalid upc_heap [("upc", PyStr "12345")] = true.
Proof.
  assert (Hd : heap_of (mkState upc_heap []) !! 1%positive = Some (PyDict [("items", PyRef 2)]))
    by reflexivity.
  assert (E : _validate_business_rules (PyRef 1) (mkState upc_heap []) =
    (inl tt, mkState upc_heap ["invalid_upc_format: item_2"])) by (vm_compute; reflexivity).
  split; [apply (business_rules_invalid_upc _ _ _ _ 2 [PyRef 3; PyRef 4; PyRef 5] 0 3
                   _ Hd eq_refl eq_refl E eq_refl eq_refl)|].
  split; [apply (business_rules_invalid_upc _ _ _ _ 2 [PyRef 3; PyRef 4; PyRef 5] 1 4
                   _ Hd eq_refl eq_refl E eq_refl eq_refl)|].
  split; [apply (business_rules_invalid_upc _ _ _ _ 2 [PyRef 3; PyRef 4; PyRef 5] 2 5
                   _ Hd eq_refl eq_refl E eq_refl eq_refl)|].
  split; [reflexivity|]. split; reflexivity.
Defined.

(** Text is read by code point, as Python reads it: a UPC of eight
    fullwidth digits has eight digits, and the quantity ["-５"] converts
    to [-5.0]. *)
Lemma business_rules_code_point_examples :
  upc_invalid upc_heap [("upc", PyStr "１２３４-５６７８")] = false /\
  _validate_business_rules (PyRef 1) (mkState (invoice [] [[("qty", PyStr "-５")]]) []) =
    (inl tt, mkState (invoice [] [[("qty", PyStr "-５")]]) ["negative_quantity: item_0"]).
Proof. split; vm_compute; reflexivity. Qed.

(** C9: on a dict without ["items"], [validate_invoice] records
    ["missing_section: items"] immediately followed by ["items_not_list"]
    (whether or not a later stage raises), and a normal result's
    ["items"] is an empty list. *)
Theorem validate_invoice_items_absent st d kvs vendor y st' :
  heap_of st !! d = Some (PyDict kvs) ->
  dict_lookup "items" kvs = None ->
  validate_invoice (PyRef d) vendor st = (y, st') ->
  (exists pre post, validation_flags st' =
     (pre ++ ["missing_section: items"; "items_not_list"] ++ post)%list) /\
  (forall r, y = inl r -> exists lr rkvs li,
     r = PyRef lr /\ heap_of st' !! lr = Some (PyDict rkvs) /\
     dict_lookup "items" rkvs = Some (PyRef li) /\ heap_of st' !! li = Some (PyList [])).
Proof.
  intros Hd Hn H. split.
  - destruct (validate_invoice_flags _ _ _ _ _ _ Hd H) as [st1 [H1 [post Hpost]]].
    destruct (basic_structure_ok (mkState (heap_of st) []) _ _ _ _ Hd H1)
      as (_ & _ & kvs1 & li & xs & _ & _ & _ & _ & Hnone).
    destruct (Hnone Hn) as [_ [pre Hpre]].
    exists pre, post. rewrite Hpost, Hpre. simpl. rewrite <- app_assoc. reflexivity.
  - intros r ->.
    destruct (validate_invoice_ok _ _ _ _ _ _ Hd H)
      as (st1 & kvs1 & li & xs & Hd1 & _ & Hi & Hli & Hxs & _ & [F1 _] &
          lr & rkvs & -> & _ & Hlr & Hr).
    rewrite (Hxs Hn) in Hli.
    destruct (F1 _ _ Hli) as [o [Ho Go]]. destruct o as [|xs']; [contradiction|].
    cbn in Go. subst xs'.
    exists lr, rkvs, li. split; [reflexivity|]. split; [exact Hlr|].
    split; [|exact Ho].
    rewrite Hr; [exact Hi|]. apply sections_not_coerced. simpl. auto 6.
Qed.

Lemma validate_invoice_items_absent_witness :
  exists y st',
    validate_invoice (PyRef 1) "lakeshore" (mkState no_items_heap []) = (y, st') /\
    (exists pre post, validation_flags st' =
       (pre ++ ["missing_section: items"; "items_not_list"] ++ post)%list) /\
    (forall r, y = inl r -> exists lr rkvs li,
       r = PyRef lr /\ heap_of st' !! lr = Some (PyDict rkvs) /\
       dict_lookup "items" rkvs = Some (PyRef li) /\ heap_of st' !! li = Some (PyList [])).
Proof.
  assert (Hd : heap_of (mkState no_items_heap []) !! 1%positive =
    Some (PyDict [("vendor_name", PyStr "Lakeshore Beverage")])) by reflexivity.
  destruct (validate_invoice (PyRef 1) "lakeshore" (mkState no_items_heap [])) as [y st'] eqn:E.
  exists y, st'. split; [reflexivity|].
  exact (validate_invoice_items_absent _ _ _ _ _ _ Hd eq_refl E).
Defined.

(** C10: [parse_invoice] checks the file before the vendor: a file error
    is raised, with no collaborator called, whatever the vendor; and
    [parse_invoice] raises the unsupported-vendor error exactly when the
    file passes and the vendor is not one of the three, in which case no
    file is processed and no model is called. *)
Theorem parse_invoice_validation_order {image : Type} process_file call_model prompt_text
    loads cfg fs file_path vendor st :
  (forall e, validate_file cfg fs file_path = Some e ->
     parse_invoice image process_file call_model prompt_text loads cfg fs file_path vendor st =
       ([], inr (FileError e), st)) /\
  (forall trace v st',
     parse_invoice image process_file call_model prompt_text loads cfg fs file_path vendor st =
       (trace, inr (UnsupportedVendor v), st') <->
     validate_file cfg fs file_path = None /\ ~ In vendor supported_vendors /\
     trace = [] /\ v = vendor /\ st' = st).
Proof.
  split.
  - intros e He. unfold parse_invoice. rewrite He. reflexivity.
  - intros trace v st'. unfold parse_invoice.
    destruct (validate_file cfg fs file_path) as [e|].
    + split; [discriminate|]. intros [E _]. discriminate E.
    + destruct (existsb (String.eqb vendor) supported_vendors) eqn:Ex; cbn [negb].
      * split; [|intros [_ [Hn _]]; exfalso; apply Hn, existsb_eqb_In, Ex].
        unfold get_vendor_prompt. rewrite Ex.
        destruct (process_file file_path) as [images|]; [|discriminate].
        destruct (call_model images (prompt_text vendor)) as [raw|]; [|discriminate].
        destruct (_parse_json_response loads raw) as [parsed|e]; [|discriminate].
        destruct (attach_meta file_path vendor parsed st) as [[pd|e] s1]; [|discriminate].
        destruct (validate_invoice pd vendor s1) as [[vd|e] s2]; [|discriminate].
        destruct (after_validation vd s2) as [[v'|e] s3]; discriminate.
      * split.
        -- intros E. injection E as <- <- <-. split; [reflexivity|]. split; [|auto].
           intros Hin. apply existsb_eqb_In in Hin. congruence.
        -- intros [_ [_ [-> [-> ->]]]]. reflexivity.
Qed.

(* ================================================================== *)
(** ** Further properties of the code *)
(* ================================================================== *)

Lemma preserves_mono K K' {A} (m : M A) :
  (forall k, In k K -> In k K') -> preserves K m -> preserves K' m.
Proof.
  intros Hin P st y st' H. destruct (P _ _ _ H) as [F E].
  split; [exact (frame_mono _ _ _ _ Hin F)|exact E].
Qed.

Lemma preserves_validate_invoice_body K data vendor :
  (forall k, In k required_sections -> In k K) ->
  (forall k, In k coerced_keys -> In k K) ->
  preserves K
    (_validate_basic_structure data ;;;
     (if String.eqb vendor "lakeshore" then _validate_lakeshore data
      else if String.eqb vendor "breakthru" then _validate_breakthru data
      else if String.eqb vendor "southern_glazers" then _validate_southern_glazers data
      else ret tt) ;;;
     _validate_business_rules data ;;;
     _validate_data_types data).
Proof.
  intros H1 H2.
  apply preserves_bind; [exact (preserves_mono _ _ _ H1 (preserves_basic_structure data))|intros _].
  apply preserves_bind; [apply preserves_vendor_stage|intros _].
  apply preserves_bind; [apply preserves_business_rules|intros _].
  exact (preserves_mono _ _ _ H2 (preserves_validate_data_types data)).
Qed.

(** [validate_invoice], whatever its outcome, removes no object, changes
    no list, and changes a dict only under a required section name or a
    key it converts ([upc] and the numeric fields). *)
Theorem validate_invoice_frame data vendor st y st' :
  validate_invoice data vendor st = (y, st') ->
  frame (required_sections ++ coerced_keys) (heap_of st) (heap_of st').
Proof.
  intros H. unfold validate_invoice, try_reraise in H.
  assert (P := preserves_validate_invoice_body (required_sections ++ coerced_keys) data vendor
                 (fun k Hk => proj2 (in_app_iff _ _ _) (or_introl Hk))
                 (fun k Hk => proj2 (in_app_iff _ _ _) (or_intror Hk))).
  match type of H with
  | match ?m ?s with _ => _ end = _ => destruct (m s) as [[x|e] s1] eqn:E
  end.
  - injection H as _ <-. exact (proj1 (P _ _ _ E)).
  - rewrite (bind_ok _ _ _ _ _ (append_flag_eq _ _)) in H. injection H as _ <-.
    exact (proj1 (P _ _ _ E)).
Qed.

Lemma check_required_fields_eq fields st d kvs :
  heap_of st !! d = Some (PyDict kvs) ->
  check_required_fields fields (PyRef d) st =
    (inl tt, mkState (heap_of st)
               (validation_flags st ++ missing_fields (heap_of st) kvs fields)%list).
Proof.
  intros Hd. unfold check_required_fields, missing_fields.
  revert st Hd. induction fields as [|f fs IH]; intros st Hd.
  - simpl. rewrite app_nil_r. destruct st; reflexivity.
  - cbn [for_each]. unfold bind at 1.
    rewrite (bind_ok _ _ _ _ _ (dict_get_dict _ _ _ f Hd)).
    rewrite (bind_ok _ _ st (heap_of st) st) by reflexivity.
    destruct (truthy (heap_of st) (field kvs f)) eqn:Et; cbn [List.filter]; rewrite Et; cbn [negb].
    + exact (IH st Hd).
    + refine (eq_trans (IH (mkState (heap_of st) (validation_flags st ++ [_])%list) Hd) _).
      cbn [heap_of validation_flags map]. rewrite <- app_assoc. reflexivity.
Qed.

(** The vendor block of [validate_invoice] on a dict appends
    ["missing_required_field: f"] for exactly the vendor's required
    fields [f] whose [data.get(f)] is falsy, in the order of the field
    list, and changes nothing else; an unknown vendor records nothing. *)
Theorem vendor_checks_missing_fields st d kvs vendor :
  heap_of st !! d = Some (PyDict kvs) ->
  (if String.eqb vendor "lakeshore" then _validate_lakeshore (PyRef d)
   else if String.eqb vendor "breakthru" then _validate_breakthru (PyRef d)
   else if String.eqb vendor "southern_glazers" then _validate_southern_glazers (PyRef d)
   else ret tt) st =
  (inl tt, mkState (heap_of st)
             (validation_flags st ++
              missing_fields (heap_of st) kvs (vendor_required_fields vendor))%list).
Proof.
  intros Hd. unfold vendor_required_fields,
    _validate_lakeshore, _validate_breakthru, _validate_southern_glazers.
  destruct (String.eqb vendor "lakeshore"); [exact (check_required_fields_eq _ _ _ _ Hd)|].
  destruct (String.eqb vendor "breakthru"); [exact (check_required_fields_eq _ _ _ _ Hd)|].
  destruct (String.eqb vendor "southern_glazers"); [exact (check_required_fields_eq _ _ _ _ Hd)|].
  cbn. rewrite app_nil_r. destruct st; reflexivity.
Qed.

Lemma vendor_checks_missing_fields_witness :
  lakeshore_heap !! 1%positive =
    Some (PyDict [("items", PyRef 2); ("total_sales", PyFloat 100.01)]) /\
  _validate_lakeshore (PyRef 1) (mkState lakeshore_heap []) =
  (inl tt, mkState lakeshore_heap
     ["missing_required_field: vendor_name"; "missing_required_field: invoice_number";
      "missing_required_field: invoice_date"]).
Proof.
  assert (Hd : heap_of (mkState lakeshore_heap []) !! 1%positive =
    Some (PyDict [("items", PyRef 2); ("total_sales", PyFloat 100.01)])) by reflexivity.
  split; [exact Hd|].
  exact (vendor_checks_missing_fields _ _ _ "lakeshore" Hd).
Defined.

Lemma digits_only_idem s : digits_only (digits_only s) = digits_only s.
Proof.
  unfold digits_only at 1. rewrite digits_only_segments, filter_filter_idem. reflexivity.
Qed.

(** [_clean_upc] returns text made of [str.isdigit] code points only,
    cleaning its own output again changes nothing, and [_is_valid_upc]
    holds exactly when the cleaned text has 8 or 12 code points (a falsy
    UPC cleans to [""] and is invalid). *)
Theorem clean_upc_digits_idempotent upc st :
  exists c,
    _clean_upc upc st = (inl c, st) /\
    Forall (fun seg => is_digit_cp (fst seg) = true) (utf8_segments c) /\
    _clean_upc (PyStr c) st = (inl c, st) /\
    _is_valid_upc upc st =
      (inl (Nat.eqb (str_len c) 8 || Nat.eqb (str_len c) 12)%bool, st).
Proof.
  unfold _clean_upc, _is_valid_upc, bind, read_heap. cbn -[digits_only str_len].
  destruct (truthy (heap_of st) upc) eqn:Et; cbn -[digits_only str_len].
  - exists (digits_only (py_str (heap_of st) upc)). split; [reflexivity|].
    split.
    { rewrite digits_only_segments. apply List.Forall_forall.
      intros seg Hin. apply filter_In in Hin. exact (proj2 Hin). }
    split; [|reflexivity].
    destruct (String.eqb (digits_only (py_str (heap_of st) upc)) EmptyString) eqn:E;
      cbn -[digits_only str_len].
    + apply String.eqb_eq in E. rewrite E. reflexivity.
    + rewrite digits_only_idem. reflexivity.
  - exists EmptyString. split; [reflexivity|]. split; [constructor|]. split; reflexivity.
Qed.

Section Emits.

Variable P : string -> Prop.

Lemma emits_silent {A} (m : M A) :
  (forall st y st', m st = (y, st') -> validation_flags st' = validation_flags st) -> emits P m.
Proof.
  intros Hm st y st' H. exists []. rewrite app_nil_r. split; [exact (Hm _ _ _ H)|constructor].
Qed.

Lemma emits_ret {A} (x : A) : emits P (ret x).
Proof. apply emits_silent. intros st y st' H. injection H as _ <-. reflexivity. Qed.

Lemma emits_raise {A} e : emits P (@raise A e).
Proof. apply emits_silent. intros st y st' H. injection H as _ <-. reflexivity. Qed.

Lemma emits_read_heap : emits P read_heap.
Proof. apply emits_silent. intros st y st' H. injection H as _ <-. reflexivity. Qed.

Lemma emits_alloc o : emits P (alloc o).
Proof. apply emits_silent. intros st y st' H. injection H as _ <-. reflexivity. Qed.

Lemma emits_setitem c k v : emits P (setitem c k v).
Proof.
  apply emits_silent. intros st y st' H. unfold setitem in H.
  destruct c; try (injection H as _ <-; reflexivity).
  destruct (heap_of st !! l) as [[]|]; injection H as _ <-; reflexivity.
Qed.

Lemma emits_append_flag s : P s -> emits P (append_flag s).
Proof.
  intros Hs st y st' H. injection H as _ <-. exists [s]. split; [reflexivity|].
  constructor; [exact Hs|constructor].
Qed.

Lemma emits_bind {A B} (m : M A) (k : A -> M B) :
  emits P m -> (forall x, emits P (k x)) -> emits P (bind m k).
Proof.
  intros Hm Hk st y st'' H. apply bind_inv in H as [[x [st' [H1 H2]]]|[e [H1 _]]].
  - destruct (Hm _ _ _ H1) as [e1 [E1 F1]]. destruct (Hk _ _ _ _ H2) as [e2 [E2 F2]].
    exists (e1 ++ e2)%list. split; [rewrite E2, E1, app_assoc; reflexivity|].
    apply Forall_app. split; assumption.
  - exact (Hm _ _ _ H1).
Qed.

End Emits.

Lemma emits_mono (P Q : string -> Prop) {A} (m : M A) :
  (forall s, P s -> Q s) -> emits P m -> emits Q m.
Proof.
  intros HPQ Hm st y st' H. destruct (Hm _ _ _ H) as [ext [E F]].
  exists ext. split; [exact E|]. clear E. induction F; constructor; auto.
Qed.

Ltac emit_step :=
  match goal with
  | |- emits _ (bind _ _) => apply emits_bind; [|intros ?]
  | |- emits _ (ret _) => apply emits_ret
  | |- emits _ (raise _) => apply emits_raise
  | |- emits _ read_heap => apply emits_read_heap
  | |- emits _ (alloc _) => apply emits_alloc
  | |- emits _ (setitem _ _ _) => apply emits_setitem
  | |- emits _ (if ?b then _ else _) => destruct b
  | |- emits _ ?m => lazymatch m with context [match ?x with _ => _ end] => destruct x end
  end.

Section EmitsLoops.

Variable P : string -> Prop.

Lemma emits_dict_get v k : emits P (dict_get v k).
Proof. unfold dict_get. repeat emit_step. Qed.

Lemma emits_dict_get_opt v k : emits P (dict_get_opt v k).
Proof. unfold dict_get_opt. repeat emit_step. Qed.

Lemma emits_py_contains k c : emits P (py_contains k c).
Proof. unfold py_contains. repeat emit_step. Qed.

Lemma emits_getitem c k : emits P (getitem c k).
Proof. unfold getitem. repeat emit_step. Qed.

Lemma emits_py_iter c : emits P (py_iter c).
Proof. unfold py_iter. repeat emit_step. Qed.

Lemma emits_py_copy c : emits P (py_copy c).
Proof. unfold py_copy. repeat emit_step. Qed.

Lemma emits_is_valid_upc v : emits P (_is_valid_upc v).
Proof. unfold _is_valid_upc. repeat emit_step. Qed.

Lemma emits_clean_upc v : emits P (_clean_upc v).
Proof. unfold _clean_upc. repeat emit_step. Qed.

Lemma emits_py_or a b : emits P a -> emits P b -> emits P (py_or a b).
Proof. intros Ha Hb. unfold py_or. repeat emit_step; assumption. Qed.

Lemma emits_for_each {A} (xs : list A) body :
  (forall x, In x xs -> emits P (body x)) -> emits P (for_each xs body).
Proof.
  intros Hb. induction xs as [|a xs IH]; simpl; repeat emit_step.
  - apply Hb. left. reflexivity.
  - apply IH. intros z Hz. apply Hb. right. exact Hz.
Qed.

Lemma emits_for_each_i {A} i (xs : list A) body :
  (forall i x, emits P (body i x)) -> emits P (for_each_i i xs body).
Proof. intros Hb. revert i. induction xs; intros i; simpl; repeat emit_step; auto. Qed.

Lemma emits_fold_m {A B} (xs : list A) (body : B -> A -> M B) acc :
  (forall acc x, emits P (body acc x)) -> emits P (fold_m xs body acc).
Proof. intros Hb. revert acc. induction xs; intros acc; simpl; repeat emit_step; auto. Qed.

End EmitsLoops.

Ltac emit_prims :=
  repeat (emit_step || apply emits_dict_get || apply emits_dict_get_opt || apply emits_py_contains
          || apply emits_getitem || apply emits_py_iter || apply emits_py_copy
          || apply emits_is_valid_upc || apply emits_clean_upc || apply emits_py_or).

Lemma emits_basic_structure data :
  emits (validator_flag "") (_validate_basic_structure data).
Proof.
  unfold _validate_basic_structure. emit_prims.
  - apply emits_for_each. intros sec Hsec. emit_prims.
    apply emits_append_flag. left. exists sec. auto.
  - apply emits_append_flag. right. left. reflexivity.
Qed.

Lemma validator_flag_vendor_indep vendor s :
  validator_flag "" s -> validator_flag vendor s.
Proof.
  unfold validator_flag. intros [H|[H|[[f [Hf _]]|H]]]; auto. contradiction.
Qed.

Lemma emits_vendor_stage data vendor :
  emits (validator_flag vendor)
    (if String.eqb vendor "lakeshore" then _validate_lakeshore data
     else if String.eqb vendor "breakthru" then _validate_breakthru data
     else if String.eqb vendor "southern_glazers" then _validate_southern_glazers data
     else ret tt).
Proof.
  assert (Hc : forall fields, (forall f, In f fields -> In f (vendor_required_fields vendor)) ->
            emits (validator_flag vendor) (check_required_fields fields data)).
  { intros fields Hin. unfold check_required_fields. apply emits_for_each.
    intros f Hf. emit_prims. apply emits_append_flag.
    right. right. left. exists f. split; [exact (Hin _ Hf)|reflexivity]. }
  unfold _validate_lakeshore, _validate_breakthru, _validate_southern_glazers.
  destruct (String.eqb vendor "lakeshore") eqn:E1;
    [apply Hc; unfold vendor_required_fields; rewrite E1; auto|].
  destruct (String.eqb vendor "breakthru") eqn:E2;
    [apply Hc; unfold vendor_required_fields; rewrite E1, E2; auto|].
  destruct (String.eqb vendor "southern_glazers") eqn:E3;
    [apply Hc; unfold vendor_required_fields; rewrite E1, E2, E3; auto|].
  apply emits_ret.
Qed.

Lemma emits_business_rules data :
  emits (validator_flag "") (_validate_business_rules data).
Proof.
  unfold _validate_business_rules. emit_prims.
  - apply emits_for_each_i. intros i it. unfold check_item. emit_prims;
      apply emits_append_flag; unfold validator_flag; eauto 10.
  - unfold _validate_totals. emit_prims.
    + apply emits_fold_m. intros acc it. unfold add_item_amount. emit_prims.
    + apply emits_append_flag. unfold validator_flag. auto 10.
    + apply emits_append_flag. unfold validator_flag. auto 10.
Qed.

Lemma emits_data_types data :
  emits (validator_flag "") (_validate_data_types data).
Proof.
  unfold _validate_data_types. emit_prims.
  - apply emits_for_each. intros f Hf. unfold coerce_field. emit_prims.
    apply emits_append_flag. unfold validator_flag. right. right. right. right. right. right. right.
    exists f. auto.
  - apply emits_for_each. intros it _. emit_prims.
    + unfold clean_item_upc. emit_prims.
    + apply emits_for_each. intros f _. unfold coerce_field. emit_prims.
Qed.

Lemma emits_validate_invoice_body data vendor :
  emits (validator_flag vendor)
    (_validate_basic_structure data ;;;
     (if String.eqb vendor "lakeshore" then _validate_lakeshore data
      else if String.eqb vendor "breakthru" then _validate_breakthru data
      else if String.eqb vendor "southern_glazers" then _validate_southern_glazers data
      else ret tt) ;;;
     _validate_business_rules data ;;;
     _validate_data_types data).
Proof.
  apply emits_bind;
    [exact (emits_mono _ _ _ (validator_flag_vendor_indep vendor) (emits_basic_structure data))|intros _].
  apply emits_bind; [apply emits_vendor_stage|intros _].
  apply emits_bind;
    [exact (emits_mono _ _ _ (validator_flag_vendor_indep vendor) (emits_business_rules data))|intros _].
  exact (emits_mono _ _ _ (validator_flag_vendor_indep vendor) (emits_data_types data)).
Qed.

Lemma validate_invoice_outcome data vendor st y st' :
  validate_invoice data vendor st = (y, st') ->
  match y with
  | inl _ => Forall (validator_flag vendor) (validation_flags st')
  | inr e => exists fl, validation_flags st' = (fl ++ ["validation_error: " +++ exc_str e])%list /\
                        Forall (validator_flag vendor) fl
  end.
Proof.
  intros H. unfold validate_invoice, try_reraise in H.
  pose proof (emits_validate_invoice_body data vendor) as Em.
  match type of H with
  | match ?m ?s with _ => _ end = _ => destruct (m s) as [[x|e] s1] eqn:E
  end.
  - injection H as <- <-. destruct (Em _ _ _ E) as [ext [Ext F]]. rewrite Ext. exact F.
  - rewrite (bind_ok _ _ _ _ _ (append_flag_eq _ _)) in H. injection H as <- <-.
    destruct (Em _ _ _ E) as [ext [Ext F]]. exists ext. split; [|exact F].
    cbn [validation_flags]. rewrite Ext. reflexivity.
Qed.

(** Every finding [validate_invoice] records is one of its stages'
    findings for the vendor given (so a vendor outside the three gets no
    ["missing_required_field"] finding); when it raises, the findings end
    with the one ["validation_error: ..."] finding of its handler, and a
    normal return records none. *)
Theorem validate_invoice_findings data vendor st y st' :
  validate_invoice data vendor st = (y, st') ->
  match y with
  | inl _ => Forall (validator_flag vendor) (validation_flags st')
  | inr e => exists fl, validation_flags st' = (fl ++ ["validation_error: " +++ exc_str e])%list /\
                        Forall (validator_flag vendor) fl
  end.
Proof. exact (validate_invoice_outcome data vendor st y st'). Qed.

Lemma basic_structure_non_dict data st y st1 :
  (forall kvs, ~ dict_at (heap_of st) data kvs) ->
  _validate_basic_structure data st = (y, st1) ->
  exists e, y = inr e.
Proof.
  intros Hnd H. unfold _validate_basic_structure in H.
  apply bind_inv in H as [[u [s [H1 H2]]]|[e [_ ->]]]; [|eauto].
  assert (Hs : forall kvs, ~ dict_at (heap_of s) data kvs).
  { intros kvs [l [-> Hl]].
    destruct (heap_of st !! l) as [o|] eqn:Ho.
    - match type of H1 with ?m _ = _ => assert (Pf : preserves required_sections m) end.
      { apply preserves_for_each. intros sec Hsec.
        repeat (pres_step || apply preserves_py_contains). apply preserves_setitem. exact Hsec. }
      destruct (proj1 (Pf _ _ _ H1) _ _ Ho) as [o' [Ho' G]].
      rewrite Hl in Ho'. injection Ho' as <-.
      destruct o as [kvs0|xs]; [exact (Hnd kvs0 (ex_intro _ l (conj eq_refl Ho)))|contradiction].
    - assert (Hpc : py_contains "vendor" (PyRef l) st = (inr (TypeError ("argument of type 'object' is not iterable")), st)).
      { unfold py_contains, bind, read_heap. cbn. rewrite Ho. reflexivity. }
      cbn [for_each required_sections] in H1.
      rewrite (bind_err _ _ _ _ _ (bind_err _ _ _ _ _ Hpc)) in H1. discriminate H1. }
  rewrite (bind_err _ _ _ _ _ (dict_get_not_dict _ _ _ Hs)) in H2.
  injection H2 as <- _. eauto.
Qed.

(** [validate_invoice] raises on any argument that is not a dict: a
    scalar, a string, a list, even one holding the four section names. *)
Theorem validate_invoice_rejects_non_dict data vendor st y st' :
  (forall kvs, ~ dict_at (heap_of st) data kvs) ->
  validate_invoice data vendor st = (y, st') ->
  exists e, y = inr e.
Proof.
  intros Hnd H. unfold validate_invoice, try_reraise in H.
  unfold bind at 1 in H.
  destruct (_validate_basic_structure data (mkState (heap_of st) [])) as [y1 s1] eqn:E.
  destruct (basic_structure_non_dict _ (mkState (heap_of st) []) _ _ Hnd E) as [e ->].
  cbv beta iota zeta in H. rewrite (bind_ok _ _ _ _ _ (append_flag_eq _ _)) in H. injection H as <- _. eauto.
Qed.

Lemma validate_invoice_rejects_non_dict_witness :
  let h := <[1%positive := PyList [PyStr "vendor"; PyStr "invoice"; PyStr "account";
                                   PyStr "items"]]> (∅ : heap) in
  (forall kvs, ~ dict_at h (PyRef 1) kvs) /\
  exists e, fst (validate_invoice (PyRef 1) "lakeshore" (mkState h [])) = inr e.
Proof.
  intros h.
  assert (Hnd : forall kvs, ~ dict_at (heap_of (mkState h [])) (PyRef 1) kvs).
  { intros kvs [l [E Hl]]. injection E as <-. vm_compute in Hl. discriminate Hl. }
  split; [exact Hnd|].
  destruct (validate_invoice (PyRef 1) "lakeshore" (mkState h [])) as [y st'] eqn:E.
  exact (validate_invoice_rejects_non_dict _ _ _ _ _ Hnd E).
Defined.

(** On a normal return from a dict, the record [validate_invoice]
    returns has each of the sections [vendor], [invoice], [account] and
    [items], and its [items] is a list. *)
Theorem validate_invoice_result_sections st d kvs vendor r st' :
  heap_of st !! d = Some (PyDict kvs) ->
  validate_invoice (PyRef d) vendor st = (inl r, st') ->
  exists lr rkvs li xs,
    r = PyRef lr /\ heap_of st' !! lr = Some (PyDict rkvs) /\
    (forall sec, In sec required_sections -> dict_lookup sec rkvs <> None) /\
    dict_lookup "items" rkvs = Some (PyRef li) /\ heap_of st' !! li = Some (PyList xs).
Proof.
  intros Hd H.
  destruct (validate_invoice_ok _ _ _ _ _ _ Hd H)
    as (st1 & kvs1 & li & xs & Hd1 & Hsec & Hi & Hli & _ & _ & [F1 _] &
        lr & rkvs & -> & _ & Hlr & Hr).
  destruct (F1 _ _ Hli) as [o [Ho Go]]. destruct o as [|xs']; [contradiction|].
  exists lr, rkvs, li, xs'. split; [reflexivity|]. split; [exact Hlr|].
  split.
  { intros sec Hs. rewrite Hr by exact (sections_not_coerced _ Hs). exact (Hsec _ Hs). }
  split; [|exact Ho].
  rewrite Hr; [exact Hi|]. apply sections_not_coerced. simpl. auto 6.
Qed.

Lemma validate_invoice_result_sections_witness :
  exists r st',
  no_items_heap !! 1%positive = Some (PyDict [("vendor_name", PyStr "Lakeshore Beverage")]) /\
  validate_invoice (PyRef 1) "breakthru" (mkState no_items_heap []) = (inl r, st') /\
  exists lr rkvs li xs,
    r = PyRef lr /\ heap_of st' !! lr = Some (PyDict rkvs) /\
    (forall sec, In sec required_sections -> dict_lookup sec rkvs <> None) /\
    dict_lookup "items" rkvs = Some (PyRef li) /\ heap_of st' !! li = Some (PyList xs).
Proof.
  assert (Hd : heap_of (mkState no_items_heap []) !! 1%positive =
    Some (PyDict [("vendor_name", PyStr "Lakeshore Beverage")])) by reflexivity.
  destruct (validate_invoice (PyRef 1) "breakthru" (mkState no_items_heap [])) as [y st'] eqn:E.
  destruct y as [r|e]; [|vm_compute in E; discriminate E].
  exists r, st'. split; [exact Hd|]. split; [reflexivity|].
  exact (validate_invoice_result_sections _ _ _ _ _ _ Hd E).
Defined.


(** ** [InvoiceParser.parse_invoice] and [batch_parse] *)

Section BatchFacts.

Variable image : Type.
Variable process_file : string -> option (list image).
Variable call_model : list image -> string -> option string.
Variable prompt_text : string -> string.
Variable loads : string -> option json.
Variable cfg : config.
Variable fs : file_system.

Lemma parse_invoice_rejected p vendor st :
  validate_file cfg fs p <> None \/ ~ In vendor supported_vendors ->
  exists e, parse_invoice image process_file call_model prompt_text loads cfg fs p vendor st
            = ([], inr e, st).
Proof.
  intros Hr. unfold parse_invoice.
  destruct (validate_file cfg fs p) as [e|]; [eauto|].
  destruct Hr as [Hr|Hv]; [congruence|].
  destruct (existsb (String.eqb vendor) supported_vendors) eqn:E; [|eauto].
  apply existsb_eqb_In in E. contradiction.
Qed.

(** [batch_parse] over two lists of paths is the batch over the first
    followed by the batch over the second on the state it leaves: traces
    and results are concatenated. *)
Theorem batch_parse_app ps1 ps2 vendor st :
  batch_parse image process_file call_model prompt_text loads cfg fs (ps1 ++ ps2) vendor st =
  let '(t1, r1, st1) := batch_parse image process_file call_model prompt_text loads cfg fs ps1 vendor st in
  let '(t2, r2, st2) := batch_parse image process_file call_model prompt_text loads cfg fs ps2 vendor st1 in
  ((t1 ++ t2)%list, (r1 ++ r2)%list, st2).
Proof.
  revert st. induction ps1 as [|p ps1 IH]; intros st; simpl.
  - destruct (batch_parse image process_file call_model prompt_text loads cfg fs ps2 vendor st)
      as [[t2 r2] st2]. reflexivity.
  - destruct (parse_invoice image process_file call_model prompt_text loads cfg fs p vendor st)
      as [[t1 r] st1].
    rewrite IH.
    destruct (batch_parse image process_file call_model prompt_text loads cfg fs ps1 vendor st1)
      as [[ta ra] sta].
    destruct (batch_parse image process_file call_model prompt_text loads cfg fs ps2 vendor sta)
      as [[tb rb] stb].
    rewrite app_assoc. destruct r; reflexivity.
Qed.

(** Files [validate_file] rejects are skipped by [batch_parse] without a
    trace: the batch is the batch over the accepted files alone. *)
Theorem batch_parse_skips_rejected ps vendor st :
  batch_parse image process_file call_model prompt_text loads cfg fs ps vendor st =
  batch_parse image process_file call_model prompt_text loads cfg fs
    (List.filter (fun p => match validate_file cfg fs p with None => true | Some _ => false end) ps)
    vendor st.
Proof.
  revert st. induction ps as [|p ps IH]; intros st; [reflexivity|].
  cbn [List.filter]. destruct (validate_file cfg fs p) eqn:Ev.
  - assert (Hr : validate_file cfg fs p <> None) by (rewrite Ev; discriminate).
    destruct (parse_invoice_rejected p vendor st (or_introl Hr)) as [e He].
    simpl. rewrite He. rewrite <- IH.
    destruct (batch_parse image process_file call_model prompt_text loads cfg fs ps vendor st)
      as [[t2 r2] st2]. reflexivity.
  - simpl. destruct (parse_invoice image process_file call_model prompt_text loads cfg fs p vendor st)
      as [[t1 r] st1].
    rewrite IH. reflexivity.
Qed.

(** For a vendor outside [lakeshore], [breakthru] and [southern_glazers],
    [batch_parse] makes no collaborator call, returns no result and leaves
    the state as it was. *)
Theorem batch_parse_unsupported_vendor ps vendor st :
  ~ In vendor supported_vendors ->
  batch_parse image process_file call_model prompt_text loads cfg fs ps vendor st = ([], [], st).
Proof.
  intros Hv. induction ps as [|p ps IH]; [reflexivity|].
  simpl. destruct (parse_invoice_rejected p vendor st (or_intror Hv)) as [e ->].
  rewrite IH. reflexivity.
Qed.

End BatchFacts.

Lemma batch_parse_unsupported_vendor_witness :
  ~ In "acme" supported_vendors /\
  batch_parse unit (fun _ => Some [tt]) (fun _ _ => Some "{}") (fun v => v) (fun _ => None)
    default_config (fun _ => Some 1000) ["a.pdf"; "b.png"] "acme" (mkState ∅ [])
  = ([], [], mkState ∅ []).
Proof.
  assert (Hv : ~ In "acme" supported_vendors).
  { intros Hin. apply (proj2 (existsb_eqb_In _ _)) in Hin. vm_compute in Hin. discriminate Hin. }
  split; [exact Hv|].
  exact (batch_parse_unsupported_vendor _ _ _ _ _ _ _ _ _ _ Hv).
Defined.


(** ** [Config.validate_file] and [FileProcessor.process_file] *)

(** Under the default configuration [validate_file] accepts exactly the
    existing paths of at most 20 MB (20 * 1024 * 1024 bytes) whose suffix,
    in any letter case, is [.pdf], [.png], [.jpg] or [.jpeg]. *)
Lemma validate_file_default_accepts fs p :
  validate_file default_config fs p = None <->
  exists size, fs (path_str p) = Some size /\ size <= 20971520 /\
    In (PyFloat.lower_str (path_suffix p)) [".pdf"; ".png"; ".jpg"; ".jpeg"].
Proof.
  unfold validate_file. simpl supported_formats. simpl max_file_size_mb.
  destruct (fs (path_str p)) as [size|]; split.
  - destruct (existsb (String.eqb (PyFloat.lower_str (path_suffix p))) [".pdf"; ".png"; ".jpg"; ".jpeg"])
      eqn:E; [|discriminate]. simpl negb.
    destruct (20 * 1048576 <? size)%Z eqn:L; [discriminate|]. intros _.
    exists size. split; [reflexivity|]. split; [apply Z.ltb_ge in L; lia|].
    apply existsb_eqb_In. exact E.
  - intros (sz & Es & L & Hin). injection Es as <-.
    rewrite (proj2 (existsb_eqb_In _ _) Hin). simpl negb.
    destruct (20 * 1048576 <? size)%Z eqn:L'; [apply Z.ltb_lt in L'; lia|reflexivity].
  - discriminate.
  - intros (sz & Es & _). discriminate.
Qed.

(** Every file [validate_file] accepts under the default configuration
    has a loader in [FileProcessor.process_file]: its "Unsupported file
    format" error is never reached after the check. *)
Theorem validate_file_routes fs p :
  validate_file default_config fs p = None -> process_file_route p <> None.
Proof.
  intros H. apply validate_file_default_accepts in H as (size & _ & _ & Hin).
  unfold process_file_route.
  simpl in Hin. destruct Hin as [E|[E|[E|[E|[]]]]]; rewrite <- E; discriminate.
Qed.

Lemma validate_file_routes_witness :
  validate_file default_config (fun _ => Some 5000) "Invoices/March.JPeG" = None /\
  process_file_route "Invoices/March.JPeG" <> None.
Proof.
  assert (H : validate_file default_config (fun _ => Some 5000) "Invoices/March.JPeG" = None)
    by reflexivity.
  split; [exact H|]. exact (validate_file_routes _ _ H).
Defined.

(** A path whose name ([PurePath.name], its last part) has no dot after
    its first character (a hidden file such as [.pdf]) or ends in a dot
    has no suffix, and an existing such path is refused as an unsupported
    format. *)
Theorem validate_file_no_suffix fs p size :
  fs (path_str p) = Some size ->
  (rfind "." (path_name p) <= 0 \/
   rfind "." (path_name p) = Z.of_nat (String.length (path_name p)) - 1) ->
  validate_file default_config fs p = Some UnsupportedFileFormat.
Proof.
  intros Hs Hr. unfold validate_file. rewrite Hs.
  assert (E : path_suffix p = EmptyString).
  { unfold path_suffix.
    destruct Hr as [Hr|Hr].
    - replace ((0 <? rfind "." (path_name p))%Z) with false by (symmetry; apply Z.ltb_ge; lia).
      reflexivity.
    - rewrite Hr. rewrite (proj2 (Z.ltb_ge _ _) (Z.le_refl _)), andb_false_r. reflexivity. }
  rewrite E. reflexivity.
Qed.

Lemma validate_file_no_suffix_witness :
  validate_file default_config (fun _ => Some 10) "scans/.pdf/" = Some UnsupportedFileFormat /\
  validate_file default_config (fun _ => Some 10) "scans/inv.pdf." = Some UnsupportedFileFormat.
Proof.
  split.
  - apply (validate_file_no_suffix _ _ 10); [reflexivity|left; vm_compute; discriminate].
  - apply (validate_file_no_suffix _ _ 10); [reflexivity|right; reflexivity].
Defined.


(** ** The markdown cleanup of [_parse_json_response] *)

Lemma append_cons d a b : String d a +++ b = String d (a +++ b).
Proof. reflexivity. Qed.

Lemma append_assoc_str a b c : (a +++ b) +++ c = a +++ (b +++ c).
Proof. induction a as [|d a IH]; [reflexivity|]. rewrite !append_cons, IH. reflexivity. Qed.

Lemma rev_str_append a b acc : rev_str (a +++ b) acc = rev_str b (rev_str a acc).
Proof. revert acc. induction a as [|d a IH]; intros acc; [reflexivity|]. rewrite append_cons. simpl. apply IH. Qed.

Lemma rev_str_rev_str s acc acc2 : rev_str (rev_str s acc) acc2 = rev_str acc (s +++ acc2).
Proof. revert acc. induction s as [|d s IH]; intros acc; [reflexivity|]. simpl. rewrite append_cons. apply IH. Qed.

Lemma rstrip_by_keep p s c : p c = false -> rstrip_by p (s +++ char c) = s +++ char c.
Proof.
  intros Hc. unfold rstrip_by. rewrite rev_str_append. simpl. rewrite Hc.
  cbn [rev_str]. rewrite rev_str_rev_str. reflexivity.
Qed.

Lemma endswith_append a p : endswith p (a +++ p) = true.
Proof.
  unfold endswith. rewrite length_append.
  replace (String.length a + String.length p - String.length p)%nat with (String.length a) by lia.
  rewrite drop_append_length, String.eqb_refl, andb_true_r.
  apply Nat.leb_le. lia.
Qed.

Lemma take_append_length a b : take (String.length a) (a +++ b) = a.
Proof. induction a as [|d a IH]; [reflexivity|]. rewrite append_cons. simpl. rewrite IH. reflexivity. Qed.

Lemma prefix_append a b : String.prefix a (a +++ b) = true.
Proof.
  induction a as [|d a IH]; [destruct b; reflexivity|].
  rewrite append_cons. simpl. destruct (ascii_dec d d); [exact IH|contradiction].
Qed.

(** A response wrapped in a [```json ... ```] fence is cleaned to its
    body with surrounding whitespace stripped. *)
Theorem clean_markdown_fenced s :
  clean_markdown ("```json" +++ s +++ "```") = strip s.
Proof.
  unfold clean_markdown.
  assert (E0 : strip ("```json" +++ s +++ "```") = "```json" +++ s +++ "```").
  { replace ("```json" +++ s +++ "```") with (String "`" (("``json" +++ s +++ "``") +++ char "`"))
      by (rewrite !append_assoc_str; reflexivity).
    apply strip_keep_ends; reflexivity. }
  rewrite E0. unfold startswith. rewrite prefix_append.
  change (drop 7 ("```json" +++ s +++ "```")) with
    (drop (String.length "```json") ("```json" +++ (s +++ "```"))).
  rewrite drop_append_length, endswith_append, length_append.
  replace (String.length s + String.length "```" - 3)%nat with (String.length s)
    by (simpl; lia).
  rewrite take_append_length. reflexivity.
Qed.


(** ** The metadata block of [parse_invoice] *)

Section DictFrame.

Variable K : list string.

Lemma dict_frame_refl h : dict_frame K h h.
Proof. intros l kvs H. exists kvs. split; [exact H|reflexivity]. Qed.

Lemma dict_frame_trans h1 h2 h3 : dict_frame K h1 h2 -> dict_frame K h2 h3 -> dict_frame K h1 h3.
Proof.
  intros F1 F2 l kvs H. destruct (F1 _ _ H) as [kvs2 [H2 G2]].
  destruct (F2 _ _ H2) as [kvs3 [H3 G3]]. exists kvs3. split; [exact H3|].
  intros k Hk. rewrite G3, G2 by exact Hk. reflexivity.
Qed.

Lemma frame_dict_frame h h' : frame K h h' -> dict_frame K h h'.
Proof.
  intros F l kvs H. destruct (F _ _ H) as [o [Ho G]]. destruct o as [kvs'|xs']; [|contradiction].
  exists kvs'. split; [exact Ho|exact G].
Qed.

Lemma keeps_preserves {A} (m : M A) : preserves K m -> keeps_dicts K m.
Proof. intros P st y st' H. exact (frame_dict_frame _ _ (proj1 (P _ _ _ H))). Qed.

Lemma keeps_bind {A B} (m : M A) (k : A -> M B) :
  keeps_dicts K m -> (forall x, keeps_dicts K (k x)) -> keeps_dicts K (bind m k).
Proof.
  intros Hm Hk st y st'' H. apply bind_inv in H as [[x [st' [H1 H2]]]|[e [H1 _]]].
  - exact (dict_frame_trans _ _ _ (Hm _ _ _ H1) (Hk _ _ _ _ H2)).
  - exact (Hm _ _ _ H1).
Qed.

Lemma keeps_list_append lst v : keeps_dicts K (list_append lst v).
Proof.
  intros st y st' H. unfold list_append in H.
  destruct lst as [| | | | |l]; try (injection H as _ <-; apply dict_frame_refl).
  destruct (heap_of st !! l) as [[kvs|xs]|] eqn:E; try (injection H as _ <-; apply dict_frame_refl).
  injection H as _ <-. simpl. intros l' kvs' H'.
  exists kvs'. split; [|reflexivity].
  rewrite lookup_insert_ne; [exact H'|]. intros <-. congruence.
Qed.

Lemma keeps_get_flags : keeps_dicts K get_flags.
Proof. intros st y st' H. injection H as _ <-. apply dict_frame_refl. Qed.

Lemma keeps_py_len v : keeps_dicts K (py_len v).
Proof.
  apply keeps_preserves. unfold py_len. repeat pres_step.
Qed.

End DictFrame.

Lemma returns_bind {A B} (Q : B -> Prop) (m : M A) (k : A -> M B) :
  (forall x, returns Q (k x)) -> returns Q (bind m k).
Proof.
  intros Hk st z st'' H. apply bind_inv in H as [[x [st' [_ H2]]]|[e [_ He]]].
  - exact (Hk _ _ _ _ H2).
  - discriminate.
Qed.

Ltac keep_step :=
  match goal with
  | |- keeps_dicts _ (bind _ _) => apply keeps_bind; [|intros ?]
  | |- keeps_dicts _ get_flags => apply keeps_get_flags
  | |- keeps_dicts _ (list_append _ _) => apply keeps_list_append
  | |- keeps_dicts _ (py_len _) => apply keeps_py_len
  | |- keeps_dicts _ (setitem _ _ _) => apply keeps_preserves, preserves_setitem; simpl; tauto
  | |- keeps_dicts _ (if ?b then _ else _) => destruct b
  | |- keeps_dicts _ (match ?x with _ => _ end) => destruct x
  | |- keeps_dicts _ _ => apply keeps_preserves;
                          first [ apply preserves_ret | apply preserves_read_heap
                                | apply preserves_alloc | apply preserves_getitem
                                | apply preserves_dict_get_opt | apply preserves_py_contains
                                | apply preserves_append_flag ]
  end.

Lemma alloc_json_ref j st l st' :
  alloc_json j st = (inl (PyRef l), st') -> heap_of st' !! l <> None.
Proof.
  destruct j; simpl; try discriminate.
  - intros H. apply bind_inv in H as [[vs [s1 [_ H2]]]|[e [_ He]]]; [|discriminate].
    rewrite alloc_eq in H2. injection H2 as <- <-. simpl. rewrite lookup_insert_eq. discriminate.
  - intros H. apply bind_inv in H as [[vs [s1 [_ H2]]]|[e [_ He]]]; [|discriminate].
    rewrite alloc_eq in H2. injection H2 as <- <-. simpl. rewrite lookup_insert_eq. discriminate.
Qed.

Lemma fresh_ne (h : heap) l : h !! l <> None -> l <> fresh (dom h).
Proof. intros H ->. exact (H (alloc_fresh h)). Qed.

Lemma attach_meta_ok p vendor parsed st pd s1 :
  attach_meta p vendor parsed st = (inl pd, s1) ->
  exists ld kvs lm l1,
    pd = PyRef ld /\ heap_of s1 !! ld = Some (PyDict kvs) /\
    dict_lookup "meta" kvs = Some (PyRef lm) /\
    heap_of s1 !! lm = Some (PyDict [("source_file", PyStr p); ("vendor_detected", PyStr vendor);
                                     ("parse_confidence", PyFloat 0.95%float);
                                     ("validation_flags", PyRef l1)]) /\
    heap_of s1 !! l1 = Some (PyList []) /\
    ld <> lm /\ ld <> l1 /\ l1 <> lm.
Proof.
  intros H. unfold attach_meta in H.
  apply bind_inv in H as [[pd0 [s0 [H1 H]]]|[e [_ He]]]; [|discriminate].
  rewrite (bind_ok _ _ _ _ _ (alloc_eq _ _)) in H. cbv beta in H.
  rewrite (bind_ok _ _ _ _ _ (alloc_eq _ _)) in H. cbv beta in H.
  cbn [heap_of validation_flags] in H.
  set (l1 := fresh (dom (heap_of s0))) in H.
  set (h2 := <[l1 := PyList []]> (heap_of s0)) in H.
  set (lm := fresh (dom h2)) in H.
  set (meta := [("source_file", PyStr p); ("vendor_detected", PyStr vendor);
                ("parse_confidence", PyFloat 0.95%float); ("validation_flags", PyRef l1)]) in H.
  apply bind_inv in H as [[u [s4 [H4 H]]]|[e [_ He]]]; [|discriminate].
  injection H as <- <-.
  destruct pd0 as [| | | | |ld]; try (unfold setitem in H4; discriminate H4).
  assert (Hld1 : heap_of s0 !! ld <> None) by exact (alloc_json_ref _ _ _ _ H1).
  assert (N1 : ld <> l1) by exact (fresh_ne _ _ Hld1).
  assert (Hld2 : h2 !! ld = heap_of s0 !! ld) by (unfold h2; rewrite lookup_insert_ne; congruence).
  assert (Hl12 : h2 !! l1 = Some (PyList [])) by (unfold h2; apply lookup_insert_eq).
  assert (Nm : ld <> lm) by (apply fresh_ne; rewrite Hld2; exact Hld1).
  assert (N1m : l1 <> lm) by (apply fresh_ne; rewrite Hl12; discriminate).
  unfold setitem in H4. cbn [heap_of] in H4.
  rewrite lookup_insert_ne in H4 by congruence.
  destruct (h2 !! ld) as [[kvs|xs]|] eqn:E2; [|discriminate H4|discriminate H4].
  injection H4 as _ <-. cbn [heap_of validation_flags].
  exists ld, (dict_set "meta" (PyRef lm) kvs), lm, l1.
  split; [reflexivity|].
  split; [apply lookup_insert_eq|].
  split; [apply dict_lookup_set_eq|].
  split; [rewrite lookup_insert_ne by congruence; apply lookup_insert_eq|].
  split; [rewrite !lookup_insert_ne by congruence; exact Hl12|].
  auto.
Qed.

Lemma after_validation_keeps v : keeps_dicts ["validation_flags"] (after_validation v).
Proof. unfold after_validation. cbv zeta. repeat keep_step. Qed.

Lemma after_validation_returns v : returns (eq v) (after_validation v).
Proof.
  unfold after_validation. cbv zeta.
  repeat (apply returns_bind; intros ?). intros ? ? ? E. injection E as <- _. reflexivity.
Qed.

Lemma finish_parse_meta p vendor parsed st r st' :
  finish_parse p vendor parsed st = (inl r, st') ->
  exists lr rkvs lm mkvs,
    r = PyRef lr /\ heap_of st' !! lr = Some (PyDict rkvs) /\
    dict_lookup "meta" rkvs = Some (PyRef lm) /\ heap_of st' !! lm = Some (PyDict mkvs) /\
    dict_lookup "source_file" mkvs = Some (PyStr p) /\
    dict_lookup "vendor_detected" mkvs = Some (PyStr vendor) /\
    dict_lookup "parse_confidence" mkvs = Some (PyFloat 0.95%float).
Proof.
  intros H. unfold finish_parse in H.
  apply bind_inv in H as [[pd [s1 [H1 H]]]|[e [_ He]]]; [|discriminate].
  destruct (attach_meta_ok _ _ _ _ _ _ H1) as (ld & kvs4 & lm & l1 & -> & Hd4 & Hk4 & Hm4 & _).
  apply bind_inv in H as [[vd [s5 [H5 H]]]|[e [_ He]]]; [|discriminate].
  destruct (validate_invoice_ok s1 ld kvs4 vendor vd s5 Hd4 H5)
    as (st1 & kvs1 & li & xs1 & Hd1 & _ & _ & _ & _ & F1 & [F2 _] & lr & rkvs & -> & _ & Hlr5 & Hr).
  destruct (F1 _ _ Hd4) as [o1 [Ho1 G1]]. rewrite Hd1 in Ho1. injection Ho1 as <-.
  destruct (F1 _ _ Hm4) as [om1 [Hom1 Gm1]]. destruct om1 as [m1|]; [|contradiction].
  destruct (F2 _ _ Hom1) as [om5 [Hom5 Gm5]]. destruct om5 as [m5|]; [|contradiction].
  pose proof (after_validation_returns _ _ _ _ H) as <-.
  pose proof (after_validation_keeps _ _ _ _ H) as Ft.
  destruct (Ft _ _ Hlr5) as [rkvs' [Hlr' Gr]].
  destruct (Ft _ _ Hom5) as [m' [Hm' Gm']].
  exists lr, rkvs', lm, m'. split; [reflexivity|]. split; [exact Hlr'|].
  assert (Hmeta : forall k, ~ In k required_sections -> ~ In k coerced_keys ->
                  ~ In k ["validation_flags"] ->
                  dict_lookup k m' = dict_lookup k [("source_file", PyStr p); ("vendor_detected", PyStr vendor);
                                                   ("parse_confidence", PyFloat 0.95%float);
                                                   ("validation_flags", PyRef l1)]).
  { intros k A B C. rewrite Gm', Gm5, Gm1 by assumption. reflexivity. }
  split.
  { rewrite Gr, Hr, G1, Hk4; [reflexivity|not_in_keys..]. }
  split; [exact Hm'|].
  split; [rewrite Hmeta; [reflexivity|not_in_keys..]|].
  split; [rewrite Hmeta; [reflexivity|not_in_keys..]|].
  rewrite Hmeta; [reflexivity|not_in_keys..].
Qed.

Section ParseFinish.

Variable image : Type.
Variable process_file : string -> option (list image).
Variable call_model : list image -> string -> option string.
Variable prompt_text : string -> string.
Variable loads : string -> option json.
Variable cfg : config.
Variable fs : file_system.

Lemma parse_invoice_finish p vendor st t v st' :
  parse_invoice image process_file call_model prompt_text loads cfg fs p vendor st = (t, inl v, st') ->
  exists parsed, finish_parse p vendor parsed st = (inl v, st').
Proof.
  unfold parse_invoice.
  destruct (validate_file cfg fs p) as [e|]; [discriminate|].
  destruct (negb (existsb (String.eqb vendor) supported_vendors)); [discriminate|].
  destruct (process_file p) as [images|]; [|discriminate].
  destruct (get_vendor_prompt prompt_text vendor) as [prompt|]; [|discriminate].
  destruct (call_model images prompt) as [raw|]; [|discriminate].
  destruct (_parse_json_response loads raw) as [parsed|]; [|discriminate].
  intros H. exists parsed. unfold finish_parse, bind.
  destruct (attach_meta p vendor parsed st) as [[pd|e1] s1]; [|discriminate H].
  destruct (validate_invoice pd vendor s1) as [[vd|e2] s2]; [|discriminate H].
  destruct (after_validation vd s2) as [[r|e3] s3]; [|discriminate H].
  injection H as _ <- <-. reflexivity.
Qed.

End ParseFinish.

Section ParseMeta.

Variable image : Type.
Variable process_file : string -> option (list image).
Variable call_model : list image -> string -> option string.
Variable prompt_text : string -> string.
Variable loads : string -> option json.
Variable cfg : config.
Variable fs : file_system.

(** The record [parse_invoice] returns has a [meta] dict whose
    [source_file] is the path given, whose [vendor_detected] is the vendor
    given and whose [parse_confidence] is [0.95]: the validator's copy
    keeps the block and nothing after it overwrites these entries. *)
Theorem parse_invoice_meta p vendor st t v st' :
  parse_invoice image process_file call_model prompt_text loads cfg fs p vendor st = (t, inl v, st') ->
  exists lr rkvs lm mkvs,
    v = PyRef lr /\ heap_of st' !! lr = Some (PyDict rkvs) /\
    dict_lookup "meta" rkvs = Some (PyRef lm) /\ heap_of st' !! lm = Some (PyDict mkvs) /\
    dict_lookup "source_file" mkvs = Some (PyStr p) /\
    dict_lookup "vendor_detected" mkvs = Some (PyStr vendor) /\
    dict_lookup "parse_confidence" mkvs = Some (PyFloat 0.95%float).
Proof.
  intros H. destruct (parse_invoice_finish _ _ _ _ _ _ _ _ _ _ _ _ _ H) as [parsed E].
  exact (finish_parse_meta _ _ _ _ _ _ E).
Qed.

End ParseMeta.

Lemma parse_invoice_meta_witness :
  exists t v st',
  parse_invoice unit (fun _ => Some [tt]) (fun _ _ => Some "{}") (fun v => v)
    (fun _ => Some (JObj [("vendor", JObj []); ("invoice", JObj []); ("account", JObj []);
                          ("items", JArr [JObj [("upc", JStr "12-345-678")]])]))
    default_config (fun _ => Some 1000) "scans/inv.pdf" "southern_glazers" (mkState ∅ [])
  = (t, inl v, st') /\
  exists lr rkvs lm mkvs,
    v = PyRef lr /\ heap_of st' !! lr = Some (PyDict rkvs) /\
    dict_lookup "meta" rkvs = Some (PyRef lm) /\ heap_of st' !! lm = Some (PyDict mkvs) /\
    dict_lookup "source_file" mkvs = Some (PyStr "scans/inv.pdf") /\
    dict_lookup "vendor_detected" mkvs = Some (PyStr "southern_glazers") /\
    dict_lookup "parse_confidence" mkvs = Some (PyFloat 0.95%float).
Proof.
  destruct (parse_invoice unit (fun _ => Some [tt]) (fun _ _ => Some "{}") (fun v => v)
    (fun _ => Some (JObj [("vendor", JObj []); ("invoice", JObj []); ("account", JObj []);
                          ("items", JArr [JObj [("upc", JStr "12-345-678")]])]))
    default_config (fun _ => Some 1000) "scans/inv.pdf" "southern_glazers" (mkState ∅ []))
    as [[t [v|e]] st'] eqn:E; [|vm_compute in E; discriminate E].
  exists t, v, st'. split; [reflexivity|].
  exact (parse_invoice_meta _ _ _ _ _ _ _ _ _ _ _ _ _ E).
Defined.

Lemma readonly_bind {A B} (m : M A) (k : A -> M B) :
  readonly m -> (forall x, readonly (k x)) -> readonly (bind m k).
Proof.
  intros Hm Hk st y st'' H. apply bind_inv in H as [[x [st' [H1 H2]]]|[e [H1 _]]].
  - rewrite (Hk _ _ _ _ H2). exact (Hm _ _ _ H1).
  - exact (Hm _ _ _ H1).
Qed.

Ltac ro_step :=
  match goal with
  | |- readonly (bind _ _) => apply readonly_bind; [|intros ?]
  | |- readonly (ret _) => intros ? ? ? E; injection E as _ <-; reflexivity
  | |- readonly (raise _) => intros ? ? ? E; injection E as _ <-; reflexivity
  | |- readonly read_heap => intros ? ? ? E; injection E as _ <-; reflexivity
  | |- readonly (if ?b then _ else _) => destruct b
  | |- readonly (match ?x with _ => _ end) => destruct x
  end.

Lemma readonly_dict_get_opt v k : readonly (dict_get_opt v k).
Proof. unfold dict_get_opt. repeat ro_step. Qed.

Lemma readonly_py_len v : readonly (py_len v).
Proof. unfold py_len. repeat ro_step. Qed.

Lemma getitem_dict st l kvs k v :
  heap_of st !! l = Some (PyDict kvs) -> dict_lookup k kvs = Some v ->
  getitem (PyRef l) k st = (inl v, st).
Proof. intros H Hk. unfold getitem, bind, read_heap. simpl. rewrite H, Hk. reflexivity. Qed.

Ltac ro_solve := repeat (ro_step || apply readonly_py_len || apply readonly_dict_get_opt).

Lemma list_append_list st l xs v :
  heap_of st !! l = Some (PyList xs) ->
  list_append (PyRef l) v st =
    (inl tt, mkState (<[l := PyList (xs ++ [v])]> (heap_of st)) (validation_flags st)).
Proof. intros H. unfold list_append. rewrite H. reflexivity. Qed.

Lemma finish_parse_flags p vendor parsed st r st' :
  finish_parse p vendor parsed st = (inl r, st') ->
  exists lr rkvs lm mkvs lt xs,
    r = PyRef lr /\ heap_of st' !! lr = Some (PyDict rkvs) /\
    dict_lookup "meta" rkvs = Some (PyRef lm) /\ heap_of st' !! lm = Some (PyDict mkvs) /\
    dict_lookup "validation_flags" mkvs = Some (PyRef lt) /\ heap_of st' !! lt = Some (PyList xs) /\
    (xs = map PyStr (validation_flags st') \/
     exists n m, (m < n)%nat /\
       xs = (map PyStr (validation_flags st') ++
             [PyStr ("WARNING: Found " +++ str_nat n +++ " barcodes but only " +++ str_nat m
                     +++ " items extracted. Possible missing items!")])%list).
Proof.
  intros H. unfold finish_parse in H.
  apply bind_inv in H as [[pd [s1 [H1 H]]]|[e [_ He]]]; [|discriminate].
  destruct (attach_meta_ok _ _ _ _ _ _ H1)
    as (ld & kvs4 & lm & l1 & -> & Hd4 & Hk4 & Hm4 & Hl14 & Nm & N1 & N1m).
  apply bind_inv in H as [[vd [s5 [H5 H]]]|[e [_ He]]]; [|discriminate].
  destruct (validate_invoice_ok s1 ld kvs4 vendor vd s5 Hd4 H5)
    as (st1 & kvs1 & li & xs1 & Hd1 & _ & _ & _ & _ & F1 & [F2 _] & lr & rkvs & -> & Hlr1 & Hlr5 & Hr).
  destruct (F1 _ _ Hd4) as [o1 [Ho1 G1]]. rewrite Hd1 in Ho1. injection Ho1 as <-.
  destruct (F1 _ _ Hm4) as [om1 [Hom1 Gm1]]. destruct om1 as [m1|]; [|contradiction].
  destruct (F2 _ _ Hom1) as [om5 [Hom5 Gm5]]. destruct om5 as [m5|]; [|contradiction].
  destruct (F1 _ _ Hl14) as [ol1 [Hol1 Gl1]]. destruct ol1 as [|xl1]; [contradiction|].
  simpl in Gl1. subst xl1.
  destruct (F2 _ _ Hol1) as [ol5 [Hol5 Gl5]]. destruct ol5 as [|xl5]; [contradiction|].
  simpl in Gl5. subst xl5.
  assert (Nrm : lr <> lm) by congruence.
  assert (Hmeta5 : dict_lookup "meta" rkvs = Some (PyRef lm)).
  { rewrite Hr, G1, Hk4; [reflexivity|not_in_keys..]. }
  assert (Hvf5 : dict_lookup "validation_flags" m5 = Some (PyRef l1)).
  { rewrite Gm5, Gm1; [reflexivity|not_in_keys..]. }
  unfold after_validation in H. cbv zeta in H.
  rewrite (bind_ok _ _ s5 (validation_flags s5) s5) in H by reflexivity. cbv beta in H.
  apply bind_inv in H as [[shared [s7 [H7 H]]]|[e [_ He]]]; [|discriminate].
  assert (Mid : exists lt m7,
    validation_flags s7 = validation_flags s5 /\ heap_of s7 !! lr = Some (PyDict rkvs) /\
    heap_of s7 !! lm = Some (PyDict m7) /\ dict_lookup "validation_flags" m7 = Some (PyRef lt) /\
    heap_of s7 !! lt = Some (PyList (map PyStr (validation_flags s5))) /\
    (shared = Some (PyRef lt) \/ shared = None)).
  { destruct (validation_flags s5) as [|f0 fr] eqn:Ef.
    - injection H7 as <- <-. exists l1, m5. rewrite Ef. auto 7.
    - apply bind_inv in H7 as [[m [s6 [H6 H7]]]|[e [_ He]]]; [|discriminate].
      rewrite (getitem_dict _ _ _ _ _ Hlr5 Hmeta5) in H6. injection H6 as <- <-.
      rewrite (bind_ok _ _ _ _ _ (alloc_eq _ _)) in H7. cbv beta in H7.
      set (lf := fresh (dom (heap_of s5))) in H7.
      assert (Nfm : lm <> lf) by (apply fresh_ne; rewrite Hom5; discriminate).
      assert (Nfr : lr <> lf) by (apply fresh_ne; rewrite Hlr5; discriminate).
      match type of H7 with context [bind (setitem _ _ _) _ ?st0] =>
        assert (Hs : heap_of st0 !! lm = Some (PyDict m5))
          by (cbn [heap_of]; rewrite lookup_insert_ne by congruence; exact Hom5) end.
      rewrite (bind_ok _ _ _ _ _ (setitem_dict _ _ _ _ _ Hs)) in H7.
      injection H7 as <- <-. cbn [heap_of validation_flags].
      exists lf, (dict_set "validation_flags" (PyRef lf) m5). rewrite Ef.
      split; [reflexivity|].
      split; [rewrite !lookup_insert_ne by congruence; exact Hlr5|].
      split; [apply lookup_insert_eq|].
      split; [apply dict_lookup_set_eq|].
      split; [rewrite lookup_insert_ne by congruence; apply lookup_insert_eq|].
      left. reflexivity. }
  destruct Mid as (lt & m7 & Ef7 & Hlr7 & Hlm7 & Hvf7 & Hlt7 & Hsh).
  apply bind_inv in H as [[items [s8 [H8 H]]]|[e [_ He]]]; [|discriminate].
  apply readonly_dict_get_opt in H8. subst s8.
  apply bind_inv in H as [[cnt [s8 [H8 H]]]|[e [_ He]]]; [|discriminate].
  match type of H8 with ?m _ = _ => assert (R : readonly m) by ro_solve end.
  apply R in H8. subst s8. clear R.
  apply bind_inv in H as [[barcodes [s8 [H8 H]]]|[e [_ He]]]; [|discriminate].
  apply readonly_dict_get_opt in H8. subst s8.
  rewrite (bind_ok _ _ s7 (heap_of s7) s7) in H by reflexivity. cbv beta in H.
  apply bind_inv in H as [[u2 [s9 [H9 H]]]|[e [_ He]]]; [|discriminate].
  injection H as <- <-.
  assert (Plain : s9 = s7 ->
    exists lr' rkvs' lm' mkvs' lt' xs',
    PyRef lr = PyRef lr' /\ heap_of s9 !! lr' = Some (PyDict rkvs') /\
    dict_lookup "meta" rkvs' = Some (PyRef lm') /\ heap_of s9 !! lm' = Some (PyDict mkvs') /\
    dict_lookup "validation_flags" mkvs' = Some (PyRef lt') /\ heap_of s9 !! lt' = Some (PyList xs') /\
    (xs' = map PyStr (validation_flags s9) \/
     exists n m, (m < n)%nat /\
       xs' = (map PyStr (validation_flags s9) ++
             [PyStr ("WARNING: Found " +++ str_nat n +++ " barcodes but only " +++ str_nat m
                     +++ " items extracted. Possible missing items!")])%list)).
  { intros ->. exists lr, rkvs, lm, m7, lt, (map PyStr (validation_flags s5)).
    rewrite Ef7. auto 8. }
  destruct barcodes as [b|]; [|injection H9 as _ <-; exact (Plain eq_refl)].
  destruct (is_list (heap_of s7) b); [|injection H9 as _ <-; exact (Plain eq_refl)].
  apply bind_inv in H9 as [[n [s10 [H10 H9]]]|[e [_ He]]]; [|discriminate].
  apply readonly_py_len in H10. subst s10.
  destruct ((0 <? n) && (cnt <? n))%nat eqn:C; [|injection H9 as _ <-; exact (Plain eq_refl)].
  rewrite (bind_ok _ _ _ _ _ (getitem_dict _ _ _ _ _ Hlr7 Hmeta5)) in H9. cbv beta in H9.
  rewrite (bind_ok _ _ _ _ _ (py_contains_dict _ _ _ "validation_flags" Hlm7)) in H9.
  rewrite Hvf7 in H9. cbv beta iota in H9.
  rewrite (bind_ok _ _ s7 tt s7) in H9 by reflexivity. cbv beta in H9.
  rewrite (bind_ok _ _ _ _ _ (getitem_dict _ _ _ _ _ Hlm7 Hvf7)) in H9. cbv beta in H9.
  rewrite (bind_ok _ _ _ _ _ (list_append_list _ _ _ _ Hlt7)) in H9. cbv beta in H9.
  assert (Ntr : lt <> lr) by congruence.
  assert (Ntm : lt <> lm) by congruence.
  exists lr, rkvs, lm, m7, lt.
  eexists. split; [reflexivity|].
  destruct Hsh as [->| ->]; cbn [same_ref] in H9; [rewrite Pos.eqb_refl in H9|];
    injection H9 as _ <-; cbn [heap_of validation_flags];
    (split; [rewrite lookup_insert_ne by congruence; exact Hlr7|]);
    (split; [exact Hmeta5|]);
    (split; [rewrite lookup_insert_ne by congruence; exact Hlm7|]);
    (split; [exact Hvf7|]);
    (split; [apply lookup_insert_eq|]).
  - left. rewrite map_app, Ef7. reflexivity.
  - right. exists n, cnt. apply andb_true_iff in C as [_ C]. apply Nat.ltb_lt in C.
    split; [exact C|]. rewrite Ef7. reflexivity.
Qed.

Section ParseFlags.

Variable image : Type.
Variable process_file : string -> option (list image).
Variable call_model : list image -> string -> option string.
Variable prompt_text : string -> string.
Variable loads : string -> option json.
Variable cfg : config.
Variable fs : file_system.

(** In the record [parse_invoice] returns, [meta.validation_flags] is a
    list holding the validator's findings list as it stands when the call
    returns, in order, followed by at most one warning that the record has
    fewer items than barcodes. *)
Theorem parse_invoice_meta_flags p vendor st t v st' :
  parse_invoice image process_file call_model prompt_text loads cfg fs p vendor st = (t, inl v, st') ->
  exists lr rkvs lm mkvs lt xs,
    v = PyRef lr /\ heap_of st' !! lr = Some (PyDict rkvs) /\
    dict_lookup "meta" rkvs = Some (PyRef lm) /\ heap_of st' !! lm = Some (PyDict mkvs) /\
    dict_lookup "validation_flags" mkvs = Some (PyRef lt) /\ heap_of st' !! lt = Some (PyList xs) /\
    (xs = map PyStr (validation_flags st') \/
     exists n m, (m < n)%nat /\
       xs = (map PyStr (validation_flags st') ++
             [PyStr ("WARNING: Found " +++ str_nat n +++ " barcodes but only " +++ str_nat m
                     +++ " items extracted. Possible missing items!")])%list).
Proof.
  intros H. destruct (parse_invoice_finish _ _ _ _ _ _ _ _ _ _ _ _ _ H) as [parsed E].
  exact (finish_parse_flags _ _ _ _ _ _ E).
Qed.

End ParseFlags.

Lemma parse_invoice_meta_flags_witness :
  exists t v st',
  parse_invoice unit (fun _ => Some [tt]) (fun _ _ => Some "{}") (fun v => v)
    (fun _ => Some (JObj [("vendor", JObj []); ("invoice", JObj []); ("account", JObj []);
                          ("items", JArr []); ("barcode", JArr [JStr "0123"; JStr "4567"])]))
    default_config (fun _ => Some 1000) "scans/inv.png" "lakeshore" (mkState ∅ [])
  = (t, inl v, st') /\
  exists lr rkvs lm mkvs lt xs,
    v = PyRef lr /\ heap_of st' !! lr = Some (PyDict rkvs) /\
    dict_lookup "meta" rkvs = Some (PyRef lm) /\ heap_of st' !! lm = Some (PyDict mkvs) /\
    dict_lookup "validation_flags" mkvs = Some (PyRef lt) /\ heap_of st' !! lt = Some (PyList xs) /\
    (xs = map PyStr (validation_flags st') \/
     exists n m, (m < n)%nat /\
       xs = (map PyStr (validation_flags st') ++
             [PyStr ("WARNING: Found " +++ str_nat n +++ " barcodes but only " +++ str_nat m
                     +++ " items extracted. Possible missing items!")])%list).
Proof.
  destruct (parse_invoice unit (fun _ => Some [tt]) (fun _ _ => Some "{}") (fun v => v)
    (fun _ => Some (JObj [("vendor", JObj []); ("invoice", JObj []); ("account", JObj []);
                          ("items", JArr []); ("barcode", JArr [JStr "0123"; JStr "4567"])]))
    default_config (fun _ => Some 1000) "scans/inv.png" "lakeshore" (mkState ∅ []))
    as [[t [v|e]] st'] eqn:E; [|vm_compute in E; discriminate E].
  exists t, v, st'. split; [reflexivity|].
  exact (parse_invoice_meta_flags _ _ _ _ _ _ _ _ _ _ _ _ _ E).
Defined.


(** ** The items fallback of [_fix_json_response] *)

Lemma count_drop_le c k t : (count c (drop k t) <= count c t)%nat.
Proof.
  revert k. induction t as [|d t IH]; intros k; destruct k; simpl; try lia.
  specialize (IH k). lia.
Qed.

Lemma prefix_count c sub x : String.prefix sub x = true -> (count c sub <= count c x)%nat.
Proof.
  revert x. induction sub as [|a sub IH]; intros x H; simpl; [lia|].
  destruct x as [|b x]; [discriminate|]. simpl in H.
  destruct (ascii_dec a b) as [<-|]; [|discriminate]. simpl.
  specialize (IH x H). lia.
Qed.

Lemma rfind_from_none sub t i :
  (forall k, String.prefix sub (drop k t) = false) -> rfind_from sub t i = -1.
Proof.
  revert i. induction t as [|d t IH]; intros i H; simpl.
  - specialize (H 0%nat). simpl in H. rewrite H. reflexivity.
  - rewrite IH by (intros k; exact (H (S k))). simpl.
    specialize (H 0%nat). simpl in H. rewrite H. reflexivity.
Qed.

Lemma rfind_from_absent c sub t i :
  count c t = 0%nat -> (0 < count c sub)%nat -> rfind_from sub t i = -1.
Proof.
  intros Ht Hs. apply rfind_from_none. intros k.
  destruct (String.prefix sub (drop k t)) eqn:E; [|reflexivity].
  apply (prefix_count c) in E. pose proof (count_drop_le c k t). lia.
Qed.

Lemma rfind_from_repeat_end c n i :
  0 <= i ->
  rfind_from (String c EmptyString) (repeat_char c (S n)) i = i + Z.of_nat n.
Proof.
  revert i. induction n as [|n IH]; intros i Hi.
  - simpl. destruct (ascii_dec c c); [lia|contradiction].
  - change (repeat_char c (S (S n))) with (String c (repeat_char c (S n))).
    cbn [rfind_from]. rewrite IH by lia.
    replace (i + 1 + Z.of_nat n >=? 0) with true by (symmetry; apply Z.geb_le; lia). lia.
Qed.

Lemma rfind_from_end_repeat c t n i :
  0 <= i ->
  rfind_from (String c EmptyString) (t +++ repeat_char c (S n)) i
  = i + Z.of_nat (String.length t) + Z.of_nat n.
Proof.
  revert i. induction t as [|d t IH]; intros i Hi.
  - change (EmptyString +++ repeat_char c (S n)) with (repeat_char c (S n)).
    simpl String.length. rewrite rfind_from_repeat_end by exact Hi. lia.
  - rewrite append_cons. cbn [rfind_from String.length]. rewrite IH by lia.
    replace (i + 1 + Z.of_nat (String.length t) + Z.of_nat n >=? 0) with true
      by (symmetry; apply Z.geb_le; lia). lia.
Qed.

Lemma scan_array_end_none t b i :
  count "[" t = 0%nat -> count "]" t = 0%nat -> Repair.scan_array_end t b i = None.
Proof.
  revert b i. induction t as [|d t IH]; intros b i H1 H2; [reflexivity|].
  cbn [count] in H1, H2. cbn [Repair.scan_array_end].
  destruct (Ascii.eqb "[" d) eqn:E1; [simpl in H1; lia|].
  destruct (Ascii.eqb "]" d) eqn:E2; [simpl in H2; lia|].
  rewrite (Ascii.eqb_sym d "["), E1, (Ascii.eqb_sym d "]"), E2. apply IH; assumption.
Qed.

Lemma repeat_length_str c n : String.length (repeat_char c n) = n.
Proof. induction n as [|n IH]; simpl; [reflexivity|]. rewrite IH. reflexivity. Qed.

Lemma find_from_hit sub t i : String.prefix sub t = true -> find_from sub t i = i.
Proof. intros H. destruct t; cbn [find_from]; rewrite H; reflexivity. Qed.

Lemma take_length_self t : take (String.length t) t = t.
Proof. induction t as [|d t IH]; simpl; [reflexivity|]. rewrite IH. reflexivity. Qed.

(** A response cut off right after the opening bracket of its items
    array, or inside its first item before any [}], [[], []] or [,], is
    repaired to [{"items": [[]]}]: the fallback meant to leave an empty
    array appends [[]] after the bracket already there, so the parsed
    items are a list holding one empty list. *)
Theorem fix_json_response_nested_empty_items s :
  count "}" s = 0%nat -> count "[" s = 0%nat -> count "]" s = 0%nat -> count "," s = 0%nat ->
  Repair._fix_json_response ("{" +++ Repair.items_key +++ s) = "{" +++ Repair.items_key +++ "[]]}" /\
  json_loads (Repair._fix_json_response ("{" +++ Repair.items_key +++ s))
    = Some (JObj [("items", JArr [JArr []])]).
Proof.
  intros Hc Hb1 Hb2 Hcm.
  set (k := count "{" s).
  set (R := s +++ repeat_char "}" (S k)).
  assert (A1 : Repair.close_braces ("{" +++ Repair.items_key +++ s) = "{" +++ Repair.items_key +++ R).
  { unfold Repair.close_braces.
    rewrite !count_append, Hc. fold k.
    change (count "{" "{") with 1%nat. change (count "}" "{") with 0%nat.
    change (count "{" Repair.items_key) with 0%nat. change (count "}" Repair.items_key) with 0%nat.
    replace (Nat.ltb (0 + (0 + 0)) (1 + (0 + k))) with true by (symmetry; apply Nat.ltb_lt; lia).
    replace (1 + (0 + k) - (0 + (0 + 0)))%nat with (S k) by lia.
    unfold R. rewrite !append_assoc_str. reflexivity. }
  set (Y := "{" +++ Repair.items_key +++ R) in A1.
  assert (CR : forall c, Ascii.eqb c "}" = false -> count c R = count c s).
  { intros c Hc'. unfold R. rewrite count_append, count_repeat_char, Hc'. lia. }
  assert (A2 : Repair.close_dangling_field Y = Y).
  { unfold Repair.close_dangling_field. cbv zeta.
    assert (Hr : rfind "," Y = -1).
    { apply (rfind_from_absent ","); [|cbn; lia].
      unfold Y. rewrite !count_append, CR by reflexivity. rewrite Hcm. reflexivity. }
    rewrite Hr. destruct (contains dq Y); reflexivity. }
  assert (Y11 : Y = ("{" +++ Repair.items_key) +++ R) by (unfold Y; rewrite append_assoc_str; reflexivity).
  assert (A3 : Repair.repair_items_array Y = ("{" +++ Repair.items_key) +++ "[]").
  { assert (F : find Repair.items_key Y = 1).
    { unfold find, Y. change ("{" +++ Repair.items_key +++ R) with (String "{" (Repair.items_key +++ R)).
      cbn [find_from].
      replace (String.prefix Repair.items_key (String "{" (Repair.items_key +++ R))) with false
        by reflexivity.
      apply find_from_hit. apply prefix_append. }
    unfold Repair.repair_items_array, contains. cbv zeta. rewrite F.
    change (Z.to_nat (1 + 10)) with (String.length ("{" +++ Repair.items_key)).
    rewrite Y11, drop_append_length, take_append_length.
    rewrite scan_array_end_none
      by (unfold R; rewrite count_append, count_repeat_char; simpl; lia).
    assert (Hr1 : rfind "}," R = -1).
    { apply (rfind_from_absent ","); [|cbn; lia].
      rewrite CR by reflexivity. exact Hcm. }
    assert (Hr2 : rfind "}" R = Z.of_nat (String.length s) + Z.of_nat k).
    { unfold rfind, R. rewrite rfind_from_end_repeat by lia. lia. }
    rewrite Hr1, Hr2.
    replace (-1 >? 0) with false by reflexivity.
    destruct (Z.of_nat (String.length s) + Z.of_nat k >? 0); [|reflexivity].
    replace (Z.to_nat (Z.of_nat (String.length s) + Z.of_nat k + 1)) with (String.length R).
    2:{ unfold R. rewrite length_append. simpl String.length.
        rewrite repeat_length_str. lia. }
    rewrite take_length_self.
    replace (Nat.eqb (count "{" R) (count "}" R)) with false; [reflexivity|].
    unfold R. rewrite !count_append, !count_repeat_char, Hc. fold k. simpl.
    symmetry. apply Nat.eqb_neq. lia. }
  unfold Repair._fix_json_response. rewrite A1, A2, A3.
  split; vm_compute; reflexivity.
Qed.

Lemma fix_json_response_nested_empty_items_witness :
  let s := "{" +++ dq +++ "upc" +++ dq +++ ": " +++ dq +++ "0123" in
  Repair._fix_json_response ("{" +++ Repair.items_key +++ s) = "{" +++ Repair.items_key +++ "[]]}" /\
  json_loads (Repair._fix_json_response ("{" +++ Repair.items_key +++ s))
    = Some (JObj [("items", JArr [JArr []])]).
Proof.
  intros s. apply fix_json_response_nested_empty_items; reflexivity.
Defined.


(** ** The numeric fields of the validated record *)

Section KeepsNumeric.

Variable f : string.

Lemma keeps_numeric_readonly {A} (m : M A) : readonly m -> keeps_numeric f m.
Proof. intros R st y st' l kvs H Hl Hok. rewrite (R _ _ _ H). eauto. Qed.

Lemma keeps_numeric_bind {A B} (m : M A) (k : A -> M B) :
  keeps_numeric f m -> (forall x, keeps_numeric f (k x)) -> keeps_numeric f (bind m k).
Proof.
  intros Hm Hk st y st'' l kvs H Hl Hok.
  apply bind_inv in H as [[x [st' [H1 H2]]]|[e [H1 _]]].
  - destruct (Hm _ _ _ _ _ H1 Hl Hok) as [kvs' [Hl' Hok']].
    exact (Hk _ _ _ _ _ _ H2 Hl' Hok').
  - exact (Hm _ _ _ _ _ H1 Hl Hok).
Qed.

Lemma keeps_numeric_append_flag s : keeps_numeric f (append_flag s).
Proof. intros st y st' l kvs H Hl Hok. injection H as _ <-. eauto. Qed.

Lemma keeps_numeric_setitem c k v :
  k <> f \/ numeric_ok (Some v) = true -> keeps_numeric f (setitem c k v).
Proof.
  intros Hkv st y st' l kvs H Hl Hok. unfold setitem in H.
  destruct c as [| | | | |lc]; try (injection H as _ <-; eauto).
  destruct (heap_of st !! lc) as [[ckvs|xs]|] eqn:E; try (injection H as _ <-; eauto).
  cbn [heap_of].
  destruct (decide (l = lc)) as [->|Hne].
  - rewrite E in Hl. injection Hl as <-. rewrite lookup_insert_eq.
    eexists. split; [reflexivity|].
    destruct Hkv as [Hk|Hv].
    + rewrite dict_lookup_set_ne by congruence. exact Hok.
    + destruct (String.eqb f k) eqn:Ef.
      * apply String.eqb_eq in Ef. subst k. rewrite dict_lookup_set_eq. exact Hv.
      * apply String.eqb_neq in Ef. rewrite dict_lookup_set_ne by exact Ef. exact Hok.
  - rewrite lookup_insert_ne by congruence. eauto.
Qed.

Lemma keeps_numeric_for_each {A} (xs : list A) body :
  (forall x, keeps_numeric f (body x)) -> keeps_numeric f (for_each xs body).
Proof.
  intros Hb. induction xs as [|x xs IH]; simpl.
  - apply keeps_numeric_readonly. intros st y st' E. injection E as _ <-. reflexivity.
  - apply keeps_numeric_bind; [apply Hb|intros _; exact IH].
Qed.

End KeepsNumeric.

Ltac keepnum_step :=
  match goal with
  | |- keeps_numeric _ (bind _ _) => apply keeps_numeric_bind; [|intros ?]
  | |- keeps_numeric _ (append_flag _) => apply keeps_numeric_append_flag
  | |- keeps_numeric _ (if ?b then _ else _) => destruct b
  | |- keeps_numeric _ (match ?x with _ => _ end) => destruct x
  | |- keeps_numeric _ (raise _) => apply keeps_numeric_readonly; repeat ro_step
  | |- keeps_numeric _ (ret _) => apply keeps_numeric_readonly; repeat ro_step
  | |- keeps_numeric _ read_heap => apply keeps_numeric_readonly; repeat ro_step
  | |- keeps_numeric _ (py_contains _ _) => apply keeps_numeric_readonly; unfold py_contains; repeat ro_step
  | |- keeps_numeric _ (getitem _ _) => apply keeps_numeric_readonly; unfold getitem; repeat ro_step
  | |- keeps_numeric _ (py_iter _) => apply keeps_numeric_readonly; unfold py_iter; repeat ro_step
  | |- keeps_numeric _ (dict_get_opt _ _) => apply keeps_numeric_readonly; apply readonly_dict_get_opt
  | |- keeps_numeric _ (_clean_upc _) => apply keeps_numeric_readonly; unfold _clean_upc; repeat ro_step
  end.

Lemma keeps_numeric_coerce_field f rf obj g : keeps_numeric f (coerce_field rf obj g).
Proof.
  unfold coerce_field. repeat keepnum_step;
    apply keeps_numeric_setitem; right; reflexivity.
Qed.

Lemma keeps_numeric_clean_item_upc f item :
  f <> "upc" -> keeps_numeric f (clean_item_upc item).
Proof.
  intros Hf. unfold clean_item_upc. repeat keepnum_step.
  apply keeps_numeric_setitem. left. intros <-. apply Hf. reflexivity.
Qed.

(** One [coerce_field] on a dict leaves the field [numeric_ok]. *)
Lemma coerce_field_numeric rf st l kvs g u st' :
  heap_of st !! l = Some (PyDict kvs) ->
  coerce_field rf (PyRef l) g st = (inl u, st') ->
  exists kvs', heap_of st' !! l = Some (PyDict kvs') /\ numeric_ok (dict_lookup g kvs') = true.
Proof.
  intros Hl H. unfold coerce_field in H.
  rewrite (bind_ok _ _ _ _ _ (py_contains_dict _ _ _ g Hl)) in H. cbv beta in H.
  destruct (dict_lookup g kvs) as [v|] eqn:Eg.
  2:{ injection H as _ <-. exists kvs. rewrite Eg. split; [exact Hl|reflexivity]. }
  rewrite (bind_ok _ _ _ _ _ (getitem_dict _ _ _ _ _ Hl Eg)) in H. cbv beta in H.
  destruct (present v) eqn:Ep.
  2:{ injection H as _ <-. exists kvs. rewrite Eg. split; [exact Hl|].
      destruct v; try discriminate Ep; try reflexivity.
      simpl in Ep |- *. destruct (String.eqb s "None"); [reflexivity|discriminate Ep]. }
  destruct (py_float v) as [x| |] eqn:Ef.
  - rewrite (setitem_dict _ _ _ _ _ Hl) in H. injection H as _ <-.
    eexists. cbn [heap_of]. rewrite lookup_insert_eq, dict_lookup_set_eq.
    split; reflexivity.
  - assert (E1 : exists st1, (if rf then append_flag ("invalid_numeric_field: " +++ g) else ret tt) st
                   = (inl tt, st1) /\ heap_of st1 = heap_of st)
      by (destruct rf; eexists; split; reflexivity).
    destruct E1 as [st1 [E1 Eh]].
    rewrite (bind_ok _ _ _ _ _ E1) in H. rewrite <- Eh in Hl.
    rewrite (setitem_dict _ _ _ _ _ Hl) in H. injection H as _ <-.
    eexists. cbn [heap_of]. rewrite lookup_insert_eq, dict_lookup_set_eq.
    split; reflexivity.
  - discriminate H.
Qed.

(** The loop over a list of fields leaves every one of them [numeric_ok]. *)
Lemma coerce_fields_numeric rf fs st l kvs u st' :
  heap_of st !! l = Some (PyDict kvs) ->
  for_each fs (coerce_field rf (PyRef l)) st = (inl u, st') ->
  exists kvs', heap_of st' !! l = Some (PyDict kvs') /\
    forall g, In g fs -> numeric_ok (dict_lookup g kvs') = true.
Proof.
  revert st kvs u. induction fs as [|g fs IH]; intros st kvs u Hl H; simpl in H.
  - injection H as _ <-. exists kvs. split; [exact Hl|]. intros g [].
  - apply bind_inv in H as [[u1 [st1 [H1 H2]]]|[e [_ He]]]; [|discriminate].
    destruct (coerce_field_numeric _ _ _ _ _ _ _ Hl H1) as [kvs1 [Hl1 Hg1]].
    destruct (IH _ _ _ Hl1 H2) as [kvs2 [Hl2 Hall]].
    exists kvs2. split; [exact Hl2|]. intros g' [Eg|Hin]; [subst g'|exact (Hall _ Hin)].
    destruct (keeps_numeric_for_each g fs (coerce_field rf (PyRef l))
                (fun x => keeps_numeric_coerce_field g rf (PyRef l) x) _ _ _ _ _ H2 Hl1 Hg1)
      as [kvs3 [Hl3 Hg3]].
    rewrite Hl2 in Hl3. injection Hl3 as <-. exact Hg3.
Qed.

Lemma data_types_numeric st d dkvs r st' :
  heap_of st !! d = Some (PyDict dkvs) ->
  _validate_data_types (PyRef d) st = (inl r, st') ->
  exists lr rkvs, r = PyRef lr /\ heap_of st' !! lr = Some (PyDict rkvs) /\
    forall g, In g numeric_fields -> numeric_ok (dict_lookup g rkvs) = true.
Proof.
  intros Hd H. unfold _validate_data_types in H.
  rewrite (bind_ok _ _ _ _ _ (eq_trans (py_copy_dict _ _ _ Hd) (alloc_eq _ _))) in H.
  cbv beta in H. cbn [heap_of validation_flags] in H.
  set (lr := fresh (dom (heap_of st))) in *.
  set (st1 := mkState (<[lr := PyDict dkvs]> (heap_of st)) (validation_flags st)) in H.
  assert (Hlr : heap_of st1 !! lr = Some (PyDict dkvs)) by apply lookup_insert_eq.
  apply bind_inv in H as [[u1 [st2 [H1 H2]]]|[e [_ He]]]; [|discriminate].
  destruct (coerce_fields_numeric _ _ _ _ _ _ _ Hlr H1) as [kvs2 [Hl2 Hall]].
  match type of H2 with ?m _ = _ =>
    assert (K : forall g, g <> "upc" -> keeps_numeric g m) end.
  { intros g Hg.
    repeat (keepnum_step || (apply keeps_numeric_for_each; intros ?; cbv beta)
            || (apply keeps_numeric_clean_item_upc; exact Hg)
            || apply keeps_numeric_coerce_field). }
  pose proof H2 as H2'.
  apply bind_inv in H2' as [[items [st3 [_ H3]]]|[e [_ He]]]; [|discriminate].
  apply bind_inv in H3 as [[u2 [st4 [_ H4]]]|[e [_ He]]]; [|discriminate].
  injection H4 as Er _. subst r.
  assert (Hts : "total_sales" <> "upc") by discriminate.
  destruct (K _ Hts _ _ _ _ _ H2 Hl2 (Hall _ (or_introl eq_refl))) as [rkvs [Hr _]].
  exists lr, rkvs. split; [reflexivity|]. split; [exact Hr|].
  intros g Hg.
  assert (Hgu : g <> "upc").
  { intros ->. cbn [numeric_fields In] in Hg.
    repeat (destruct Hg as [Hg|Hg]; [discriminate Hg|]). exact Hg. }
  destruct (K _ Hgu _ _ _ _ _ H2 Hl2 (Hall _ Hg)) as [kvs' [Hr' Hk']].
  rewrite Hr in Hr'. injection Hr' as <-. exact Hk'.
Qed.

(** On a dict, a successful [validate_invoice] returns a record in which
    each top-level numeric field (["total_sales"], ["gross_total"], ...) is
    absent, [None], the string ["None"] or a float: never a number left as
    text, an [int] or any other value. *)
Theorem validate_invoice_numeric_fields st d kvs vendor r st' :
  heap_of st !! d = Some (PyDict kvs) ->
  validate_invoice (PyRef d) vendor st = (inl r, st') ->
  exists lr rkvs, r = PyRef lr /\ heap_of st' !! lr = Some (PyDict rkvs) /\
    forall f, In f numeric_fields -> numeric_ok (dict_lookup f rkvs) = true.
Proof.
  intros Hd H. unfold validate_invoice in H. apply try_reraise_ok in H.
  set (st0 := mkState (heap_of st) []) in H.
  assert (Hd0 : heap_of st0 !! d = Some (PyDict kvs)) by exact Hd.
  apply bind_inv in H as [[u [st1 [H1 H2]]]|[e [H1 He]]]; [|discriminate].
  destruct (basic_structure_ok _ _ _ _ _ Hd0 H1)
    as [_ [_ [kvs1 [li [xs [Hd1 _]]]]]].
  apply bind_inv in H2 as [[u2 [st2 [H3 H4]]]|[e [_ He]]]; [|discriminate].
  pose proof (preserves_vendor_stage coerced_keys _ _ _ _ _ H3) as S2.
  apply bind_inv in H4 as [[u3 [st3 [H5 H6]]]|[e [_ He]]]; [|discriminate].
  pose proof (preserves_business_rules coerced_keys _ _ _ _ H5) as S3.
  destruct (step_ok_trans _ _ _ _ S2 S3) as [F13 _].
  destruct (F13 _ _ Hd1) as [o3 [Ho3 G3]]. destruct o3 as [kvs3|xs3]; [|contradiction].
  exact (data_types_numeric _ _ _ _ _ Ho3 H6).
Qed.

Lemma validate_invoice_numeric_fields_witness :
  exists r st',
  invoice [("total_sales", PyStr "12.50"); ("gross_total", PyStr "n/a");
           ("net_amount", PyStr "None"); ("total_bottles", PyInt 3)] [] !! 1%positive =
    Some (PyDict [("items", PyRef 2); ("total_sales", PyStr "12.50"); ("gross_total", PyStr "n/a");
                  ("net_amount", PyStr "None"); ("total_bottles", PyInt 3)]) /\
  validate_invoice (PyRef 1) "lakeshore"
    (mkState (invoice [("total_sales", PyStr "12.50"); ("gross_total", PyStr "n/a");
                       ("net_amount", PyStr "None"); ("total_bottles", PyInt 3)] []) [])
    = (inl r, st') /\
  exists lr rkvs, r = PyRef lr /\ heap_of st' !! lr = Some (PyDict rkvs) /\
    forall f, In f numeric_fields -> numeric_ok (dict_lookup f rkvs) = true.
Proof.
  set (h := invoice [("total_sales", PyStr "12.50"); ("gross_total", PyStr "n/a");
                     ("net_amount", PyStr "None"); ("total_bottles", PyInt 3)] []).
  assert (Hd : heap_of (mkState h []) !! 1%positive =
    Some (PyDict [("items", PyRef 2); ("total_sales", PyStr "12.50"); ("gross_total", PyStr "n/a");
                  ("net_amount", PyStr "None"); ("total_bottles", PyInt 3)])) by reflexivity.
  destruct (validate_invoice (PyRef 1) "lakeshore" (mkState h [])) as [y st'] eqn:E.
  destruct y as [r|e]; [|vm_compute in E; discriminate E].
  exists r, st'. split; [exact Hd|]. split; [reflexivity|].
  exact (validate_invoice_numeric_fields _ _ _ _ _ _ Hd E).
Defined.


(** ** The repair of the last field *)

Lemma find_from_absent c sub t i :
  count c t = 0%nat -> (0 < count c sub)%nat -> find_from sub t i = -1.
Proof.
  intros Ht Hs. revert i. induction t as [|d t IH]; intros i.
  - cbn [find_from]. destruct (String.prefix sub EmptyString) eqn:E; [|reflexivity].
    apply (prefix_count c) in E. simpl in E. lia.
  - cbn [find_from]. destruct (String.prefix sub (String d t)) eqn:E.
    + apply (prefix_count c) in E. lia.
    + cbn [count] in Ht. apply IH. lia.
Qed.

Lemma find_from_append_nonneg sub t u i :
  0 <= i -> String.prefix sub u = true -> 0 <= find_from sub (t +++ u) i.
Proof.
  revert i. induction t as [|d t IH]; intros i Hi Hu.
  - change (EmptyString +++ u) with u. rewrite (find_from_hit _ _ _ Hu). exact Hi.
  - rewrite append_cons. cbn [find_from].
    destruct (String.prefix sub (String d (t +++ u))); [exact Hi|]. apply IH; [lia|exact Hu].
Qed.

Lemma rfind_from_append_last c t u i :
  0 <= i -> count c u = 0%nat ->
  rfind_from (char c) (t +++ String c u) i = i + Z.of_nat (String.length t).
Proof.
  revert i. induction t as [|d t IH]; intros i Hi Hu.
  - change (EmptyString +++ String c u) with (String c u). cbn [rfind_from].
    rewrite (rfind_from_absent c) by (exact Hu || (cbn [count char]; rewrite Ascii.eqb_refl; lia)).
    simpl. destruct (ascii_dec c c); [|contradiction]. destruct u; simpl; lia.
  - rewrite append_cons. cbn [rfind_from]. rewrite IH by (exact Hu || lia).
    rewrite (proj2 (Z.geb_le _ _)) by lia. simpl String.length. lia.
Qed.

Lemma split_head_append sep x y :
  count sep x = 0%nat -> split_head sep (x +++ String sep y) = x.
Proof.
  induction x as [|d x IH]; intros H.
  - simpl. rewrite Ascii.eqb_refl. reflexivity.
  - rewrite append_cons. cbn [count] in H. simpl.
    destruct (Ascii.eqb d sep) eqn:E.
    + apply Ascii.eqb_eq in E. subst d. rewrite Ascii.eqb_refl in H. simpl in H. lia.
    + rewrite IH by lia. reflexivity.
Qed.

Ltac count_norm := repeat ((rewrite count_append) || (progress cbn [count])).

Lemma endswith_char_last c d x :
  c <> d -> endswith (char c) (x +++ char d) = false.
Proof.
  intros Hcd. unfold endswith. rewrite length_append. simpl String.length.
  replace (String.length x + 1 - 1)%nat with (String.length x) by lia.
  rewrite drop_append_length. simpl. rewrite (proj2 (Ascii.eqb_neq d c)) by congruence.
  apply andb_false_r.
Qed.

(** A record whose last field follows a comma and has no braces or
    brackets is rewritten with [null] as that field's value: the
    truncated-string step of [_fix_json_response] sees a text after the
    last comma that starts with a quote and ends with ["}"], not a quote. *)
Theorem fix_json_response_nulls_last_field a k v :
  count "{" a = 0%nat -> count "[" a = 0%nat ->
  count "{" k = 0%nat -> count "[" k = 0%nat -> count "," k = 0%nat -> count ":" k = 0%nat ->
  count "{" v = 0%nat -> count "," v = 0%nat ->
  Repair._fix_json_response ("{" +++ a +++ "," +++ dq +++ k +++ dq +++ ":" +++ v +++ "}")
  = "{" +++ a +++ "," +++ dq +++ k +++ dq +++ ": null}".
Proof.
  intros Ha1 Ha2 Hk1 Hk2 Hk3 Hk4 Hv1 Hv3.
  set (A := "{" +++ a).
  set (K := dq +++ k +++ dq).
  set (rest := K +++ String ":" (v +++ "}")).
  assert (ES : "{" +++ a +++ "," +++ dq +++ k +++ dq +++ ":" +++ v +++ "}"
               = (A +++ char ",") +++ rest).
  { unfold A, rest, K. rewrite !append_assoc_str. reflexivity. }
  assert (EA : String.length A = S (String.length a)) by reflexivity.
  assert (EP : String.length (A +++ char ",") = S (S (String.length a)))
    by (rewrite length_append, EA; simpl; lia).
  assert (CK : forall c, c <> ascii_of_nat 34 -> count c K = count c k).
  { intros c Hc. unfold K, dq, char. rewrite append_cons. cbn [count].
    rewrite !count_append. cbn [count].
    rewrite (proj2 (Ascii.eqb_neq c _) Hc). lia. }
  unfold Repair._fix_json_response. rewrite ES.
  (* close_braces *)
  assert (E1 : Repair.close_braces ((A +++ char ",") +++ rest) = (A +++ char ",") +++ rest).
  { unfold Repair.close_braces, rest, A. count_norm.
    rewrite !CK by discriminate. rewrite Ha1, Hk1, Hv1.
    destruct (Nat.ltb _ _) eqn:E; [|reflexivity]. apply Nat.ltb_lt in E. simpl in E. lia. }
  rewrite E1.
  (* close_dangling_field *)
  assert (Erest : rest = (dq +++ k +++ dq +++ ":" +++ v) +++ char "}").
  { unfold rest, K. rewrite !append_assoc_str. reflexivity. }
  assert (E2 : Repair.close_dangling_field ((A +++ char ",") +++ rest) = (A +++ char ",") +++ K +++ ": null").
  { unfold Repair.close_dangling_field.
    assert (Hc : contains dq ((A +++ char ",") +++ rest) = true).
    { unfold contains, find. apply Z.geb_le. apply find_from_append_nonneg; [lia|].
      unfold rest, K. rewrite !append_assoc_str. apply prefix_append. }
    rewrite Hc.
    assert (Hr : rfind "," ((A +++ char ",") +++ rest) = Z.of_nat (S (String.length a))).
    { unfold rfind. rewrite append_assoc_str.
      change (char "," +++ rest) with (String "," rest).
      pose proof (rfind_from_append_last "," A rest 0) as R. unfold char in R.
      rewrite R, EA by
        (try lia; unfold rest; count_norm; rewrite CK by discriminate; rewrite Hk3, Hv3; reflexivity).
      lia. }
    rewrite Hr.
    rewrite (proj2 (Z.gtb_lt _ _)) by lia.
    replace (Z.to_nat (Z.of_nat (S (String.length a)) + 1)) with (String.length (A +++ char ",")) by (rewrite EP; lia).
    rewrite drop_append_length, take_append_length.
    assert (Hs : strip rest = rest).
    { rewrite Erest.
      replace ((dq +++ k +++ dq +++ ":" +++ v) +++ char "}")
        with (String (ascii_of_nat 34) ((k +++ dq +++ ":" +++ v) +++ char "}")) by reflexivity.
      apply strip_keep_ends; reflexivity. }
    rewrite Hs.
    assert (Hst : startswith dq rest = true).
    { unfold startswith, rest, K. rewrite !append_assoc_str. apply prefix_append. }
    assert (Hen : endswith dq rest = false).
    { rewrite Erest. apply endswith_char_last. discriminate. }
    assert (Hco : contains ":" rest = true).
    { unfold contains, find, rest. apply Z.geb_le. apply find_from_append_nonneg; [lia|].
      change (String ":" (v +++ "}")) with (":" +++ (v +++ "}")). apply prefix_append. }
    rewrite Hst, Hen, Hco. cbn [andb negb].
    unfold rest. rewrite split_head_append by (rewrite CK by discriminate; exact Hk4).
    reflexivity. }
  rewrite E2.
  set (r1 := (A +++ char ",") +++ K +++ ": null").
  assert (Hb : count "[" r1 = 0%nat).
  { unfold r1, A. count_norm. rewrite CK by discriminate. rewrite Ha2, Hk2. reflexivity. }
  (* repair_items_array *)
  assert (E3 : Repair.repair_items_array r1 = r1).
  { unfold Repair.repair_items_array, contains, find.
    rewrite (find_from_absent "[" _ _ _ Hb) by (unfold Repair.items_key, dq, char; simpl; lia).
    reflexivity. }
  rewrite E3.
  (* close_brackets *)
  assert (E4 : Repair.close_brackets r1 = r1).
  { unfold Repair.close_brackets. rewrite Hb. destruct (count "]" r1); reflexivity. }
  rewrite E4.
  (* ensure_object_end *)
  assert (Er1 : r1 = ((A +++ char ",") +++ K +++ ": nul") +++ char "l").
  { unfold r1. rewrite !append_assoc_str. reflexivity. }
  assert (Hn : endswith "}" (((A +++ char ",") +++ K +++ ": nul") +++ char "l") = false)
    by (apply (endswith_char_last "}" "l"); discriminate).
  unfold Repair.ensure_object_end. rewrite Er1, Hn.
  rewrite rstrip_by_keep by reflexivity.
  unfold A, K. rewrite !append_assoc_str. reflexivity.
Qed.

Lemma fix_json_response_nulls_last_field_witness :
  let a := dq +++ "invoice_number" +++ dq +++ ": " +++ dq +++ "INV-7" +++ dq in
  Repair._fix_json_response
    ("{" +++ a +++ "," +++ dq +++ "total_sales" +++ dq +++ ":" +++ " 12.5 USD" +++ "}")
  = "{" +++ a +++ "," +++ dq +++ "total_sales" +++ dq +++ ": null}".
Proof. intros a. apply fix_json_response_nulls_last_field; reflexivity. Defined.


(** ** The numeric fields of the items *)

Lemma preserves_item_body item :
  preserves coerced_keys
    (clean_item_upc item ;;; for_each numeric_item_fields (coerce_field false item)).
Proof.
  apply preserves_bind; [apply preserves_clean_item_upc|intros _].
  apply preserves_for_each. intros f Hf. apply preserves_coerce_field.
  unfold coerced_keys. right. apply in_app_iff. right. exact Hf.
Qed.

Lemma keeps_numeric_item_body f item :
  f <> "upc" ->
  keeps_numeric f (clean_item_upc item ;;; for_each numeric_item_fields (coerce_field false item)).
Proof.
  intros Hf. apply keeps_numeric_bind; [apply keeps_numeric_clean_item_upc; exact Hf|intros _].
  apply keeps_numeric_for_each. intros g. apply keeps_numeric_coerce_field.
Qed.

Lemma item_fields_not_upc f : In f numeric_item_fields -> f <> "upc".
Proof.
  intros Hf ->. cbn [numeric_item_fields In] in Hf.
  repeat (destruct Hf as [Hf|Hf]; [discriminate Hf|]). exact Hf.
Qed.

(** The item loop of [_validate_data_types]: every item that is a dict
    when the loop starts ends with its numeric fields [numeric_ok]. *)
Lemma item_loop_numeric xs st u st' :
  for_each xs (fun item => clean_item_upc item ;;;
                           for_each numeric_item_fields (coerce_field false item)) st = (inl u, st') ->
  forall l ikvs, In (PyRef l) xs -> heap_of st !! l = Some (PyDict ikvs) ->
  exists ikvs', heap_of st' !! l = Some (PyDict ikvs') /\
    forall f, In f numeric_item_fields -> numeric_ok (dict_lookup f ikvs') = true.
Proof.
  revert st u. induction xs as [|x xs IH]; intros st u H l ikvs Hin Hl; [destruct Hin|].
  change (for_each (x :: xs) ?b) with (bind (b x) (fun _ => for_each xs b)) in H.
  apply bind_inv in H as [[u1 [st1 [H1 H2]]]|[e [_ He]]]; [|discriminate].
  cbv beta in H1. destruct Hin as [Ex|Hin].
  - subst x. pose proof H1 as H1'.
    apply bind_inv in H1' as [[u0 [s0 [H3 H4]]]|[e [_ He]]]; [|discriminate].
    destruct (frame_dict_frame _ _ _ (proj1 (preserves_clean_item_upc _ _ _ _ H3)) _ _ Hl)
      as [kvs0 [Hl0 _]].
    destruct (coerce_fields_numeric _ _ _ _ _ _ _ Hl0 H4) as [kvs1 [Hl1 Hall]].
    assert (K : forall f, In f numeric_item_fields ->
              exists kvs', heap_of st' !! l = Some (PyDict kvs') /\
                           numeric_ok (dict_lookup f kvs') = true).
    { intros f Hf.
      exact (keeps_numeric_for_each f xs _
               (fun y => keeps_numeric_item_body f y (item_fields_not_upc _ Hf))
               _ _ _ _ _ H2 Hl1 (Hall _ Hf)). }
    destruct (K "qty" (or_introl eq_refl)) as [kvs' [Hl' _]].
    exists kvs'. split; [exact Hl'|]. intros f Hf.
    destruct (K f Hf) as [kvs'' [Hl'' Hok]]. rewrite Hl' in Hl''. injection Hl'' as <-. exact Hok.
  - destruct (frame_dict_frame _ _ _ (proj1 (preserves_item_body _ _ _ _ H1)) _ _ Hl)
      as [kvs1 [Hl1 _]].
    exact (IH _ _ H2 _ _ Hin Hl1).
Qed.

Lemma data_types_items_numeric st d dkvs li xs r st' :
  heap_of st !! d = Some (PyDict dkvs) ->
  dict_lookup "items" dkvs = Some (PyRef li) -> heap_of st !! li = Some (PyList xs) ->
  _validate_data_types (PyRef d) st = (inl r, st') ->
  forall l ikvs, In (PyRef l) xs -> heap_of st !! l = Some (PyDict ikvs) ->
  exists ikvs', heap_of st' !! l = Some (PyDict ikvs') /\
    forall f, In f numeric_item_fields -> numeric_ok (dict_lookup f ikvs') = true.
Proof.
  intros Hd Hi Hli H l ikvs Hin Hl. unfold _validate_data_types in H.
  rewrite (bind_ok _ _ _ _ _ (eq_trans (py_copy_dict _ _ _ Hd) (alloc_eq _ _))) in H.
  cbv beta in H. cbn [heap_of validation_flags] in H.
  set (lr := fresh (dom (heap_of st))) in *.
  set (st1 := mkState (<[lr := PyDict dkvs]> (heap_of st)) (validation_flags st)) in H.
  assert (Hlr : heap_of st1 !! lr = Some (PyDict dkvs)) by apply lookup_insert_eq.
  assert (Hli1 : heap_of st1 !! li = Some (PyList xs)).
  { cbn [heap_of st1]. rewrite lookup_insert_ne; [exact Hli|].
    apply not_eq_sym, fresh_ne. rewrite Hli. discriminate. }
  assert (Hl1 : heap_of st1 !! l = Some (PyDict ikvs)).
  { cbn [heap_of st1]. rewrite lookup_insert_ne; [exact Hl|].
    apply not_eq_sym, fresh_ne. rewrite Hl. discriminate. }
  apply bind_inv in H as [[u1 [st2 [H1 H2]]]|[e [_ He]]]; [|discriminate].
  assert (P1 : preserves coerced_keys (for_each numeric_fields (coerce_field true (PyRef lr)))).
  { apply preserves_for_each. intros f Hf. apply preserves_coerce_field.
    unfold coerced_keys. right. apply in_app_iff. left. exact Hf. }
  destruct (P1 _ _ _ H1) as [F1 _].
  destruct (F1 _ _ Hlr) as [o2 [Hlr2 G2]]. destruct o2 as [kvs2|xs2]; [|contradiction].
  destruct (F1 _ _ Hli1) as [o3 [Hli2 G3]]. destruct o3 as [kvs3|xs3]; [contradiction|].
  cbn [obj_frame] in G3. subst xs3.
  destruct (frame_dict_frame _ _ _ F1 _ _ Hl1) as [ikvs2 [Hl2 _]].
  assert (Hi2 : dict_lookup "items" kvs2 = Some (PyRef li)).
  { rewrite G2; [exact Hi|]. not_in_keys. }
  assert (E3 : dict_get_opt (PyRef lr) "items" st2 = (inl (Some (PyRef li)), st2)).
  { unfold dict_get_opt, bind, read_heap. simpl. rewrite Hlr2, Hi2. reflexivity. }
  rewrite (bind_ok _ _ _ _ _ E3) in H2. cbv beta iota in H2.
  assert (E4 : py_iter (PyRef li) st2 = (inl xs, st2)).
  { unfold py_iter, bind, read_heap. simpl. rewrite Hli2. reflexivity. }
  apply bind_inv in H2 as [[u2 [st3 [H3 H4]]]|[e [_ He]]]; [|discriminate].
  rewrite (bind_ok _ _ _ _ _ E4) in H3.
  injection H4 as _ <-.
  exact (item_loop_numeric _ _ _ _ H3 _ _ Hin Hl2).
Qed.

Lemma validate_invoice_items_numeric_core st d kvs vendor r st' :
  heap_of st !! d = Some (PyDict kvs) ->
  validate_invoice (PyRef d) vendor st = (inl r, st') ->
  exists lr rkvs li xs,
    r = PyRef lr /\ heap_of st' !! lr = Some (PyDict rkvs) /\
    dict_lookup "items" rkvs = Some (PyRef li) /\ heap_of st' !! li = Some (PyList xs) /\
    forall l ikvs, In (PyRef l) xs -> heap_of st !! l = Some (PyDict ikvs) ->
      exists ikvs', heap_of st' !! l = Some (PyDict ikvs') /\
        forall f, In f numeric_item_fields -> numeric_ok (dict_lookup f ikvs') = true.
Proof.
  intros Hd H. unfold validate_invoice in H. apply try_reraise_ok in H.
  set (st0 := mkState (heap_of st) []) in H.
  assert (Hd0 : heap_of st0 !! d = Some (PyDict kvs)) by exact Hd.
  apply bind_inv in H as [[u [st1 [H1 H2]]]|[e [H1 He]]]; [|discriminate].
  destruct (basic_structure_ok _ _ _ _ _ Hd0 H1)
    as [_ [[F1 _] [kvs1 [li [xs [Hd1 [_ [Hi1 [Hli1 _]]]]]]]]].
  apply bind_inv in H2 as [[u2 [st2 [H3 H4]]]|[e [_ He]]]; [|discriminate].
  pose proof (preserves_vendor_stage coerced_keys _ _ _ _ _ H3) as S2.
  apply bind_inv in H4 as [[u3 [st3 [H5 H6]]]|[e [_ He]]]; [|discriminate].
  pose proof (preserves_business_rules coerced_keys _ _ _ _ H5) as S3.
  destruct (step_ok_trans _ _ _ _ S2 S3) as [F13 _].
  destruct (F13 _ _ Hd1) as [o3 [Ho3 G3]]. destruct o3 as [kvs3|xs3]; [|contradiction].
  destruct (F13 _ _ Hli1) as [o4 [Hli3 G4]]. destruct o4 as [kvs4|xs4]; [contradiction|].
  cbn [obj_frame] in G4. subst xs4.
  assert (Hi3 : dict_lookup "items" kvs3 = Some (PyRef li)) by (rewrite G3; [exact Hi1|not_in_keys]).
  pose proof (data_types_items_numeric _ _ _ _ _ _ _ Ho3 Hi3 Hli3 H6) as N.
  destruct (data_types_ok _ _ _ _ _ Ho3 H6) as [[F4 _] [lr [rkvs [-> [_ [Hlr Hr]]]]]].
  destruct (F4 _ _ Hli3) as [o5 [Hli4 G5]]. destruct o5 as [kvs5|xs5]; [contradiction|].
  cbn [obj_frame] in G5. subst xs5.
  exists lr, rkvs, li, xs. split; [reflexivity|]. split; [exact Hlr|].
  split; [rewrite Hr; [exact Hi3|not_in_keys]|]. split; [exact Hli4|].
  intros l ikvs Hin Hl.
  destruct (F1 _ _ Hl) as [o [Ho G]]. destruct o as [ikvs1|]; [|contradiction].
  destruct (F13 _ _ Ho) as [o' [Ho' G']]. destruct o' as [ikvs3|]; [|contradiction].
  exact (N _ _ Hin Ho').
Qed.

(** On a dict, a successful [validate_invoice] returns a record with an
    ["items"] list, and each of its items that was a dict in the input
    ends with its numeric fields (["qty"], ["unit_price"],
    ...) absent, [None], the string ["None"] or a float. *)
Theorem validate_invoice_item_numeric_fields st d kvs vendor r st' :
  heap_of st !! d = Some (PyDict kvs) ->
  validate_invoice (PyRef d) vendor st = (inl r, st') ->
  exists lr rkvs li xs,
    r = PyRef lr /\ heap_of st' !! lr = Some (PyDict rkvs) /\
    dict_lookup "items" rkvs = Some (PyRef li) /\ heap_of st' !! li = Some (PyList xs) /\
    forall l ikvs, In (PyRef l) xs -> heap_of st !! l = Some (PyDict ikvs) ->
      exists ikvs', heap_of st' !! l = Some (PyDict ikvs') /\
        forall f, In f numeric_item_fields -> numeric_ok (dict_lookup f ikvs') = true.
Proof. exact (validate_invoice_items_numeric_core st d kvs vendor r st'). Qed.

Lemma validate_invoice_item_numeric_fields_witness :
  exists r st',
  lakeshore_heap !! 1%positive =
    Some (PyDict [("items", PyRef 2); ("total_sales", PyFloat 100.01)]) /\
  validate_invoice (PyRef 1) "lakeshore" (mkState lakeshore_heap []) = (inl r, st') /\
  exists lr rkvs li xs,
    r = PyRef lr /\ heap_of st' !! lr = Some (PyDict rkvs) /\
    dict_lookup "items" rkvs = Some (PyRef li) /\ heap_of st' !! li = Some (PyList xs) /\
    forall l ikvs, In (PyRef l) xs -> heap_of (mkState lakeshore_heap []) !! l = Some (PyDict ikvs) ->
      exists ikvs', heap_of st' !! l = Some (PyDict ikvs') /\
        forall f, In f numeric_item_fields -> numeric_ok (dict_lookup f ikvs') = true.
Proof.
  assert (Hd : heap_of (mkState lakeshore_heap []) !! 1%positive =
    Some (PyDict [("items", PyRef 2); ("total_sales", PyFloat 100.01)])) by reflexivity.
  destruct (validate_invoice (PyRef 1) "lakeshore" (mkState lakeshore_heap [])) as [y st'] eqn:E.
  destruct y as [r|e]; [|vm_compute in E; discriminate E].
  exists r, st'. split; [exact Hd|]. split; [reflexivity|].
  exact (validate_invoice_item_numeric_fields _ _ _ _ _ _ Hd E).
Defined.



Lemma validate_invoice_frame_witness :
  exists y st',
  validate_invoice (PyRef 1) "lakeshore" (mkState lakeshore_heap []) = (y, st') /\
  frame (required_sections ++ coerced_keys) lakeshore_heap (heap_of st').
Proof.
  destruct (validate_invoice (PyRef 1) "lakeshore" (mkState lakeshore_heap [])) as [y st'] eqn:E.
  exists y, st'. split; [reflexivity|].
  exact (validate_invoice_frame _ _ _ _ _ E).
Defined.

Lemma validate_invoice_findings_witness :
  exists y st',
  validate_invoice (PyRef 1) "breakthru" (mkState zero_qty_heap []) = (y, st') /\
  match y with
  | inl _ => Forall (validator_flag "breakthru") (validation_flags st')
  | inr e => exists fl, validation_flags st' = (fl ++ ["validation_error: " +++ exc_str e])%list /\
                        Forall (validator_flag "breakthru") fl
  end.
Proof.
  destruct (validate_invoice (PyRef 1) "breakthru" (mkState zero_qty_heap [])) as [y st'] eqn:E.
  exists y, st'. split; [reflexivity|].
  exact (validate_invoice_findings _ _ _ _ _ E).
Defined.
